(** * GIRO simulation harness: health monitor, sync validator, test registry

    Shallow embedding of the orchestration core of
    [scripts/simulation/continuous_test_runner.py] and
    [scripts/simulation/multi_pc_test_harness.py], and the properties the
    specification states about it.

    Conventions of the embedding
    - Python [str] is [string]; Python [int] is [Z]; Python [float]
      (IEEE-754 binary64) is the primitive [float], so prices and the pass
      rate are computed bit for bit as CPython computes them.
    - A Python [dict] is an insertion-ordered association list ([PyDict]);
      a Python [set] of strings is a [gset string].
    - The files under [/tmp/giro-sim] are an explicit [World]; every SQL
      statement the scripts issue is one observation of a node's database.
    - The mutable objects of the continuous runner ([HealthMonitor],
      [SyncValidator]) are passed and returned explicitly. The harness only
      ever writes to its globals (the logger, the registry): a call is the
      list of writes it makes, which [exec] performs.
    - A raised exception is an explicit result, with the class distinction
      the [except] clauses make; a call that never returns is [Hangs].
    - Clock readings ([time.time()]) are [float]s handed in by the caller,
      and what is computed from them is computed in binary64; timestamps
      are strings handed in by the caller. *)

From Stdlib Require Import ZArith String Ascii List Floats DecimalString.
From stdpp Require Import gmap strings.
Import ListNotations.

Local Open Scope Z_scope.

(** ** Python values and formatting *)

Module Py.

(** [needle in hay] on [str]. *)
Fixpoint str_in (needle hay : string) : bool :=
  if String.prefix needle hay then true
  else match hay with
       | EmptyString => false
       | String _ rest => str_in needle rest
       end.

(** [str(n)] for an [int]. *)
Definition str_int (n : Z) : string := NilZero.string_of_int (Z.to_int n).

(** [", ".join(parts)] and friends. *)
Fixpoint join (sep : string) (parts : list string) : string :=
  match parts with
  | [] => EmptyString
  | [p] => p
  | p :: rest => p +:+ sep +:+ join sep rest
  end.

(** Nearest integer to [num / den] ([den > 0]), ties to even: the rounding
    of CPython's float formatting, which works on the exact binary value. *)
Definition round_half_even (num den : Z) : Z :=
  let q := num / den in
  let r := num mod den in
  if 2 * r <? den then q
  else if den <? 2 * r then q + 1
  else if Z.even q then q else q + 1.

Fixpoint zero_pad (width : nat) (s : string) : string :=
  match width with
  | O => s
  | S w => if (String.length s <? Nat.succ w)%nat then zero_pad w ("0" +:+ s) else s
  end.

(** The digits of [scaled / 10^digits] in fixed notation. *)
Definition fixed_digits (digits : nat) (neg : bool) (scaled : Z) : string :=
  let p := 10 ^ Z.of_nat digits in
  let body :=
    match digits with
    | O => str_int (scaled / p)
    | S _ => str_int (scaled / p) +:+ "." +:+ zero_pad digits (str_int (scaled mod p))
    end in
  if neg then "-" +:+ body else body.

(** [format(x, ".<digits>f")] for a [float]. *)
Definition format_f (digits : nat) (x : float) : string :=
  match Prim2SF x with
  | S754_nan => "nan"
  | S754_infinity s => if s then "-inf" else "inf"
  | S754_zero s => fixed_digits digits s 0
  | S754_finite s m e =>
      let p := 10 ^ Z.of_nat digits in
      let scaled :=
        if 0 <=? e then Z.pos m * 2 ^ e * p
        else round_half_even (Z.pos m * p) (2 ^ (- e)) in
      fixed_digits digits s scaled
  end.

(** [x < n] for a [float] and an [int]: Python compares the two exact
    values, without converting [n]. *)
Definition float_lt_int (x : float) (n : Z) : bool :=
  match Prim2SF x with
  | S754_nan => false
  | S754_infinity s => s
  | S754_zero _ => 0 <? n
  | S754_finite s m e =>
      let v := if s then Z.neg m else Z.pos m in
      if 0 <=? e then v * 2 ^ e <? n else v <? n * 2 ^ (- e)
  end.

(** How a call [time.sleep(secs)] ends on the platform: it returns, a
    signal handler having run meanwhile or not (the sleep is resumed after a
    handler that returns), or it raises because the platform cannot wait
    that long ([OverflowError], [OSError]). *)
Inductive Sleep :=
| Slept (signalled : bool)
| SleepFails (error : string).

(** [time.sleep(secs)] with an [int]: a negative length raises
    [ValueError] before anything is waited for. *)
Definition sleep (secs : Z) (platform : Sleep) : Sleep :=
  if secs <? 0 then SleepFails "sleep length must be non-negative" else platform.

(** [a / b] on two [int]s (true division), for operands below [2^53];
    [None] is [ZeroDivisionError]. *)
Definition int_truediv (a b : Z) : option float :=
  if b =? 0 then None
  else Some (PrimFloat.div (PrimFloat.of_uint63 (Uint63.of_Z a))
                           (PrimFloat.of_uint63 (Uint63.of_Z b))).

End Py.

(** ** Python [dict]: insertion-ordered, one entry per key *)

Module PyDict.
Section Dict.
Context {V : Type}.

(** [d[k] = v]: overwrite in place, or append a new key. *)
Fixpoint set (k : string) (v : V) (d : list (string * V)) : list (string * V) :=
  match d with
  | [] => [(k, v)]
  | (k', v') :: rest =>
      if String.eqb k' k then (k', v) :: rest else (k', v') :: set k v rest
  end.

(** [d.get(k)]. *)
Fixpoint get (k : string) (d : list (string * V)) : option V :=
  match d with
  | [] => None
  | (k', v') :: rest => if String.eqb k' k then Some v' else get k rest
  end.

(** [k in d]. *)
Definition mem (k : string) (d : list (string * V)) : bool :=
  match get k d with Some _ => true | None => false end.

Definition keys (d : list (string * V)) : list string := map fst d.
Definition values (d : list (string * V)) : list V := map snd d.
Definition len (d : list (string * V)) : nat := length d.

(** [{key(r): r for r in rows}]. *)
Definition of_rows (key : V -> string) (rows : list V) : list (string * V) :=
  fold_left (fun d r => set (key r) r d) rows [].
End Dict.
End PyDict.

(** ** The simulated fleet on disk *)

Module Sim.

(** One row of [SELECT id, name, sale_price, current_stock FROM products]. *)
Record ProductRow := {
  id : string;
  name : string;
  sale_price : float;
  current_stock : float
}.

(** What executing a statement gives: its result, or the message of the
    exception sqlite3 raises (no such table, locked file). *)
Inductive Sql (A : Type) :=
| Rows (result : A)
| SqlError (msg : string).
Arguments Rows {A} result.
Arguments SqlError {A} msg.

(** What each SQL statement of the scripts yields on one node's [giro.db]. *)
Record Database := {
  (** [SELECT COUNT( * ) as cnt FROM <table>] *)
  table_count : string -> Sql Z;
  (** [SELECT key, value FROM settings WHERE key LIKE 'network.%'] *)
  network_settings : Sql (list (string * string));
  (** [SELECT id, name, sale_price, current_stock FROM products ORDER BY id] *)
  products_by_id : Sql (list ProductRow);
  (** [SELECT COUNT( * ) as cnt FROM products WHERE current_stock > 0] *)
  products_in_stock : Sql Z;
  (** [SELECT id FROM products WHERE id LIKE 'prod-%' ORDER BY id] *)
  seed_product_ids : Sql (list string)
}.

(** [runtime.log]: missing, readable, or [read_text] raises. *)
Inductive LogFile :=
| LogAbsent
| LogText (content : string)
| LogUnreadable (err : string).

(** A node directory: [db = None] when [giro.db] does not exist. *)
Record Node := {
  db : option Database;
  runtime_log : LogFile
}.

Definition World := string -> Node.

Record PcConfig := {
  pc_id : string;
  pc_role : string;
  pc_type : string
}.

(** [PC_CONFIG] (the same roster in both scripts; the display emoji and the
    port, used by no check, are left out). *)
Definition PC_CONFIG : list PcConfig := [
  {| pc_id := "PC-PDV-01"; pc_role := "MASTER"; pc_type := "PDV" |};
  {| pc_id := "PC-PDV-02"; pc_role := "SATELLITE"; pc_type := "PDV" |};
  {| pc_id := "PC-ESTQ"; pc_role := "SATELLITE"; pc_type := "STOCK" |};
  {| pc_id := "PC-GER"; pc_role := "SATELLITE"; pc_type := "MANAGER" |};
  {| pc_id := "PC-VEN-01"; pc_role := "SATELLITE"; pc_type := "SALES" |};
  {| pc_id := "PC-VEN-02"; pc_role := "SATELLITE"; pc_type := "SALES" |};
  {| pc_id := "PC-ADM"; pc_role := "SATELLITE"; pc_type := "ADMIN" |};
  {| pc_id := "PC-FIN"; pc_role := "SATELLITE"; pc_type := "FINANCE" |};
  {| pc_id := "PC-CAD"; pc_role := "SATELLITE"; pc_type := "REGISTER" |};
  {| pc_id := "PC-RESERVA"; pc_role := "SATELLITE"; pc_type := "PDV" |}
].

(** [SIM_DIR / pc_id / "data" / "GIRO" / "giro.db"] *)
Definition get_db_path (pc : string) : string :=
  "/tmp/giro-sim/" +:+ pc +:+ "/data/GIRO/giro.db".

End Sim.

(** ** continuous_test_runner.py *)

Module Runner.

(** *** Database utilities *)

(** [db_query]: [[]] when the file is missing, [[]] when sqlite3 raises,
    the rows otherwise. The statement is given by the observation [q] it
    makes on the database. *)
Definition db_query {A : Type} (w : Sim.World) (pc_id : string)
    (q : Sim.Database -> Sim.Sql (list A)) : list A :=
  match Sim.db (w pc_id) with
  | None => []
  | Some d =>
      match q d with
      | Sim.Rows rows => rows
      | Sim.SqlError _ => []
      end
  end.

(** The one-row result of [SELECT COUNT( * ) as cnt FROM <table>]. *)
Definition count_rows (table : string) (d : Sim.Database) : Sim.Sql (list Z) :=
  match Sim.table_count d table with
  | Sim.Rows n => Sim.Rows [n]
  | Sim.SqlError msg => Sim.SqlError msg
  end.

(** [db_count]: [result[0]["cnt"] if result else 0]. *)
Definition db_count (w : Sim.World) (pc_id table : string) : Z :=
  match db_query w pc_id (count_rows table) with
  | cnt :: _ => cnt
  | [] => 0
  end.

(** *** Health check system *)

Record HealthStatus := {
  pc_id : string;
  timestamp : string;
  status : string;  (* "OK", "WARN", "ERROR" *)
  db_accessible : bool;
  employee_count : Z;
  product_count : Z;
  sale_count : Z;
  network_connected : bool;
  last_sync_time : option string;
  errors : list string;
  warnings : list string
}.

(** [HealthStatus(pc_id=..., timestamp=..., status="OK")] with the
    dataclass defaults. *)
Definition new_status (pc now : string) : HealthStatus := {|
  pc_id := pc; timestamp := now; status := "OK";
  db_accessible := true;
  employee_count := 0; product_count := 0; sale_count := 0;
  network_connected := true; last_sync_time := None;
  errors := []; warnings := []
|}.

(** Attribute assignments on a status object. *)
Definition set_status (v : string) (s : HealthStatus) : HealthStatus := {|
  pc_id := pc_id s; timestamp := timestamp s; status := v;
  db_accessible := db_accessible s;
  employee_count := employee_count s; product_count := product_count s;
  sale_count := sale_count s;
  network_connected := network_connected s; last_sync_time := last_sync_time s;
  errors := errors s; warnings := warnings s
|}.

Definition set_db_accessible (v : bool) (s : HealthStatus) : HealthStatus := {|
  pc_id := pc_id s; timestamp := timestamp s; status := status s;
  db_accessible := v;
  employee_count := employee_count s; product_count := product_count s;
  sale_count := sale_count s;
  network_connected := network_connected s; last_sync_time := last_sync_time s;
  errors := errors s; warnings := warnings s
|}.

Definition set_counts (e p sl : Z) (s : HealthStatus) : HealthStatus := {|
  pc_id := pc_id s; timestamp := timestamp s; status := status s;
  db_accessible := db_accessible s;
  employee_count := e; product_count := p; sale_count := sl;
  network_connected := network_connected s; last_sync_time := last_sync_time s;
  errors := errors s; warnings := warnings s
|}.

Definition set_network_connected (v : bool) (s : HealthStatus) : HealthStatus := {|
  pc_id := pc_id s; timestamp := timestamp s; status := status s;
  db_accessible := db_accessible s;
  employee_count := employee_count s; product_count := product_count s;
  sale_count := sale_count s;
  network_connected := v; last_sync_time := last_sync_time s;
  errors := errors s; warnings := warnings s
|}.

(** [status.errors.append(msg)] *)
Definition errors_append (msg : string) (s : HealthStatus) : HealthStatus := {|
  pc_id := pc_id s; timestamp := timestamp s; status := status s;
  db_accessible := db_accessible s;
  employee_count := employee_count s; product_count := product_count s;
  sale_count := sale_count s;
  network_connected := network_connected s; last_sync_time := last_sync_time s;
  errors := errors s ++ [msg]; warnings := warnings s
|}.

(** [status.warnings.append(msg)] *)
Definition warnings_append (msg : string) (s : HealthStatus) : HealthStatus := {|
  pc_id := pc_id s; timestamp := timestamp s; status := status s;
  db_accessible := db_accessible s;
  employee_count := employee_count s; product_count := product_count s;
  sale_count := sale_count s;
  network_connected := network_connected s; last_sync_time := last_sync_time s;
  errors := errors s; warnings := warnings s ++ [msg]
|}.

(** An alert dict: [{"time", "pc_id", "level", "messages"}]. *)
Record Alert := {
  alert_time : string;
  alert_pc_id : string;
  alert_level : string;
  alert_messages : list string
}.

Record HealthMonitor := {
  statuses : list (string * HealthStatus);
  history : list (string * list HealthStatus);
  alerts : list Alert
}.

(** [HealthMonitor()] *)
Definition new_monitor : HealthMonitor :=
  {| statuses := []; history := []; alerts := [] |}.

(** Result of the [try] block: it ran to its end, or it raised after the
    mutations recorded in [partial]. *)
Inductive Attempt :=
| Done (s : HealthStatus)
| Raised (partial : HealthStatus) (err : string).

(** "Validate minimums" for employees. *)
Definition check_employees (s : HealthStatus) : HealthStatus :=
  if employee_count s =? 0 then
    set_status "ERROR" (errors_append "No employees in database" s)
  else if employee_count s <? 3 then
    warnings_append ("Low employee count: " +:+ Py.str_int (employee_count s)) s
  else s.

(** "Validate minimums" for products. *)
Definition check_products (s : HealthStatus) : HealthStatus :=
  if product_count s =? 0 then
    set_status "ERROR" (errors_append "No products in database" s)
  else if product_count s <? 10 then
    warnings_append ("Low product count: " +:+ Py.str_int (product_count s)) s
  else s.

(** "Check network settings". *)
Definition check_network_settings (w : Sim.World) (pc : string)
    (s : HealthStatus) : HealthStatus :=
  match db_query w pc Sim.network_settings with
  | [] => warnings_append "Missing network settings" s
  | _ :: _ => s
  end.

(** "Check runtime log for connectivity" and "Check for errors in log",
    on the text of an existing log. *)
Definition check_log (pc log_content : string) (s : HealthStatus) : HealthStatus :=
  let s :=
    if Py.str_in "Conectado ao Master" log_content
       || Py.str_in "Autenticado com sucesso" log_content
    then set_network_connected true s
    else if negb (String.eqb pc "PC-PDV-01")
    then warnings_append "No master connection in logs"
           (set_network_connected false s)
    else s in
  if Py.str_in "ERROR" log_content || Py.str_in "FATAL" log_content
  then warnings_append "Errors found in runtime log" s
  else s.

(** "Determine final status". *)
Definition final_status (s : HealthStatus) : HealthStatus :=
  match errors s with
  | _ :: _ => set_status "ERROR" s
  | [] =>
      match warnings s with
      | _ :: _ => set_status "WARN" s
      | [] => set_status "OK" s
      end
  end.

(** The body of the [try] in [check_pc]. *)
Definition check_pc_try (w : Sim.World) (pc : string) (s : HealthStatus) : Attempt :=
  let s := set_counts (db_count w pc "employees") (db_count w pc "products")
                      (db_count w pc "sales") s in
  let s := check_employees s in
  let s := check_products s in
  let s := check_network_settings w pc s in
  match Sim.runtime_log (w pc) with
  | Sim.LogAbsent => Done (final_status s)
  | Sim.LogUnreadable err => Raised s err
  | Sim.LogText log_content => Done (final_status (check_log pc log_content s))
  end.

(** The [with self._lock:] block that ends [check_pc]. *)
Definition record_status (pc : string) (s : HealthStatus)
    (hm : HealthMonitor) : HealthMonitor := {|
  statuses := PyDict.set pc s (statuses hm);
  history :=
    PyDict.set pc
      (match PyDict.get pc (history hm) with
       | Some h => h ++ [s]
       | None => [s]
       end)
      (history hm);
  alerts :=
    match errors s with
    | _ :: _ =>
        alerts hm ++ [{| alert_time := timestamp s; alert_pc_id := pc;
                         alert_level := "ERROR"; alert_messages := errors s |}]
    | [] => alerts hm
    end
|}.

(** [HealthMonitor.check_pc]; [now] is the timestamp read on entry. *)
Definition check_pc (w : Sim.World) (now : string) (pc : string)
    (hm : HealthMonitor) : HealthMonitor * HealthStatus :=
  let s := new_status pc now in
  match Sim.db (w pc) with
  | None =>
      (hm, set_status "ERROR"
             (errors_append "Database file not found"
                (set_db_accessible false s)))
  | Some _ =>
      let s :=
        match check_pc_try w pc s with
        | Done s => s
        | Raised s err =>
            set_status "ERROR"
              (errors_append ("Health check failed: " +:+ err)
                 (set_db_accessible false s))
        end in
      (record_status pc s hm, s)
  end.

(** [HealthMonitor.check_all]; [clock pc] is the timestamp read by the
    check of [pc]. *)
Definition check_all (w : Sim.World) (clock : string -> string)
    (hm : HealthMonitor) : HealthMonitor :=
  fold_left (fun hm pc => fst (check_pc w (clock (Sim.pc_id pc)) (Sim.pc_id pc) hm))
            Sim.PC_CONFIG hm.

(** *** Sync validator *)

(** The issue dicts, by their ["type"]. *)
Inductive Issue :=
| MISSING_PRODUCT (pc_id product_id details : string)
| PRICE_MISMATCH (pc_id product_id : string) (master_price local_price : float).

Definition issue_pc (i : Issue) : string :=
  match i with
  | MISSING_PRODUCT pc _ _ => pc
  | PRICE_MISMATCH pc _ _ _ => pc
  end.

Definition issue_product (i : Issue) : string :=
  match i with
  | MISSING_PRODUCT _ p _ => p
  | PRICE_MISMATCH _ p _ _ => p
  end.

Definition is_missing (i : Issue) : bool :=
  match i with MISSING_PRODUCT _ _ _ => true | PRICE_MISMATCH _ _ _ _ => false end.

Definition is_mismatch (i : Issue) : bool := negb (is_missing i).

Record SyncValidator := {
  last_check : option string;
  inconsistencies : list Issue
}.

(** [SyncValidator()] *)
Definition new_validator : SyncValidator :=
  {| last_check := None; inconsistencies := [] |}.

(** [abs(master - local) > 0.01] *)
Definition price_differs (master_price local_price : float) : bool :=
  PrimFloat.ltb 0x1.47ae147ae147bp-7%float
    (PrimFloat.abs (PrimFloat.sub master_price local_price)).

(** [{p["id"]: p for p in db_query(pc, "SELECT ... FROM products ORDER BY id")}] *)
Definition product_dict (w : Sim.World) (pc : string) : list (string * Sim.ProductRow) :=
  PyDict.of_rows Sim.id (db_query w pc Sim.products_by_id).

(** "Check for missing products" *)
Definition missing_products (pc : string)
    (master_dict local_dict : list (string * Sim.ProductRow)) : list Issue :=
  flat_map
    (fun '(prod_id, master_prod) =>
       if PyDict.mem prod_id local_dict then []
       else [MISSING_PRODUCT pc prod_id
               ("Product " +:+ Sim.name master_prod +:+ " missing on " +:+ pc)])
    master_dict.

(** "Check for price/stock differences" *)
Definition price_mismatches (pc : string)
    (master_dict local_dict : list (string * Sim.ProductRow)) : list Issue :=
  flat_map
    (fun '(prod_id, master_prod) =>
       match PyDict.get prod_id local_dict with
       | Some local_prod =>
           if price_differs (Sim.sale_price master_prod) (Sim.sale_price local_prod)
           then [PRICE_MISMATCH pc prod_id (Sim.sale_price master_prod)
                                (Sim.sale_price local_prod)]
           else []
       | None => []
       end)
    master_dict.

(** One turn of the [for pc in PC_CONFIG] loop of [validate_products]. *)
Definition validate_pc (w : Sim.World)
    (master_dict : list (string * Sim.ProductRow)) (issues : list Issue)
    (pc : Sim.PcConfig) : list Issue :=
  if String.eqb (Sim.pc_id pc) "PC-PDV-01" then issues
  else
    let local_dict := product_dict w (Sim.pc_id pc) in
    issues ++ missing_products (Sim.pc_id pc) master_dict local_dict
           ++ price_mismatches (Sim.pc_id pc) master_dict local_dict.

(** The issues [validate_products] computes. *)
Definition product_issues (w : Sim.World) : list Issue :=
  fold_left (validate_pc w (product_dict w "PC-PDV-01")) Sim.PC_CONFIG [].

(** [SyncValidator.validate_products]; [now] is [datetime.now()]. *)
Definition validate_products (w : Sim.World) (now : string)
    (v : SyncValidator) : SyncValidator * list Issue :=
  let issues := product_issues w in
  ({| last_check := Some now; inconsistencies := issues |}, issues).

(** *** Continuous test runner *)

Record ContinuousTestRunner := {
  interval : Z;
  duration : Z;
  monitor : HealthMonitor;
  validator : SyncValidator;
  running : bool;
  cycle : Z
}.

(** [ContinuousTestRunner(interval, duration)] *)
Definition new_runner (interval duration : Z) : ContinuousTestRunner := {|
  interval := interval; duration := duration;
  monitor := new_monitor; validator := new_validator;
  running := true; cycle := 0
|}.

(** [ContinuousTestRunner.run_cycle] on the state of the fleet [w]: the
    health checks, then the sync validation. The lines it writes to the
    console and the log file, and the digest of the monitor it returns,
    read the state and change none of it. *)
Definition run_cycle (w : Sim.World) (clock : string -> string) (now : string)
    (r : ContinuousTestRunner) : ContinuousTestRunner :=
  let m := check_all w clock (monitor r) in
  let v := fst (validate_products w now (validator r)) in
  {| interval := interval r; duration := duration r;
     monitor := m; validator := v;
     running := running r; cycle := cycle r + 1 |}.

(** *** Health summary *)

Record HealthSummary := {
  hs_total : nat;
  hs_ok : nat;
  hs_warn : nat;
  hs_error : nat;
  hs_health_pct : string;
  hs_alerts : nat
}.

(** [sum(1 for s in self.statuses.values() if s.status == level)] *)
Definition count_level (level : string) (hm : HealthMonitor) : nat :=
  length (List.filter (fun s => String.eqb (status s) level)
                      (PyDict.values (statuses hm))).

(** [HealthMonitor.get_summary]; [None] when the division raises. *)
Definition get_summary (hm : HealthMonitor) : option HealthSummary :=
  let ok := count_level "OK" hm in
  let pct :=
    match statuses hm with
    | [] => Some "N/A"
    | _ :: _ =>
        match Py.int_truediv (Z.of_nat ok) (Z.of_nat (PyDict.len (statuses hm))) with
        | Some q => Some (Py.format_f 0 (PrimFloat.mul q 100%float) +:+ "%")
        | None => None
        end
    end in
  match pct with
  | Some health_pct =>
      Some {| hs_total := PyDict.len (statuses hm);
              hs_ok := ok;
              hs_warn := count_level "WARN" hm;
              hs_error := count_level "ERROR" hm;
              hs_health_pct := health_pct;
              hs_alerts := length (alerts hm) |}
  | None => None
  end.

(** *** Employee validation *)

(** The issue dict of [validate_employees]. *)
Inductive EmployeeIssue :=
| MISSING_EMPLOYEES (pc_id : string) (count : nat) (employee_ids : list string).

(** [SyncValidator.validate_employees]. [employees pc] is what the
    statements selecting the ids of the employees table yield on the
    database of [pc]; [listing] is the order in which [list(missing)]
    enumerates a set, which Python leaves open. *)
Definition validate_employees (listing : gset string -> list string)
    (w : Sim.World) (employees : string -> Sim.Sql (list string))
    : list EmployeeIssue :=
  let master_ids : gset string :=
    list_to_set (db_query w "PC-PDV-01" (fun _ => employees "PC-PDV-01")) in
  flat_map
    (fun pc =>
       if String.eqb (Sim.pc_id pc) "PC-PDV-01" then []
       else
         let local_ids : gset string :=
           list_to_set (db_query w (Sim.pc_id pc) (fun _ => employees (Sim.pc_id pc))) in
         let missing := master_ids ∖ local_ids in
         if (size missing =? 0)%nat then []
         else [MISSING_EMPLOYEES (Sim.pc_id pc) (size missing)
                                 (firstn 5 (listing missing))])
    Sim.PC_CONFIG.

(** *** The main loop *)

(** What one turn of the loop of [run] reads from outside: [time.time()]
    at the loop test, the fleet and the timestamps of the cycle, whether
    SIGINT or SIGTERM arrives between the loop test and the test
    [if self.running] that follows the cycle, and what the platform does
    with the call of [time.sleep]. *)
Record Tick := {
  tick_time : float;
  tick_world : Sim.World;
  tick_clock : string -> string;
  tick_now : string;
  tick_signal : bool;
  tick_sleep : Py.Sleep
}.

(** [_handle_signal] *)
Definition _handle_signal (r : ContinuousTestRunner) : ContinuousTestRunner :=
  {| interval := interval r; duration := duration r;
     monitor := monitor r; validator := validator r;
     running := false; cycle := cycle r |}.

(** How the loop of [run] is left: its test fails and [run] goes on to the
    final summary, or [time.sleep] raises and the exception leaves [run]. *)
Inductive Exit :=
| Stopped (r : ContinuousTestRunner)
| Aborted (error : string) (r : ContinuousTestRunner).

(** The runner as the loop leaves it. *)
Definition exit_runner (e : Exit) : ContinuousTestRunner :=
  match e with
  | Stopped r => r
  | Aborted _ r => r
  end.

(** The console-mode loop of [ContinuousTestRunner.run], for a runner
    created at [start_time]: [None] when the readings given end before the
    loop does. The loop test reads the clock only when [self.running] is
    set. *)
Fixpoint run (start_time : float) (ticks : list Tick) (r : ContinuousTestRunner)
    : option Exit :=
  if running r then
    match ticks with
    | [] => None
    | t :: rest =>
        if Py.float_lt_int (PrimFloat.sub (tick_time t) start_time) (duration r)
        then
          let r := run_cycle (tick_world t) (tick_clock t) (tick_now t) r in
          let r := if tick_signal t then _handle_signal r else r in
          if running r then
            match Py.sleep (interval r) (tick_sleep t) with
            | Py.SleepFails error => Some (Aborted error r)
            | Py.Slept signalled =>
                run start_time rest (if signalled then _handle_signal r else r)
            end
          else Some (Stopped r)
        else Some (Stopped r)
    end
  else Some (Stopped r).

End Runner.

(** ** multi_pc_test_harness.py *)

Module Harness.

(** *** Logging system *)

(** A keyword argument of a log call, as it is stored in the entry's
    [context]. *)
Inductive CtxValue :=
| CInt (n : Z)
| CStr (s : string)
| CList (l : list string).

(** [LogEntry], without the timestamp and the stack trace. *)
Record LogEntry := {
  level : string;
  category : string;
  log_pc_id : string;
  message : string;
  context : list (string * CtxValue);
  log_error : option string
}.

Record ProfessionalLogger := {
  _entries : list LogEntry;
  _error_count : Z;
  _warn_count : Z
}.

(** [ProfessionalLogger.log], on the in-memory state (the console and the
    three files receive the same entry). *)
Definition log (entry : LogEntry) (lg : ProfessionalLogger) : ProfessionalLogger := {|
  _entries := _entries lg ++ [entry];
  _error_count :=
    if String.eqb (level entry) "ERROR" || String.eqb (level entry) "FATAL"
    then _error_count lg + 1 else _error_count lg;
  _warn_count :=
    if String.eqb (level entry) "ERROR" || String.eqb (level entry) "FATAL"
    then _warn_count lg
    else if String.eqb (level entry) "WARN" then _warn_count lg + 1
    else _warn_count lg
|}.

(** [logger.debug], [logger.info], [logger.warn], [logger.error]: the
    entry each one hands to [log]. *)
Definition debug (cat pc msg : string) (ctx : list (string * CtxValue)) : LogEntry :=
  {| level := "DEBUG"; category := cat; log_pc_id := pc; message := msg;
     context := ctx; log_error := None |}.
Definition info (cat pc msg : string) (ctx : list (string * CtxValue)) : LogEntry :=
  {| level := "INFO"; category := cat; log_pc_id := pc; message := msg;
     context := ctx; log_error := None |}.
Definition warn (cat pc msg : string) (ctx : list (string * CtxValue)) : LogEntry :=
  {| level := "WARN"; category := cat; log_pc_id := pc; message := msg;
     context := ctx; log_error := None |}.
Definition error (cat pc msg : string) (err : option string)
    (ctx : list (string * CtxValue)) : LogEntry :=
  {| level := "ERROR"; category := cat; log_pc_id := pc; message := msg;
     context := ctx; log_error := err |}.

(** *** Test result tracking *)

Inductive TestStatus := PENDING | RUNNING | PASSED | FAILED | SKIPPED | ERROR.

(** [TestStatus.<member>.value] *)
Definition value (s : TestStatus) : string :=
  match s with
  | PENDING => "⏳"
  | RUNNING => "🔄"
  | PASSED => "✅"
  | FAILED => "❌"
  | SKIPPED => "⏭️"
  | ERROR => "💥"
  end.

Definition status_eqb (a b : TestStatus) : bool :=
  match a, b with
  | PENDING, PENDING | RUNNING, RUNNING | PASSED, PASSED
  | FAILED, FAILED | SKIPPED, SKIPPED | ERROR, ERROR => true
  | _, _ => false
  end.

(** [TestResult] *)
Record TestResult := {
  test_id : string;
  test_name : string;
  pc_id : string;
  test_category : string;
  status : TestStatus;
  duration_ms : float;
  assertions : Z;
  failures : list string;
  error_msg : option string;
  test_context : list (string * CtxValue)
}.

Record TestRegistry := {
  _results : list (string * TestResult);
  _start_time : float
}.

(** [TestRegistry()] created at time [now]. *)
Definition new_registry (now : float) : TestRegistry :=
  {| _results := []; _start_time := now |}.

(** [TestRegistry.register] *)
Definition register (result : TestResult) (reg : TestRegistry) : TestRegistry :=
  {| _results := PyDict.set (test_id result) result (_results reg);
     _start_time := _start_time reg |}.

Record Summary := {
  total : nat;
  passed : nat;
  failed : nat;
  errors : nat;
  pass_rate : string;
  duration_s : float;
  results : list TestResult
}.

(** [sum(1 for r in self._results.values() if r.status == st)] *)
Definition count_status (st : TestStatus) (reg : TestRegistry) : nat :=
  length (List.filter (fun r => status_eqb (status r) st) (PyDict.values (_results reg))).

(** The f-string [f"{(passed/total*100):.1f}%"]; [None] when the division
    raises. *)
Definition percent_1f (passed total : nat) : option string :=
  match Py.int_truediv (Z.of_nat passed) (Z.of_nat total) with
  | Some q => Some (Py.format_f 1 (PrimFloat.mul q 100%float) +:+ "%")
  | None => None
  end.

(** [TestRegistry.get_summary] at time [now]; [None] when it raises. *)
Definition get_summary (now : float) (reg : TestRegistry) : option Summary :=
  let total := PyDict.len (_results reg) in
  let passed := count_status PASSED reg in
  let failed := count_status FAILED reg in
  let errors := count_status ERROR reg in
  match (if (0 <? total)%nat then percent_1f passed total else Some "N/A") with
  | Some pass_rate =>
      Some {| total := total;
              passed := passed;
              failed := failed;
              errors := errors;
              pass_rate := pass_rate;
              duration_s := PrimFloat.sub now (_start_time reg);
              results := PyDict.values (_results reg) |}
  | None => None
  end.

(** *** The module globals and the writes made to them

    The checks and the framework only ever write to [logger] and
    [test_registry]. A call is therefore described by the writes it
    issues, in program order; [exec] performs them. *)

Record Globals := {
  logger : ProfessionalLogger;
  test_registry : TestRegistry
}.

Inductive Effect :=
| Log (entry : LogEntry)
| Register (result : TestResult).

Definition perform (g : Globals) (e : Effect) : Globals :=
  match e with
  | Log entry => {| logger := log entry (logger g); test_registry := test_registry g |}
  | Register result =>
      {| logger := logger g; test_registry := register result (test_registry g) |}
  end.

Definition exec (writes : list Effect) (g : Globals) : Globals :=
  fold_left perform writes g.

(** A call either comes back with a value after its writes, or never
    comes back (it blocks for ever after the writes it made). *)
Inductive Call (W A : Type) :=
| Returns (writes : list W) (a : A)
| Hangs (writes : list W).
Arguments Returns {W A} writes a.
Arguments Hangs {W A} writes.

Definition bind {W A B : Type} (c : Call W A) (k : A -> Call W B) : Call W B :=
  match c with
  | Hangs ws => Hangs ws
  | Returns ws a =>
      match k a with
      | Hangs ws' => Hangs (ws ++ ws')
      | Returns ws' b => Returns (ws ++ ws') b
      end
  end.

Definition ret {W A : Type} (a : A) : Call W A := Returns [] a.
Definition write {W : Type} (e : W) : Call W unit := Returns [e] tt.

Definition call_writes {W A : Type} (c : Call W A) : list W :=
  match c with
  | Returns ws _ => ws
  | Hangs ws => ws
  end.

Definition call_value {W A : Type} (c : Call W A) : option A :=
  match c with
  | Returns _ a => Some a
  | Hangs _ => None
  end.

(** *** Database utilities *)

Inductive Exc (A : Type) :=
| Ok (a : A)
| Raise (msg : string).
Arguments Ok {A} a.
Arguments Raise {A} msg.

(** [db_connect]: raises [FileNotFoundError] when the file is missing. *)
Definition db_connect (w : Sim.World) (pc : string) : Exc Sim.Database :=
  match Sim.db (w pc) with
  | None => Raise ("Database not found: " +:+ Sim.get_db_path pc)
  | Some d => Ok d
  end.

(** [db_query]: nothing is caught here, sqlite3's exception propagates. *)
Definition db_query {A : Type} (w : Sim.World) (pc : string)
    (q : Sim.Database -> Sim.Sql A) : Exc A :=
  match db_connect w pc with
  | Raise msg => Raise msg
  | Ok d =>
      match q d with
      | Sim.Rows rows => Ok rows
      | Sim.SqlError msg => Raise msg
      end
  end.

(** *** Test scenarios *)

(** What a check hands back to [run_test]. *)
Inductive PyValue :=
| PyList (items : list string)
| PyNotAList.

(** How a call [test_fn(pc_id)] ends when it ends: with a value, with an
    [AssertionError], or with another exception derived from [Exception]
    (interpreter exits such as [KeyboardInterrupt] are not check
    results). *)
Inductive Outcome :=
| Value (v : PyValue)
| RaisedAssertion (msg : string)
| RaisedException (msg : string).

(** A check [test_fn(pc_id)]: it writes log entries and nothing else. *)
Definition TestFn := string -> Call LogEntry Outcome.

(** The writes of a check, as writes to the globals. *)
Definition logging {A : Type} (c : Call LogEntry A) : Call Effect A :=
  match c with
  | Returns entries a => Returns (map Log entries) a
  | Hangs entries => Hangs (map Log entries)
  end.

(** The three readings [run_test] takes from outside: the hex digits of
    [uuid.uuid4()], and [time.time()] before and after the call. *)
Record Stamp := {
  uid : string;
  start : float;
  finish : float
}.

(** The [try] of [run_test]: failures, error message, status, and the
    entry logged by the [except] clause taken. *)
Definition classify (pc test_name : string) (o : Outcome)
    : list string * option string * TestStatus * list Effect :=
  match o with
  | Value (PyList (f :: fs)) => (f :: fs, None, FAILED, [])
  | Value _ => ([], None, PASSED, [])
  | RaisedAssertion e =>
      ([e], None, FAILED,
       [Log (error "TEST" pc ("Assertion failed: " +:+ test_name) (Some e) [])])
  | RaisedException e =>
      ([], Some e, ERROR,
       [Log (error "TEST" pc ("Error in test: " +:+ test_name) (Some e) [])])
  end.

(** [run_test] *)
Definition run_test (st : Stamp) (pc test_name category : string)
    (test_fn : TestFn) : Call Effect TestResult :=
  let test_id := pc +:+ "_" +:+ test_name +:+ "_" +:+ uid st in
  bind (write (Log (info "TEST" pc ("Starting: " +:+ test_name) []))) (fun _ =>
  bind (logging (test_fn pc)) (fun o =>
  let '(failures, error_msg, status, logged) := classify pc test_name o in
  let duration := PrimFloat.mul (PrimFloat.sub (finish st) (start st)) 1000%float in
  let result := {|
    test_id := test_id; test_name := test_name; pc_id := pc;
    test_category := category; status := status; duration_ms := duration;
    assertions := 0; failures := failures; error_msg := error_msg;
    test_context := []
  |} in
  Returns
    (logged ++
     [Register result;
      Log (info "TEST" pc
             (value status +:+ " " +:+ test_name +:+ " ("
                +:+ Py.format_f 0 duration +:+ "ms)") [])])
    result)).

(** [test_stock_consistency] *)
Definition test_stock_consistency (w : Sim.World) : TestFn := fun pc =>
  if String.eqb pc "PC-PDV-01" then
    match db_query w pc Sim.products_in_stock with
    | Raise msg => Returns [] (RaisedException msg)
    | Ok cnt =>
        if cnt <? 5
        then Returns [] (Value (PyList ["Insufficient products with stock"]))
        else Returns [info "SYNC" pc "✓ Master stock OK"
                        [("products_with_stock", CInt cnt)]]
                     (Value (PyList []))
    end
  else
    match db_query w "PC-PDV-01" Sim.seed_product_ids with
    | Raise msg => Returns [] (RaisedException msg)
    | Ok master_products =>
        match db_query w pc Sim.seed_product_ids with
        | Raise msg => Returns [] (RaisedException msg)
        | Ok local_products =>
            let master_ids : gset string := list_to_set master_products in
            let local_ids : gset string := list_to_set local_products in
            let missing := master_ids ∖ local_ids in
            let '(failures, logged) :=
              if (size missing =? 0)%nat then ([], [])
              else if (5 <? size missing)%nat
              then (["Missing " +:+ Py.str_int (Z.of_nat (size missing))
                       +:+ " seed products on " +:+ pc], [])
              else ([], [debug "SYNC" pc "Minor sync difference"
                         [("missing", CInt (Z.of_nat (size missing)))]]) in
            let logged_ok :=
              match failures with
              | [] => [info "SYNC" pc "✓ Stock consistency OK"
                       [("seed_products", CInt (Z.of_nat (size local_ids)))]]
              | _ :: _ => []
              end in
            Returns (logged ++ logged_ok) (Value (PyList failures))
        end
    end.

(** *** Test orchestrator *)

(** The table [SCENARIO_TESTS]: per scenario, the (name, category,
    function) triples in declared order. *)
Definition ScenarioTests := list (string * list (string * string * TestFn)).

(** The inner loops of [run_pc_tests]; [k] counts the tests already run
    and selects the readings of the next one. *)
Fixpoint run_tests (stamps : nat -> Stamp) (k : nat) (pc : string)
    (tests : list (string * string * TestFn)) : Call Effect (list TestResult) :=
  match tests with
  | [] => ret []
  | (test_name, category, test_fn) :: rest =>
      bind (run_test (stamps k) pc test_name category test_fn) (fun result =>
      bind (run_tests stamps (S k) pc rest) (fun results =>
      ret (result :: results)))
  end.

(** [run_pc_tests] *)
Definition run_pc_tests (table : ScenarioTests) (stamps : nat -> Stamp)
    (pc : string) (scenarios : list string) : Call Effect (list TestResult) :=
  let tests :=
    flat_map (fun scenario =>
                match PyDict.get scenario table with
                | Some ts => ts
                | None => []
                end) scenarios in
  bind (write (Log (info "TEST" pc "Starting test suite"
                      [("scenarios", CList scenarios)]))) (fun _ =>
  bind (run_tests stamps 0 pc tests) (fun results =>
  let passed := length (List.filter (fun r => status_eqb (status r) PASSED) results) in
  let failed :=
    length (List.filter (fun r => status_eqb (status r) FAILED
                             || status_eqb (status r) ERROR) results) in
  bind (write (Log (info "TEST" pc
                      ("Suite complete: " +:+ Py.str_int (Z.of_nat passed) +:+ "/"
                         +:+ Py.str_int (Z.of_nat (length results)) +:+ " passed")
                      [("failed", CInt (Z.of_nat failed))]))) (fun _ =>
  ret results))).

(** *** run_parallel_tests

    [ThreadPoolExecutor(max_workers)] runs the submitted batches on at most
    [max_workers] threads, taking them from its queue in submission order.
    The threads share nothing but the logger and the registry, whose
    methods each take a lock: a state of the run is the sequence of writes
    performed so far together with the progress of every batch. *)

(** A submitted batch [run_pc_tests(pc, scenarios)]: the writes its thread
    has still to perform and how the call ends ([None]: it never returns). *)
Record Task := {
  task_pc : string;
  pending : list Effect;
  ending : option (list TestResult)
}.

Definition task_of (pc : string) (c : Call Effect (list TestResult)) : Task :=
  {| task_pc := pc; pending := call_writes c; ending := call_value c |}.

Record Pool := {
  performed : list Effect;                       (* writes made so far, in order *)
  queue : list Task;                             (* submitted, not started *)
  running : list Task;                           (* one per busy thread *)
  completed : list (string * list TestResult)    (* futures that are done *)
}.

(** [run_parallel_tests] up to the point where every batch is submitted;
    [ThreadPoolExecutor] raises [ValueError] for [max_workers <= 0]. From
    there the run proceeds by [step]. No batch raises ([run_test] catches
    what a check raises), so the [except] clause of the loop over
    [as_completed] is never taken, and the loop has no timeout. *)
Definition run_parallel_tests (table : ScenarioTests)
    (stamps : string -> nat -> Stamp) (scenarios : list string)
    (max_workers : Z) : Exc Pool :=
  let first :=
    Log (info "TEST" "HARNESS" "Starting parallel test execution"
           [("pcs", CInt (Z.of_nat (length Sim.PC_CONFIG)));
            ("workers", CInt max_workers)]) in
  if max_workers <=? 0 then Raise "max_workers must be greater than 0"
  else Ok {| performed := [first];
             queue :=
               map (fun pc =>
                      task_of (Sim.pc_id pc)
                        (run_pc_tests table (stamps (Sim.pc_id pc))
                           (Sim.pc_id pc) scenarios))
                   Sim.PC_CONFIG;
             running := [];
             completed := [] |}.

(** What can happen next: an idle thread takes the next batch; a thread
    performs its next write; a thread whose batch has returned hands its
    result to the future. A thread whose batch hangs does nothing. *)
Inductive step (max_workers : Z) : Pool -> Pool -> Prop :=
| step_start p t q :
    queue p = t :: q ->
    Z.of_nat (length (running p)) < max_workers ->
    step max_workers p
      {| performed := performed p; queue := q;
         running := running p ++ [t]; completed := completed p |}
| step_write p l1 t l2 e es :
    running p = l1 ++ t :: l2 ->
    pending t = e :: es ->
    step max_workers p
      {| performed := performed p ++ [e]; queue := queue p;
         running :=
           l1 ++ {| task_pc := task_pc t; pending := es; ending := ending t |} :: l2;
         completed := completed p |}
| step_finish p l1 t l2 rs :
    running p = l1 ++ t :: l2 ->
    pending t = [] ->
    ending t = Some rs ->
    step max_workers p
      {| performed := performed p; queue := queue p;
         running := l1 ++ l2;
         completed := completed p ++ [(task_pc t, rs)] |}.

(** The states a run can be in, from the state [p0]. *)
Inductive reachable (max_workers : Z) (p0 : Pool) : Pool -> Prop :=
| reach_here : reachable max_workers p0 p0
| reach_step p p' :
    reachable max_workers p0 p -> step max_workers p p' ->
    reachable max_workers p0 p'.

(** [as_completed(futures)] has yielded every future and the [with] block
    has joined the threads: [run_parallel_tests] returns. *)
Definition returned (p : Pool) : Prop := queue p = [] /\ running p = [].

(** Nothing can happen any more. *)
Definition quiescent (max_workers : Z) (p : Pool) : Prop :=
  (queue p = [] \/ max_workers <= Z.of_nat (length (running p))) /\
  Forall (fun t => pending t = [] /\ ending t = None) (running p).

(** Where a submitted batch [t0] has got to in the state [p]: still in the
    queue; on a thread that has performed the writes [made] and has [rest]
    to go; or done, all its writes performed and its result handed over. *)
Definition tracked (t0 : Task) (p : Pool) : Prop :=
  In t0 (queue p) \/
  (exists made rest,
     pending t0 = made ++ rest /\
     In {| task_pc := task_pc t0; pending := rest; ending := ending t0 |}
        (running p) /\
     Forall (fun e => In e (performed p)) made) \/
  (exists rs,
     ending t0 = Some rs /\ In (task_pc t0, rs) (completed p) /\
     Forall (fun e => In e (performed p)) (pending t0)).

(** The number of steps the queued and running batches can still take, plus
    one for every thread that is blocked for ever. *)
Definition work_left (p : Pool) : nat :=
  list_sum (map (fun t => length (pending t) + 2)%nat (queue p)) +
  list_sum (map (fun t => length (pending t) + 1)%nat (running p)).

(** *** The other checks *)

(** [ProfessionalLogger(...)]: no entry yet. *)
Definition new_logger : ProfessionalLogger :=
  {| _entries := []; _error_count := 0; _warn_count := 0 |}.

(** The counters of [ProfessionalLogger.get_summary]. *)
Record LoggerSummary := {
  total_entries : nat;
  error_count : Z;
  warn_count : Z
}.

Definition logger_get_summary (lg : ProfessionalLogger) : LoggerSummary :=
  {| total_entries := length (_entries lg);
     error_count := _error_count lg;
     warn_count := _warn_count lg |}.

(** [db_count] with its default [where="1=1"]. *)
Definition db_count (w : Sim.World) (pc table : string) : Exc Z :=
  db_query w pc (fun d => Sim.table_count d table).

(** [next((p for p in PC_CONFIG if p["id"] == pc_id), None)] *)
Definition pc_info (pc : string) : option Sim.PcConfig :=
  List.find (fun p => String.eqb (Sim.pc_id p) pc) Sim.PC_CONFIG.

(** [test_required_data]; its settings statement selects all columns of
    the rows [Sim.network_settings] selects two columns of, and only counts
    them. *)
Definition test_required_data (w : Sim.World) : TestFn := fun pc =>
  match db_count w pc "employees" with
  | Raise msg => Returns [] (RaisedException msg)
  | Ok emp_count =>
  match db_count w pc "categories" with
  | Raise msg => Returns [] (RaisedException msg)
  | Ok cat_count =>
  match db_count w pc "products" with
  | Raise msg => Returns [] (RaisedException msg)
  | Ok prod_count =>
  match db_query w pc Sim.network_settings with
  | Raise msg => Returns [] (RaisedException msg)
  | Ok net =>
      let failures :=
        (if emp_count <? 3
         then ["Insufficient employees: " +:+ Py.str_int emp_count +:+ " (min 3)"]
         else [])
        ++ (if cat_count <? 5
            then ["Insufficient categories: " +:+ Py.str_int cat_count +:+ " (min 5)"]
            else [])
        ++ (if prod_count <? 10
            then ["Insufficient products: " +:+ Py.str_int prod_count +:+ " (min 10)"]
            else [])
        ++ (if (length net <? 2)%nat
            then ["Missing network settings: " +:+ Py.str_int (Z.of_nat (length net))]
            else []) in
      Returns
        (match failures with
         | [] => [info "DATABASE" pc "✓ Required data present"
                    [("employees", CInt emp_count); ("products", CInt prod_count)]]
         | _ :: _ => []
         end)
        (Value (PyList failures))
  end end end end.

(** [test_network_config]. [got] is [role] as an f-string prints it; the
    entry that carries [role] is only logged when there is no failure, and
    then [role] is a string. *)
Definition test_network_config (w : Sim.World) : TestFn := fun pc =>
  match db_query w pc Sim.network_settings with
  | Raise msg => Returns [] (RaisedException msg)
  | Ok settings =>
      let settings_dict :=
        fold_left (fun d s => PyDict.set (fst s) (snd s) d) settings [] in
      let role := PyDict.get "network.role" settings_dict in
      let got := match role with Some r => r | None => "None" end in
      match pc_info pc with
      | None => Returns [] (RaisedException "'NoneType' object is not subscriptable")
      | Some info_ =>
          let '(failures, logged) :=
            if String.eqb (Sim.pc_role info_) "MASTER" then
              (match role with
               | Some r =>
                   if String.eqb r "MASTER" then []
                   else ["Master PC should have role=MASTER, got " +:+ got]
               | None => ["Master PC should have role=MASTER, got " +:+ got]
               end, [])
            else
              (match role with
               | Some r =>
                   if String.eqb r "SATELLITE" || String.eqb r "CLIENT" then []
                   else ["Satellite PC should have role=SATELLITE, got " +:+ got]
               | None => ["Satellite PC should have role=SATELLITE, got " +:+ got]
               end,
               match PyDict.get "network.master_ip" settings_dict with
               | Some (String _ _) => []
               | _ => [debug "NETWORK" pc "Using mDNS discovery or static config" []]
               end) in
          Returns
            (logged ++
             match failures with
             | [] => [info "NETWORK" pc "✓ Network config OK" [("role", CStr got)]]
             | _ :: _ => []
             end)
            (Value (PyList failures))
      end
  end.

(** [test_master_connectivity] *)
Definition test_master_connectivity (w : Sim.World) : TestFn := fun pc =>
  match pc_info pc with
  | None => Returns [] (RaisedException "'NoneType' object is not subscriptable")
  | Some info_ =>
      if String.eqb (Sim.pc_role info_) "MASTER" then Returns [] (Value (PyList []))
      else
        match Sim.runtime_log (w pc) with
        | Sim.LogAbsent => Returns [] (Value (PyList ["Runtime log not found"]))
        | Sim.LogUnreadable err => Returns [] (RaisedException err)
        | Sim.LogText log_content =>
            if Py.str_in "Conectado ao Master" log_content
               || Py.str_in "Autenticado com sucesso" log_content
            then Returns [info "NETWORK" pc "✓ Connected to Master" []]
                         (Value (PyList []))
            else Returns [] (Value (PyList ["No successful master connection in logs"]))
        end
  end.

(** [test_product_sync_master_to_satellite] *)
Definition test_product_sync_master_to_satellite (w : Sim.World) : TestFn := fun pc =>
  if String.eqb pc "PC-PDV-01" then
    match db_count w pc "products" with
    | Raise msg => Returns [] (RaisedException msg)
    | Ok cnt =>
        if cnt <? 10
        then Returns []
               (Value (PyList ["Master has insufficient products: " +:+ Py.str_int cnt]))
        else Returns [info "SYNC" pc "✓ Master products OK" [("count", CInt cnt)]]
                     (Value (PyList []))
    end
  else
    match db_count w "PC-PDV-01" "products" with
    | Raise msg => Returns [] (RaisedException msg)
    | Ok master_count =>
    match db_count w pc "products" with
    | Raise msg => Returns [] (RaisedException msg)
    | Ok local_count =>
        let '(failures, logged) :=
          if 5 <? Z.abs (master_count - local_count)
          then (["Product count mismatch: master=" +:+ Py.str_int master_count
                   +:+ ", local=" +:+ Py.str_int local_count], [])
          else ([], [info "SYNC" pc "✓ Product sync OK"
                       [("master", CInt master_count); ("local", CInt local_count)]]) in
        match db_count w pc "sync_pending" with
        | Raise msg => Returns logged (RaisedException msg)
        | Ok pending =>
            Returns
              (logged ++
               if 100 <? pending
               then [warn "SYNC" pc "High pending sync count" [("pending", CInt pending)]]
               else [])
              (Value (PyList failures))
        end
    end end.

(** *** Reports *)

(** The tests [print_summary] lists under "FAILED TESTS". *)
Definition failed_tests (reg : TestRegistry) : list TestResult :=
  List.filter (fun r => status_eqb (status r) FAILED || status_eqb (status r) ERROR)
              (PyDict.values (_results reg)).

(** The argument of [sys.exit] at the end of [main]. *)
Definition exit_code (summary : Summary) : Z :=
  if (failed summary =? 0)%nat && (errors summary =? 0)%nat then 0 else 1.

End Harness.

(** ** Fleet states used as concrete inputs *)

Module Fixture.

Definition row (id name : string) (price : float) : Sim.ProductRow :=
  {| Sim.id := id; Sim.name := name; Sim.sale_price := price;
     Sim.current_stock := 10%float |}.

(** A database with the given employee and sale counts and product rows. *)
Definition database (employees sales : Z) (rows : list Sim.ProductRow)
    : Sim.Database := {|
  Sim.table_count := fun table =>
    if String.eqb table "employees" then Sim.Rows employees
    else if String.eqb table "products" then Sim.Rows (Z.of_nat (length rows))
    else if String.eqb table "sales" then Sim.Rows sales
    else Sim.SqlError ("no such table: " +:+ table);
  Sim.network_settings := Sim.Rows [("network.role", "SATELLITE")];
  Sim.products_by_id := Sim.Rows rows;
  Sim.products_in_stock := Sim.Rows (Z.of_nat (length rows));
  Sim.seed_product_ids :=
    Sim.Rows (List.filter (String.prefix "prod-") (map Sim.id rows))
|}.

(** No node has been started: no database, no log. *)
Definition offline : Sim.World := fun _ =>
  {| Sim.db := None; Sim.runtime_log := Sim.LogAbsent |}.

(** Only [PC-PDV-02] is up, and its employees table is empty. *)
Definition no_employees : Sim.World := fun pc =>
  if String.eqb pc "PC-PDV-02"
  then {| Sim.db := Some (database 0 0 []); Sim.runtime_log := Sim.LogAbsent |}
  else {| Sim.db := None; Sim.runtime_log := Sim.LogAbsent |}.

Definition products_ABC : list Sim.ProductRow :=
  [row "A" "Oil filter" 25.5%float; row "B" "Brake pad" 120%float;
   row "C" "Spark plug" 18.75%float].

Definition products_AB : list Sim.ProductRow :=
  [row "A" "Oil filter" 25.5%float; row "B" "Brake pad" 120%float].

(** The master holds products A, B, C; every satellite holds A and B with
    the master's prices. *)
Definition lagging : Sim.World := fun pc =>
  if String.eqb pc "PC-PDV-01"
  then {| Sim.db := Some (database 5 0 products_ABC); Sim.runtime_log := Sim.LogAbsent |}
  else {| Sim.db := Some (database 5 0 products_AB); Sim.runtime_log := Sim.LogAbsent |}.

(** As [lagging], but [PC-PDV-02] sells B at another price. *)
Definition mispriced : Sim.World := fun pc =>
  if String.eqb pc "PC-PDV-02"
  then {| Sim.db := Some (database 5 0 [row "A" "Oil filter" 25.5%float;
                                        row "B" "Brake pad" 99.5%float]);
          Sim.runtime_log := Sim.LogAbsent |}
  else lagging pc.

(** The master holds three seed products; every satellite lacks the third. *)
Definition seed_lagging : Sim.World := fun pc =>
  if String.eqb pc "PC-PDV-01"
  then {| Sim.db := Some (database 5 0 [row "prod-001" "Oil filter" 25.5%float;
                                        row "prod-002" "Brake pad" 120%float;
                                        row "prod-003" "Spark plug" 18.75%float]);
          Sim.runtime_log := Sim.LogAbsent |}
  else {| Sim.db := Some (database 5 0 [row "prod-001" "Oil filter" 25.5%float;
                                        row "prod-002" "Brake pad" 120%float]);
          Sim.runtime_log := Sim.LogAbsent |}.

(** A registered result with the given id and status. *)
Definition result (id : string) (st : Harness.TestStatus) : Harness.TestResult := {|
  Harness.test_id := id; Harness.test_name := "test_required_data";
  Harness.pc_id := "PC-ADM"; Harness.test_category := "DATABASE";
  Harness.status := st; Harness.duration_ms := 12%float;
  Harness.assertions := 0;
  Harness.failures :=
    match st with
    | Harness.FAILED => ["Insufficient employees: 1 (min 3)"]
    | _ => []
    end;
  Harness.error_msg :=
    match st with
    | Harness.ERROR => Some "no such table: settings"
    | _ => None
    end;
  Harness.test_context := []
|}.

(** A registry holding ten results: seven passed, two failed, one errored. *)
Definition ten_results : Harness.TestRegistry :=
  fold_left (fun reg r => Harness.register r reg)
    [result "r0" Harness.PASSED; result "r1" Harness.FAILED;
     result "r2" Harness.PASSED; result "r3" Harness.PASSED;
     result "r4" Harness.ERROR; result "r5" Harness.PASSED;
     result "r6" Harness.PASSED; result "r7" Harness.FAILED;
     result "r8" Harness.PASSED; result "r9" Harness.PASSED]
    (Harness.new_registry 0%float).

(** A check that passes on every node. *)
Definition passing_check : Harness.TestFn := fun _ =>
  Harness.Returns [] (Harness.Value (Harness.PyList [])).

(** A check that reports one failure on every node. *)
Definition failing_check : Harness.TestFn := fun _ =>
  Harness.Returns [] (Harness.Value (Harness.PyList ["Insufficient employees: 1 (min 3)"])).

(** Readings for one run of a check: 250 ms between the two clock reads. *)
Definition stamp : Harness.Stamp :=
  {| Harness.uid := "1a2b3c4d"; Harness.start := 100%float;
     Harness.finish := 100.25%float |}.

(** Readings of a wall clock that is set back by one second while the
    check runs. *)
Definition clock_set_back : Harness.Stamp :=
  {| Harness.uid := "1a2b3c4d"; Harness.start := 100%float;
     Harness.finish := 99%float |}.

(** A check that never returns on [PC-GER] and passes elsewhere. *)
Definition hangs_on_ger : Harness.TestFn := fun pc =>
  if String.eqb pc "PC-GER" then Harness.Hangs []
  else Harness.Returns [] (Harness.Value (Harness.PyList [])).

(** A scenario table with that single check. *)
Definition hanging_table : Harness.ScenarioTests :=
  [("database", [("test_database_integrity", "DATABASE", hangs_on_ger)])].

(** A clock for the health checks of one cycle. *)
Definition clock (cycle : string) : string -> string := fun pc => cycle +:+ "/" +:+ pc.

(** [PC-PDV-02] is up but its runtime log cannot be read. *)
Definition unreadable_log : Sim.World := fun pc =>
  if String.eqb pc "PC-PDV-02"
  then {| Sim.db := Some (database 5 0 products_AB);
          Sim.runtime_log := Sim.LogUnreadable "[Errno 13] Permission denied" |}
  else {| Sim.db := None; Sim.runtime_log := Sim.LogAbsent |}.

(** Every node is up with twelve products; the log of [PC-PDV-02] shows
    the authentication with the master, the other logs show nothing. *)
Definition twelve_products : list Sim.ProductRow :=
  map (fun k => row ("prod-0" +:+ k) "Part" 10%float)
      ["01"; "02"; "03"; "04"; "05"; "06"; "07"; "08"; "09"; "10"; "11"; "12"].

Definition connected : Sim.World := fun pc =>
  {| Sim.db := Some (database 5 0 twelve_products);
     Sim.runtime_log :=
       if String.eqb pc "PC-PDV-02"
       then Sim.LogText "INFO Autenticado com sucesso"
       else Sim.LogText "INFO starting" |}.

(** Employee ids per node: the master has eight, [PC-PDV-02] has the first
    two of them, the other nodes have them all. *)
Definition employee_ids : string -> Sim.Sql (list string) := fun pc =>
  if String.eqb pc "PC-PDV-02" then Sim.Rows ["emp-1"; "emp-2"]
  else Sim.Rows ["emp-1"; "emp-2"; "emp-3"; "emp-4"; "emp-5"; "emp-6"; "emp-7"; "emp-8"].

(** A seeded node: five employees, six categories, the given number of
    products, an empty sync queue, and its role among the network
    settings. *)
Definition seeded (role : string) (products : Z) : Sim.Database := {|
  Sim.table_count := fun table =>
    if String.eqb table "employees" then Sim.Rows 5
    else if String.eqb table "categories" then Sim.Rows 6
    else if String.eqb table "products" then Sim.Rows products
    else if String.eqb table "sales" then Sim.Rows 0
    else if String.eqb table "sync_pending" then Sim.Rows 0
    else Sim.SqlError ("no such table: " +:+ table);
  Sim.network_settings :=
    Sim.Rows [("network.role", role); ("network.master_ip", "192.168.0.10")];
  Sim.products_by_id := Sim.Rows twelve_products;
  Sim.products_in_stock := Sim.Rows products;
  Sim.seed_product_ids := Sim.Rows (map Sim.id twelve_products)
|}.

(** A seeded fleet: twelve products on the master, twenty on [PC-ESTQ],
    twelve elsewhere; only [PC-PDV-02] has authenticated. *)
Definition fleet : Sim.World := fun pc =>
  {| Sim.db :=
       Some (if String.eqb pc "PC-PDV-01" then seeded "MASTER" 12
             else if String.eqb pc "PC-ESTQ" then seeded "SATELLITE" 20
             else seeded "SATELLITE" 12);
     Sim.runtime_log :=
       if String.eqb pc "PC-PDV-02"
       then Sim.LogText "INFO Autenticado com sucesso"
       else if String.eqb pc "PC-GER" then Sim.LogAbsent
       else Sim.LogText "INFO starting" |}.

(** The scenario table restricted to the two read-only checks of the
    datasets of [fleet]. *)
Definition data_table : Harness.ScenarioTests :=
  [("database", [("test_required_data", "DATABASE", Harness.test_required_data fleet)]);
   ("network", [("test_network_config", "NETWORK", Harness.test_network_config fleet)])].

End Fixture.

(** * Properties *)

(** ** Dictionaries *)

Section PyDictFacts.
Context {V : Type}.
Implicit Types (d : list (string * V)) (k : string) (v : V).

Lemma get_set_same k v d : PyDict.get k (PyDict.set k v d) = Some v.
Proof.
  induction d as [|[k' v'] d IH]; simpl.
  - by rewrite String.eqb_refl.
  - destruct (String.eqb k' k) eqn:E; simpl; rewrite E; auto.
Qed.

Lemma get_set_other k k' v d :
  k <> k' -> PyDict.get k' (PyDict.set k v d) = PyDict.get k' d.
Proof.
  intros Hne. induction d as [|[k0 v0] d IH]; simpl.
  - destruct (String.eqb k k') eqn:E; [|done].
    apply String.eqb_eq in E. contradiction.
  - destruct (String.eqb k0 k) eqn:E; simpl.
    + apply String.eqb_eq in E. subst k0.
      destruct (String.eqb k k') eqn:E'; [|done].
      apply String.eqb_eq in E'. contradiction.
    + by rewrite IH.
Qed.

Lemma keys_set_present k v d :
  PyDict.mem k d = true -> PyDict.keys (PyDict.set k v d) = PyDict.keys d.
Proof.
  unfold PyDict.mem, PyDict.keys.
  induction d as [|[k0 v0] d IH]; simpl; [done|].
  destruct (String.eqb k0 k) eqn:E; simpl; [done|].
  intros H. by rewrite IH.
Qed.

Lemma keys_set_absent k v d :
  PyDict.mem k d = false -> PyDict.keys (PyDict.set k v d) = PyDict.keys d ++ [k].
Proof.
  unfold PyDict.mem, PyDict.keys.
  induction d as [|[k0 v0] d IH]; simpl; [done|].
  destruct (String.eqb k0 k) eqn:E; simpl; [done|].
  intros H. by rewrite IH.
Qed.

Lemma get_Some_In k v d : PyDict.get k d = Some v -> In (k, v) d.
Proof.
  induction d as [|[k0 v0] d IH]; simpl; [done|].
  destruct (String.eqb k0 k) eqn:E.
  - apply String.eqb_eq in E. intros [= ->]. left. by subst.
  - intros H. right. auto.
Qed.

Lemma In_get_Some k v d :
  NoDup (PyDict.keys d) -> In (k, v) d -> PyDict.get k d = Some v.
Proof.
  unfold PyDict.keys.
  induction d as [|[k0 v0] d IH]; simpl; [done|].
  intros Hnd [Heq|Hin].
  - injection Heq as -> ->. by rewrite String.eqb_refl.
  - apply NoDup_cons in Hnd as [Hk0 Hnd].
    destruct (String.eqb k0 k) eqn:E; [|auto].
    apply String.eqb_eq in E. subst k0. exfalso. apply Hk0.
    apply list_elem_of_In. apply (in_map fst) in Hin. exact Hin.
Qed.
End PyDictFacts.

(** ** Health monitor *)

Section HealthFacts.
Import Runner.

Lemma final_status_level (s : HealthStatus) :
  errors (final_status s) = errors s /\
  warnings (final_status s) = warnings s /\
  status (final_status s) =
    match errors s, warnings s with
    | _ :: _, _ => "ERROR"
    | [], _ :: _ => "WARN"
    | [], [] => "OK"
    end.
Proof.
  unfold final_status.
  destruct (errors s) eqn:He; destruct (warnings s) eqn:Hw; simpl; auto.
Qed.

Lemma check_pc_missing_db (w : Sim.World) now pc hm :
  Sim.db (w pc) = None ->
  check_pc w now pc hm =
    (hm, {| pc_id := pc; timestamp := now; status := "ERROR";
            db_accessible := false;
            employee_count := 0; product_count := 0; sale_count := 0;
            network_connected := true; last_sync_time := None;
            errors := ["Database file not found"]; warnings := [] |}).
Proof. intros H. unfold check_pc. by rewrite H. Qed.

Lemma check_pc_present_db (w : Sim.World) now pc hm d :
  Sim.db (w pc) = Some d ->
  fst (check_pc w now pc hm) = record_status pc (snd (check_pc w now pc hm)) hm.
Proof. intros H. unfold check_pc. by rewrite H. Qed.

End HealthFacts.

(** C1: every HealthStatus that [check_pc] produces, on the normal path, on
    the missing-dataset path and on the internal-exception path, has
    status "ERROR" exactly when its errors list is non-empty, status "WARN"
    exactly when its errors list is empty and its warnings list is not, and
    status "OK" otherwise. *)
Theorem health_level_invariant (w : Sim.World) (now pc : string)
    (hm : Runner.HealthMonitor) :
  let s := snd (Runner.check_pc w now pc hm) in
  (Runner.status s = "ERROR" <-> Runner.errors s <> []) /\
  (Runner.status s = "WARN" <->
     Runner.errors s = [] /\ Runner.warnings s <> []) /\
  (Runner.errors s = [] -> Runner.warnings s = [] -> Runner.status s = "OK").
Proof.
  unfold Runner.check_pc.
  destruct (Sim.db (w pc)) as [d|]; simpl.
  2: { repeat split; try done; intros [? ?]; done. }
  destruct (Runner.check_pc_try w pc (Runner.new_status pc now)) as [s|s err] eqn:Htry.
  - assert (exists s0, s = Runner.final_status s0) as [s0 ->].
    { unfold Runner.check_pc_try in Htry.
      destruct (Sim.runtime_log (w pc)); inversion Htry; eauto. }
    destruct (final_status_level s0) as (-> & -> & ->).
    destruct (Runner.errors s0), (Runner.warnings s0);
      repeat split; try done; intros [? ?]; done.
  - simpl. repeat split; try done.
    + intros _ H. by apply app_eq_nil in H as [_ ?].
    + intros [H _]. by apply app_eq_nil in H as [_ ?].
    + intros H. by apply app_eq_nil in H as [_ ?].
Qed.

(** C4: a node whose dataset does not exist yet is read without any
    exception: every query returns the empty result and every count is 0;
    its health check returns a status with [db_accessible = false], the
    single error "Database file not found", no warning, and the three
    counts left at their default, whatever the log and the rest of the fleet
    contain (no further check runs). *)
Theorem missing_dataset_unavailable (w : Sim.World) (now pc : string)
    (hm : Runner.HealthMonitor) :
  Sim.db (w pc) = None ->
  (forall (A : Type) (q : Sim.Database -> Sim.Sql (list A)),
      Runner.db_query w pc q = []) /\
  (forall table, Runner.db_count w pc table = 0) /\
  snd (Runner.check_pc w now pc hm) =
    {| Runner.pc_id := pc; Runner.timestamp := now; Runner.status := "ERROR";
       Runner.db_accessible := false;
       Runner.employee_count := 0; Runner.product_count := 0;
       Runner.sale_count := 0;
       Runner.network_connected := true; Runner.last_sync_time := None;
       Runner.errors := ["Database file not found"]; Runner.warnings := [] |}.
Proof.
  intros Hdb. split; [|split].
  - intros A q. unfold Runner.db_query. by rewrite Hdb.
  - intros table. unfold Runner.db_count, Runner.db_query. by rewrite Hdb.
  - by rewrite check_pc_missing_db.
Qed.

Lemma missing_dataset_unavailable_witness :
  Sim.db (Fixture.offline "PC-PDV-02") = None /\
  Runner.errors
    (snd (Runner.check_pc Fixture.offline "t0" "PC-PDV-02" Runner.new_monitor))
  = ["Database file not found"].
Proof.
  split; [reflexivity|].
  pose proof (missing_dataset_unavailable Fixture.offline "t0" "PC-PDV-02"
                Runner.new_monitor eq_refl) as (_ & _ & H).
  rewrite H. reflexivity.
Defined.

Section MonitorFacts.
Import Runner.

(** The checks never touch the identity of the status object. *)
Local Abbreviation same_identity s s' :=
  (timestamp s' = timestamp s /\ pc_id s' = pc_id s).












(** When the dataset file exists the status is appended to the node's
    history and the other histories are left as they are. *)
Lemma check_pc_history_append w now pc hm d :
  Sim.db (w pc) = Some d ->
  PyDict.get pc (history (fst (check_pc w now pc hm))) =
    Some (match PyDict.get pc (history hm) with
          | Some h => h
          | None => []
          end ++ [snd (check_pc w now pc hm)]) /\
  (forall pc', pc <> pc' ->
     PyDict.get pc' (history (fst (check_pc w now pc hm))) =
     PyDict.get pc' (history hm)).
Proof.
  intros Hdb. rewrite (check_pc_present_db _ _ _ _ _ Hdb).
  unfold record_status; simpl. split.
  - rewrite get_set_same. by destruct (PyDict.get pc (history hm)).
  - intros pc' Hne. by apply get_set_other.
Qed.

End MonitorFacts.




(** C8 (the code at the failing input): a cycle over a fleet whose dataset
    files do not exist records nothing, neither a current status nor a
    history entry, for any node. *)
Theorem missing_dataset_not_recorded :
  let r := (Runner.run_cycle Fixture.offline (Fixture.clock "c1") "t1"
                  (Runner.new_runner 30 3600)) in
  Runner.cycle r = 1 /\
  Runner.history (Runner.monitor r) = [] /\
  Runner.statuses (Runner.monitor r) = [] /\
  Runner.errors (snd (Runner.check_pc Fixture.offline "t1" "PC-PDV-02"
                        Runner.new_monitor)) = ["Database file not found"].
Proof. vm_compute. repeat split. Qed.

(** ** Dictionaries built from rows *)

Section OfRowsFacts.
Context {V : Type} (key : V -> string).
Implicit Types (d : list (string * V)) (rows : list V).

Lemma mem_true_keys k d : PyDict.mem k d = true <-> In k (PyDict.keys d).
Proof.
  unfold PyDict.mem, PyDict.keys.
  induction d as [|[k0 v0] d IH]; simpl; [split; [done|tauto]|].
  destruct (String.eqb k0 k) eqn:E.
  - apply String.eqb_eq in E. split; auto.
  - apply String.eqb_neq in E. rewrite IH. split; [auto|]. intros [?|?]; done.
Qed.

Lemma mem_false_keys k d : PyDict.mem k d = false <-> ~ In k (PyDict.keys d).
Proof.
  rewrite <- mem_true_keys.
  destruct (PyDict.mem k d); split; try done; intros H; by destruct H.
Qed.

Lemma keys_set_NoDup k (v : V) d :
  NoDup (PyDict.keys d) -> NoDup (PyDict.keys (PyDict.set k v d)).
Proof.
  intros Hnd. destruct (PyDict.mem k d) eqn:E.
  - by rewrite keys_set_present.
  - rewrite keys_set_absent by done. apply NoDup_app. split; [done|].
    split; [|apply NoDup_singleton].
    intros x Hx Hk. apply list_elem_of_singleton in Hk. subst x.
    apply mem_false_keys in E. apply E. by apply list_elem_of_In.
Qed.

Lemma keys_set_In k k' (v : V) d :
  In k' (PyDict.keys (PyDict.set k v d)) <-> k' = k \/ In k' (PyDict.keys d).
Proof.
  destruct (PyDict.mem k d) eqn:E.
  - rewrite keys_set_present by done. apply mem_true_keys in E.
    split; [auto|]. intros [->|?]; done.
  - rewrite keys_set_absent by done. rewrite in_app_iff. simpl.
    split; [intros [?|[?|?]]|intros [?|?]]; auto; done.
Qed.

(** Invariant of the dict comprehension, for any starting dict. *)
Lemma fold_set_spec rows : forall d,
  (forall k v, PyDict.get k d = Some v -> key v = k) ->
  NoDup (PyDict.keys d) ->
  let d' := fold_left (fun d r => PyDict.set (key r) r d) rows d in
  NoDup (PyDict.keys d') /\
  (forall k, In k (PyDict.keys d') <-> In k (PyDict.keys d) \/ In k (map key rows)) /\
  (forall k v, PyDict.get k d' = Some v ->
      key v = k /\ (In v rows \/ PyDict.get k d = Some v)).
Proof.
  induction rows as [|r rows IH]; intros d Hkey Hnd; simpl.
  - split; [done|]. split; [intros k; simpl; tauto|].
    intros k v Hg. split; [by apply Hkey|by right].
  - destruct (IH (PyDict.set (key r) r d)) as (Hnd' & Hkeys & Hget).
    + intros k v. destruct (String.eqb (key r) k) eqn:E.
      * apply String.eqb_eq in E. subst k. rewrite get_set_same. by intros [= <-].
      * apply String.eqb_neq in E. rewrite get_set_other by done. apply Hkey.
    + by apply keys_set_NoDup.
    + split; [done|]. split.
      * intros k. rewrite Hkeys, keys_set_In. split.
        -- intros [[->|H]|H]; auto.
        -- intros [H|[<-|H]]; auto.
      * intros k v Hg. apply Hget in Hg as [Hk [Hin|Hg]]; split; auto.
        destruct (String.eqb (key r) k) eqn:E.
        -- apply String.eqb_eq in E. rewrite <- E in Hg.
           rewrite get_set_same in Hg. injection Hg as <-. auto.
        -- apply String.eqb_neq in E. rewrite get_set_other in Hg by done. auto.
Qed.

Lemma of_rows_NoDup rows : NoDup (PyDict.keys (PyDict.of_rows key rows)).
Proof.
  unfold PyDict.of_rows.
  destruct (fold_set_spec rows []) as (H & _); [done|apply NoDup_nil_2|done].
Qed.



Lemma of_rows_In rows k v :
  In (k, v) (PyDict.of_rows key rows) <-> PyDict.get k (PyDict.of_rows key rows) = Some v.
Proof.
  split; [apply In_get_Some, of_rows_NoDup|apply get_Some_In].
Qed.
End OfRowsFacts.

(** ** Lists *)

Lemma filter_none {A : Type} (f : A -> bool) (l : list A) :
  (forall x, In x l -> f x = false) -> List.filter f l = [].
Proof.
  intros H. rewrite (List.filter_ext_in f (fun _ => false) l H).
  apply List.filter_false.
Qed.

Lemma flat_map_none {A B : Type} (f : A -> list B) (l : list A) :
  (forall x, In x l -> f x = []) -> flat_map f l = [].
Proof.
  induction l as [|x l IH]; intros H; simpl; [done|].
  rewrite H, IH; [done| |by left]. intros y Hy. apply H. by right.
Qed.

(** ** Sync validator *)

Section ValidatorFacts.
Import Runner.

(** The findings of one turn of the loop over the roster. *)
Local Abbreviation findings w md pc :=
  (if String.eqb (Sim.pc_id pc) "PC-PDV-01" then []
   else missing_products (Sim.pc_id pc) md (product_dict w (Sim.pc_id pc))
        ++ price_mismatches (Sim.pc_id pc) md (product_dict w (Sim.pc_id pc))).

Lemma fold_validate_pc w md pcs : forall acc,
  fold_left (validate_pc w md) pcs acc = acc ++ flat_map (fun pc => findings w md pc) pcs.
Proof.
  induction pcs as [|pc pcs IH]; intros acc; simpl.
  - by rewrite app_nil_r.
  - rewrite IH. unfold validate_pc.
    destruct (String.eqb (Sim.pc_id pc) "PC-PDV-01"); simpl; [done|].
    by rewrite <- !app_assoc.
Qed.

Lemma product_issues_flat w :
  product_issues w =
  flat_map (fun pc => findings w (product_dict w "PC-PDV-01") pc) Sim.PC_CONFIG.
Proof. unfold product_issues. by rewrite fold_validate_pc. Qed.

Lemma missing_products_In pc md ld i :
  In i (missing_products pc md ld) <->
  exists pid m, In (pid, m) md /\ PyDict.mem pid ld = false /\
    i = MISSING_PRODUCT pc pid ("Product " +:+ Sim.name m +:+ " missing on " +:+ pc).
Proof.
  unfold missing_products. rewrite in_flat_map. split.
  - intros [[pid m] [Hin Hi]]. destruct (PyDict.mem pid ld) eqn:E; [done|].
    destruct Hi as [<-|[]]. eauto.
  - intros (pid & m & Hin & Hmem & ->). exists (pid, m). split; [done|].
    rewrite Hmem. by left.
Qed.

Lemma price_mismatches_In pc md ld i :
  In i (price_mismatches pc md ld) <->
  exists pid m l, In (pid, m) md /\ PyDict.get pid ld = Some l /\
    price_differs (Sim.sale_price m) (Sim.sale_price l) = true /\
    i = PRICE_MISMATCH pc pid (Sim.sale_price m) (Sim.sale_price l).
Proof.
  unfold price_mismatches. rewrite in_flat_map. split.
  - intros [[pid m] [Hin Hi]]. destruct (PyDict.get pid ld) as [l|] eqn:E; [|done].
    destruct (price_differs _ _) eqn:Hd; [|done].
    destruct Hi as [<-|[]]. eauto 10.
  - intros (pid & m & l & Hin & Hget & Hd & ->). exists (pid, m). split; [done|].
    rewrite Hget, Hd. by left.
Qed.

Lemma findings_pc w md pc i : In i (findings w md pc) -> issue_pc i = Sim.pc_id pc.
Proof.
  destruct (String.eqb (Sim.pc_id pc) "PC-PDV-01"); [done|].
  rewrite in_app_iff, missing_products_In, price_mismatches_In.
  intros [(? & ? & _ & _ & ->)|(? & ? & ? & _ & _ & _ & ->)]; done.
Qed.

(** Every finding is attributed to a satellite of the roster. *)
Lemma product_issues_In w i :
  In i (product_issues w) <->
  exists pc, In pc Sim.PC_CONFIG /\ Sim.pc_id pc <> "PC-PDV-01" /\
    (In i (missing_products (Sim.pc_id pc) (product_dict w "PC-PDV-01")
             (product_dict w (Sim.pc_id pc))) \/
     In i (price_mismatches (Sim.pc_id pc) (product_dict w "PC-PDV-01")
             (product_dict w (Sim.pc_id pc)))).
Proof.
  rewrite product_issues_flat, in_flat_map. split.
  - intros (pc & Hpc & Hi). exists pc. split; [done|].
    destruct (String.eqb (Sim.pc_id pc) "PC-PDV-01") eqn:E; [done|].
    apply String.eqb_neq in E. split; [done|]. by apply in_app_iff.
  - intros (pc & Hpc & Hne & Hi). exists pc. split; [done|].
    apply String.eqb_neq in Hne. rewrite Hne. by apply in_app_iff.
Qed.

Lemma roster_ids_distinct : NoDup (map Sim.pc_id Sim.PC_CONFIG).
Proof. apply NoDup_ListNoDup. repeat constructor; simpl; intuition discriminate. Qed.

(** The findings about one satellite are those of its own turn. *)
Lemma filter_findings w md peer pcs :
  NoDup (map Sim.pc_id pcs) ->
  In peer pcs ->
  List.filter (fun i => String.eqb (issue_pc i) (Sim.pc_id peer))
    (flat_map (fun pc => findings w md pc) pcs)
  = findings w md peer.
Proof.
  assert (forall pc, Sim.pc_id pc <> Sim.pc_id peer ->
            List.filter (fun i => String.eqb (issue_pc i) (Sim.pc_id peer))
              (findings w md pc) = []) as Hother.
  { intros pc Hne. apply filter_none. intros i Hi.
    apply findings_pc in Hi. rewrite Hi. by apply String.eqb_neq. }
  assert (List.filter (fun i => String.eqb (issue_pc i) (Sim.pc_id peer))
            (findings w md peer) = findings w md peer) as Hself.
  { apply List.forallb_filter_id. apply forallb_forall. intros i Hi.
    apply findings_pc in Hi. rewrite Hi. apply String.eqb_refl. }
  induction pcs as [|pc pcs IH]; [done|].
  intros Hnd. apply NoDup_cons in Hnd as [Hpc Hnd].
  cbn [flat_map]. rewrite List.filter_app. intros [->|Hin].
  - rewrite Hself.
    assert (List.filter (fun i => String.eqb (issue_pc i) (Sim.pc_id peer))
              (flat_map (fun pc => findings w md pc) pcs) = []) as ->;
      [|by rewrite app_nil_r].
    apply filter_none. intros i Hi.
    apply in_flat_map in Hi as (pc & Hin & Hi). apply findings_pc in Hi.
    rewrite Hi. apply String.eqb_neq. intros Heq. apply Hpc.
    rewrite <- Heq. apply list_elem_of_In. by apply in_map.
  - rewrite Hother, IH; [done..|].
    intros Heq. apply Hpc. rewrite Heq. apply list_elem_of_In. by apply in_map.
Qed.



(** The findings depend on the fleet only through the product rows. *)
Lemma product_issues_ext (w w' : Sim.World) :
  (forall pc, db_query w pc Sim.products_by_id = db_query w' pc Sim.products_by_id) ->
  product_issues w = product_issues w'.
Proof.
  intros H. rewrite !product_issues_flat. unfold product_dict.
  rewrite (H "PC-PDV-01"). apply flat_map_ext. intros pc. by rewrite (H (Sim.pc_id pc)).
Qed.

End ValidatorFacts.

#[local] Set Warnings "-inexact-float".



#[local] Set Warnings "inexact-float".

(** C6 (as stated) fails for the product pass of the continuous runner: on
    a satellite that lacks a single product of the master (1 <= 5 ids
    missing) the pass still reports a MISSING_PRODUCT finding and stores
    it among the inconsistencies. *)
Lemma single_missing_product_counterexample :
  let p := Runner.validate_products Fixture.lagging "t1" Runner.new_validator in
  let on_peer :=
    List.filter (fun i => String.eqb (Runner.issue_pc i) "PC-PDV-02"
                          && Runner.is_missing i) (snd p) in
  (length on_peer <= 5)%nat /\
  on_peer = [Runner.MISSING_PRODUCT "PC-PDV-02" "C"
               "Product Spark plug missing on PC-PDV-02"] /\
  Runner.inconsistencies (fst p) <> [].
Proof. vm_compute. repeat split; [lia|discriminate]. Qed.

(** C9: the product pass is a function of the nodes' product rows alone:
    two passes over identical datasets return the same findings, whatever
    the validator held before; the findings stored after a pass are exactly
    the ones it returned (the earlier ones are dropped); and a product that
    is present on the master and on a satellite with prices within
    tolerance has no finding for that satellite after the pass, even if the
    validator held one from an earlier pass. *)
Theorem validate_products_replaces (w : Sim.World) (now : string)
    (v : Runner.SyncValidator) :
  let p := Runner.validate_products w now v in
  (forall w' now' v',
     (forall pc, Runner.db_query w pc Sim.products_by_id
                 = Runner.db_query w' pc Sim.products_by_id) ->
     snd (Runner.validate_products w' now' v') = snd p) /\
  snd (Runner.validate_products w now (fst p)) = snd p /\
  Runner.inconsistencies (fst p) = snd p /\
  (forall peer pid m l,
     PyDict.get pid (Runner.product_dict w "PC-PDV-01") = Some m ->
     PyDict.get pid (Runner.product_dict w peer) = Some l ->
     Runner.price_differs (Sim.sale_price m) (Sim.sale_price l) = false ->
     forall i, In i (Runner.inconsistencies (fst p)) ->
       ~ (Runner.issue_pc i = peer /\ Runner.issue_product i = pid)).
Proof.
  simpl. split; [|split; [done|split; [done|]]].
  - intros w' now' v' H. symmetry. by apply product_issues_ext.
  - intros peer pid m l Hm Hl Hd i Hi [Hpc Hpid].
    apply product_issues_In in Hi as (pc & _ & _ & [Hi|Hi]).
    + apply missing_products_In in Hi as (pid' & m' & _ & Hmem & ->).
      simpl in Hpc, Hpid. subst. unfold PyDict.mem in Hmem. by rewrite Hl in Hmem.
    + apply price_mismatches_In in Hi as (pid' & m' & l' & Hm' & Hl' & Hd' & ->).
      simpl in Hpc, Hpid. subst. unfold Runner.product_dict in *.
      apply of_rows_In in Hm'. rewrite Hm in Hm'. rewrite Hl in Hl'. injection Hm' as <-. injection Hl' as <-.
      congruence.
Qed.

Lemma validate_products_replaces_witness :
  let before := fst (Runner.validate_products Fixture.mispriced "t1" Runner.new_validator) in
  let after := fst (Runner.validate_products Fixture.lagging "t2" before) in
  In (Runner.PRICE_MISMATCH "PC-PDV-02" "B" 120%float 99.5%float)
     (Runner.inconsistencies before) /\
  forall i, In i (Runner.inconsistencies after) ->
    ~ (Runner.issue_pc i = "PC-PDV-02" /\ Runner.issue_product i = "B").
Proof.
  split; [vm_compute; tauto|].
  pose proof (validate_products_replaces Fixture.lagging "t2"
                (fst (Runner.validate_products Fixture.mispriced "t1"
                        Runner.new_validator))) as (_ & _ & _ & H).
  apply (H "PC-PDV-02" "B" (Fixture.row "B" "Brake pad" 120%float)
           (Fixture.row "B" "Brake pad" 120%float)); reflexivity.
Defined.

(** ** Binary64 facts *)

Section FloatFacts.

(** A value that is not below zero: a zero of either sign, a positive
    finite number or plus infinity. *)
Local Abbreviation not_negative v :=
  (match v with
   | S754_zero _ | S754_finite false _ _ | S754_infinity false => True
   | _ => False
   end).

Lemma digits2_pos_bounds m :
  2 ^ (Z.pos (digits2_pos m) - 1) <= Z.pos m < 2 ^ Z.pos (digits2_pos m).
Proof.
  induction m as [m IH|m IH|]; cbn [digits2_pos]; [| |simpl; lia].
  - rewrite Pos2Z.inj_succ, Z.pow_succ_r by lia.
    replace (Z.succ (Z.pos (digits2_pos m)) - 1) with (Z.succ (Z.pos (digits2_pos m) - 1)) by lia.
    rewrite Z.pow_succ_r by lia. lia.
  - rewrite Pos2Z.inj_succ, Z.pow_succ_r by lia.
    replace (Z.succ (Z.pos (digits2_pos m)) - 1) with (Z.succ (Z.pos (digits2_pos m) - 1)) by lia.
    rewrite Z.pow_succ_r by lia. lia.
Qed.

(** Of two valid finite numbers, the one with the smaller exponent has the
    smaller magnitude. *)
Lemma bounded_exponent_lt m1 e1 m2 e2 :
  bounded prec emax m1 e1 = true -> bounded prec emax m2 e2 = true ->
  e1 < e2 -> Z.pos m1 < Z.pos m2 * 2 ^ (e2 - e1).
Proof.
  unfold bounded, canonical_mantissa, fexp, SpecFloat.emin, prec, emax.
  intros H1 H2 Hlt.
  apply andb_prop in H1 as [H1 _]. apply andb_prop in H2 as [H2 _].
  apply Z.eqb_eq in H1, H2.
  pose proof (digits2_pos_bounds m1) as [_ Hm1].
  pose proof (digits2_pos_bounds m2) as [Hm2 _].
  assert (Z.pos (digits2_pos m1) <= 53) as Hd1 by lia.
  assert (Z.pos (digits2_pos m2) = 53) as Hd2 by lia.
  rewrite Hd2 in Hm2.
  assert (2 ^ Z.pos (digits2_pos m1) <= 2 ^ 53) as Hp
      by (apply Z.pow_le_mono_r; lia).
  assert (2 ^ 1 <= 2 ^ (e2 - e1)) as Hq by (apply Z.pow_le_mono_r; lia).
  change (2 ^ (53 - 1)) with 4503599627370496 in Hm2.
  change (2 ^ 53) with 9007199254740992 in Hp.
  change (2 ^ 1) with 2 in Hq. nia.
Qed.

Lemma shl_align_value mx ex ez :
  ez <= ex -> Z.pos (fst (shl_align mx ex ez)) = Z.pos mx * 2 ^ (ex - ez).
Proof.
  intros Hle. unfold shl_align.
  destruct (ez - ex) as [|d|d] eqn:Hd; [| lia |].
  - replace (ex - ez) with 0 by lia. simpl. lia.
  - replace (ex - ez) with (Z.pos d) by lia. cbn [fst].
    change (Pos.iter xO mx d) with (shift_pos d mx).
    rewrite shift_pos_correct. change (Zpower_pos 2 d) with (2 ^ Z.pos d). lia.
Qed.

Lemma shr_1_nonneg mrs : 0 <= shr_m mrs -> 0 <= shr_m (shr_1 mrs).
Proof.
  destruct mrs as [m r s]. destruct m as [|p|p]; simpl; [lia| |lia].
  intros _. destruct p; simpl; lia.
Qed.

Lemma iter_shr_1_nonneg p : forall mrs,
  0 <= shr_m mrs -> 0 <= shr_m (SpecFloat.iter_pos shr_1 p mrs).
Proof.
  induction p as [p IH|p IH|]; intros mrs H; cbn [SpecFloat.iter_pos].
  - apply IH, IH, shr_1_nonneg, H.
  - apply IH, IH, H.
  - apply shr_1_nonneg, H.
Qed.

Lemma shr_fexp_nonneg m e l :
  0 <= m -> 0 <= shr_m (fst (shr_fexp prec emax m e l)).
Proof.
  intros Hm. unfold shr_fexp, shr.
  assert (0 <= shr_m (shr_record_of_loc m l)) as H0
      by (destruct l as [|[]]; exact Hm).
  destruct (fexp prec emax (Zdigits2 m + e) - e); cbn [fst]; [done| |done].
  by apply iter_shr_1_nonneg.
Qed.

(** Rounding keeps the sign. *)
Lemma binary_round_aux_sign sx mx ex lx :
  0 <= mx ->
  match binary_round_aux prec emax sx mx ex lx with
  | S754_zero s | S754_infinity s | S754_finite s _ _ => s = sx
  | S754_nan => False
  end.
Proof.
  intros Hm. unfold binary_round_aux.
  pose proof (shr_fexp_nonneg mx ex lx Hm) as H1.
  destruct (shr_fexp prec emax mx ex lx) as [mrs' e']. cbn [fst] in H1.
  assert (0 <= round_nearest_even (shr_m mrs') (loc_of_shr_record mrs')) as H2.
  { unfold round_nearest_even.
    destruct (loc_of_shr_record mrs') as [|[]]; [lia| |lia|lia].
    destruct (Z.even (shr_m mrs')); lia. }
  pose proof (shr_fexp_nonneg _ e' loc_Exact H2) as H3.
  destruct (shr_fexp prec emax _ e' loc_Exact) as [mrs'' e'']. cbn [fst] in H3.
  destruct (shr_m mrs'') as [|p|p]; [done| |lia].
  by destruct (e'' <=? emax - prec).
Qed.

Lemma binary_round_sign sx mx ex :
  match binary_round prec emax sx mx ex with
  | S754_zero s | S754_infinity s | S754_finite s _ _ => s = sx
  | S754_nan => False
  end.
Proof.
  unfold binary_round. destruct (shl_align mx ex _) as [mz ez].
  apply binary_round_aux_sign. lia.
Qed.

Lemma SFleb_finite s1 m1 e1 s2 m2 e2 :
  bounded prec emax m1 e1 = true -> bounded prec emax m2 e2 = true ->
  SFleb (S754_finite s1 m1 e1) (S754_finite s2 m2 e2) = true ->
  let ez := Z.min e2 e1 in
  cond_Zopp s1 (Z.pos (fst (shl_align m1 e1 ez)))
  <= cond_Zopp s2 (Z.pos (fst (shl_align m2 e2 ez))).
Proof.
  intros B1 B2 Hle ez.
  rewrite !shl_align_value by (subst ez; lia).
  unfold SFleb, SFcompare in Hle.
  assert (0 < Z.pos m1 * 2 ^ (e1 - ez)) as P1 by (apply Z.mul_pos_pos; [lia|apply Z.pow_pos_nonneg; subst ez; lia]).
  assert (0 < Z.pos m2 * 2 ^ (e2 - ez)) as P2 by (apply Z.mul_pos_pos; [lia|apply Z.pow_pos_nonneg; subst ez; lia]).
  destruct s1, s2; cbn [cond_Zopp]; [| lia | done |].
  - destruct (Z.compare_spec e1 e2) as [He|He|He]; [| done |].
    + subst e2. replace (e1 - ez) with 0 by (subst ez; lia).
      rewrite Pos.compare_cont_spec in Hle. simpl in Hle.
      destruct (Pos.compare_spec m1 m2); simpl in Hle; try done; lia.
    + pose proof (bounded_exponent_lt m2 e2 m1 e1 B2 B1 He).
      replace ez with e2 by (subst ez; lia).
      replace (e2 - e2) with 0 by lia. simpl (2 ^ 0). lia.
  - destruct (Z.compare_spec e1 e2) as [He|He|He]; [| | done].
    + subst e2. replace (e1 - ez) with 0 by (subst ez; lia).
      rewrite Pos.compare_cont_spec in Hle. simpl in Hle.
      destruct (Pos.compare_spec m1 m2); simpl in Hle; try done; lia.
    + pose proof (bounded_exponent_lt m1 e1 m2 e2 B1 B2 He).
      replace ez with e1 by (subst ez; lia).
      replace (e1 - e1) with 0 by lia. simpl (2 ^ 0). lia.
Qed.

Lemma SFsub_not_negative x y :
  valid_binary x = true -> valid_binary y = true ->
  match x with S754_zero _ | S754_finite _ _ _ => True | _ => False end ->
  match y with S754_zero _ | S754_finite _ _ _ => True | _ => False end ->
  SFleb y x = true -> not_negative (SF64sub x y).
Proof.
  intros Vx Vy Fx Fy Hle.
  destruct x as [sx|sx| |sx mx ex]; try done;
    destruct y as [sy|sy| |sy my ey]; try done.
  - simpl. by destruct sx, sy.
  - simpl. unfold SFleb in Hle. simpl in Hle. by destruct sy.
  - simpl. unfold SFleb in Hle. simpl in Hle. by destruct sx.
  - pose proof (SFleb_finite sy my ey sx mx ex Vy Vx Hle) as H. cbn zeta in H.
    unfold SF64sub, SFsub.
    set (d := cond_Zopp sx (Z.pos (fst (shl_align mx ex (Z.min ex ey))))
              - cond_Zopp sy (Z.pos (fst (shl_align my ey (Z.min ex ey))))) in *.
    assert (0 <= d) as Hd by lia.
    unfold binary_normalize. destruct d as [|p|p]; [done| |lia].
    pose proof (binary_round_sign false p (Z.min ex ey)) as Hs.
    destruct (binary_round prec emax false p (Z.min ex ey)); try done; by subst.
Qed.

Lemma SFmul_not_negative x m e :
  not_negative x -> not_negative (SF64mul x (S754_finite false m e)).
Proof.
  destruct x as [s|s| |s mx ex]; [by destruct s|by destruct s|done|].
  destruct s; [done|]. intros _. unfold SF64mul, SFmul. cbn [xorb].
  pose proof (binary_round_aux_sign false (Z.pos (mx * m)) (ex + e) loc_Exact
                (Pos2Z.is_nonneg _)) as Hs.
  destruct (binary_round_aux prec emax false _ _ _); try done; by subst.
Qed.

Lemma is_finite_cases x :
  is_finite x = true ->
  match Prim2SF x with S754_zero _ | S754_finite _ _ _ => True | _ => False end.
Proof.
  unfold is_finite, is_nan, is_infinity.
  rewrite !FloatAxioms.eqb_spec, FloatAxioms.abs_spec.
  change (Prim2SF infinity) with (S754_infinity false).
  destruct (Prim2SF x) as [s|s| |s m e]; try done. by destruct s.
Qed.

Lemma not_negative_leb x :
  not_negative (Prim2SF x) -> PrimFloat.leb 0 x = true.
Proof.
  rewrite FloatAxioms.leb_spec. change (Prim2SF 0) with (S754_zero false).
  destruct (Prim2SF x) as [s|s| |s m e]; try done; by destruct s.
Qed.

(** Between two finite clock readings of which the second is not the
    earlier, the elapsed milliseconds are not negative. *)
Lemma elapsed_ms_nonneg t0 t1 :
  is_finite t0 = true -> is_finite t1 = true -> PrimFloat.leb t0 t1 = true ->
  PrimFloat.leb 0 (PrimFloat.mul (PrimFloat.sub t1 t0) 1000) = true.
Proof.
  intros F0 F1 Hle. apply not_negative_leb.
  rewrite FloatAxioms.mul_spec, FloatAxioms.sub_spec.
  change (Prim2SF 1000) with (S754_finite false 8796093022208000 (-43)).
  apply SFmul_not_negative. rewrite FloatAxioms.leb_spec in Hle.
  apply SFsub_not_negative;
    [apply Prim2SF_valid|apply Prim2SF_valid|by apply is_finite_cases
    |by apply is_finite_cases|exact Hle].
Qed.

End FloatFacts.

(** ** Test harness *)

Section HarnessFacts.
Import Harness.

Lemma exec_app ws1 ws2 g : exec (ws1 ++ ws2) g = exec ws2 (exec ws1 g).
Proof. unfold exec. apply fold_left_app. Qed.

Lemma exec_logs_registry entries g :
  test_registry (exec (map Log entries) g) = test_registry g.
Proof.
  revert g. induction entries as [|e es IH]; intros g; simpl; [done|]. by rewrite IH.
Qed.

(** What [run_test] adds to the registry. *)
Lemma exec_run_test_registry before result final g :
  test_registry (exec (map Log before ++ [Register result; Log final]) g)
  = register result (test_registry g).
Proof. rewrite exec_app. simpl. by rewrite exec_logs_registry. Qed.

Lemma register_get result reg :
  PyDict.get (test_id result) (_results (register result reg)) = Some result.
Proof. unfold register; simpl. apply get_set_same. Qed.

(** The shape of a call of [run_test] whose check comes back. *)
Lemma run_test_returns st pc test_name category (test_fn : TestFn) logged o :
  test_fn pc = Returns logged o ->
  let '(failures, error_msg, status, caught) := classify pc test_name o in
  let result := {|
    test_id := pc +:+ "_" +:+ test_name +:+ "_" +:+ uid st;
    test_name := test_name; pc_id := pc; test_category := category;
    status := status;
    duration_ms := PrimFloat.mul (PrimFloat.sub (finish st) (start st)) 1000;
    assertions := 0; failures := failures; error_msg := error_msg;
    test_context := [] |} in
  exists before final,
    run_test st pc test_name category test_fn
    = Returns (map Log before ++ [Register result; Log final]) result.
Proof.
  intros Hfn. unfold run_test, bind, write. rewrite Hfn. cbn [logging].
  set (first := info "TEST" pc ("Starting: " +:+ test_name) []).
  destruct o as [[[|f fs]|]|msg|msg]; cbn [classify].
  1-3: exists (first :: logged); eexists; cbn [map app];
       rewrite <- ?app_assoc; reflexivity.
  - exists (first :: logged ++
              [error "TEST" pc ("Assertion failed: " +:+ test_name) (Some msg) []]).
    eexists. cbn [map app]. rewrite map_app, <- !app_assoc. reflexivity.
  - exists (first :: logged ++
              [error "TEST" pc ("Error in test: " +:+ test_name) (Some msg) []]).
    eexists. cbn [map app]. rewrite map_app, <- !app_assoc. reflexivity.
Qed.

(** A check that never comes back leaves [run_test] without a result and
    without a registration. *)
Lemma run_test_hangs st pc test_name category (test_fn : TestFn) logged :
  test_fn pc = Hangs logged ->
  run_test st pc test_name category test_fn
  = Hangs (map Log (info "TEST" pc ("Starting: " +:+ test_name) [] :: logged)).
Proof. intros Hfn. unfold run_test, bind, write. by rewrite Hfn. Qed.

End HarnessFacts.

(** C2 (amended): when the check comes back, [run_test] returns one result
    whose status is PASSED for an empty list (or a value that is not a
    list), FAILED with the returned messages for a non-empty list, FAILED
    with the assertion message for an [AssertionError], and ERROR with the
    message kept in [error] and no failure message for any other
    exception. The status is one of the three terminal ones. The duration
    is the difference of the two [time.time()] readings taken around the
    call, times 1000, computed in binary64: it is not negative when the two
    readings are finite and the second is not the earlier one. Among the
    writes of the call there is exactly one registration, of that result:
    the registry afterwards is the registry before with the result stored
    under its id. *)
Theorem run_test_verdict (st : Harness.Stamp) (pc test_name category : string)
    (test_fn : Harness.TestFn) (logged : list Harness.LogEntry)
    (o : Harness.Outcome) :
  test_fn pc = Harness.Returns logged o ->
  exists result before final,
    Harness.run_test st pc test_name category test_fn
    = Harness.Returns
        (map Harness.Log before ++ [Harness.Register result; Harness.Log final])
        result /\
    Harness.test_id result = pc +:+ "_" +:+ test_name +:+ "_" +:+ Harness.uid st /\
    match o with
    | Harness.Value (Harness.PyList (f :: fs)) =>
        Harness.status result = Harness.FAILED /\
        Harness.failures result = f :: fs /\ Harness.error_msg result = None
    | Harness.Value _ =>
        Harness.status result = Harness.PASSED /\
        Harness.failures result = [] /\ Harness.error_msg result = None
    | Harness.RaisedAssertion msg =>
        Harness.status result = Harness.FAILED /\
        Harness.failures result = [msg] /\ Harness.error_msg result = None
    | Harness.RaisedException msg =>
        Harness.status result = Harness.ERROR /\
        Harness.failures result = [] /\ Harness.error_msg result = Some msg
    end /\
    (Harness.status result = Harness.PASSED \/
     Harness.status result = Harness.FAILED \/
     Harness.status result = Harness.ERROR) /\
    Harness.duration_ms result
      = PrimFloat.mul (PrimFloat.sub (Harness.finish st) (Harness.start st)) 1000 /\
    (PrimFloat.is_finite (Harness.start st) = true ->
     PrimFloat.is_finite (Harness.finish st) = true ->
     PrimFloat.leb (Harness.start st) (Harness.finish st) = true ->
     PrimFloat.leb 0 (Harness.duration_ms result) = true) /\
    forall g : Harness.Globals,
      let g' := Harness.exec
                  (Harness.call_writes
                     (Harness.run_test st pc test_name category test_fn)) g in
      Harness.test_registry g'
        = Harness.register result (Harness.test_registry g) /\
      PyDict.get (Harness.test_id result)
                 (Harness._results (Harness.test_registry g')) = Some result.
Proof.
  intros Hfn.
  pose proof (run_test_returns st pc test_name category test_fn logged o Hfn) as Hrun.
  pose proof (elapsed_ms_nonneg (Harness.start st) (Harness.finish st)) as Hdur.
  destruct o as [[[|f fs]|]|msg|msg]; cbn [Harness.classify] in Hrun;
    destruct Hrun as (before & final & Hrun);
    eexists; exists before, final; (split; [exact Hrun|]);
    (split; [reflexivity|]); (split; [by repeat split|]);
    (split; [by auto|]); (split; [reflexivity|]); (split; [exact Hdur|]);
    intros g g'; subst g'; rewrite Hrun; cbn [Harness.call_writes];
    rewrite exec_run_test_registry; (split; [reflexivity|apply register_get]).
Qed.

Lemma run_test_verdict_witness :
  exists result,
    Harness.call_value
      (Harness.run_test Fixture.stamp "PC-ADM" "test_required_data" "DATABASE"
         Fixture.failing_check) = Some result /\
    Harness.status result = Harness.FAILED /\
    Harness.failures result = ["Insufficient employees: 1 (min 3)"] /\
    Harness.duration_ms result = 250%float /\
    PrimFloat.leb 0 (Harness.duration_ms result) = true.
Proof.
  destruct (run_test_verdict Fixture.stamp "PC-ADM" "test_required_data" "DATABASE"
              Fixture.failing_check [] _ eq_refl)
    as (result & before & final & Hrun & _ & (Hst & Hf & _) & _ & Hms & Hdur & _).
  exists result. rewrite Hrun. cbn [Harness.call_value].
  split; [reflexivity|]. split; [exact Hst|]. split; [exact Hf|].
  split; [rewrite Hms; reflexivity|]. apply Hdur; reflexivity.
Defined.

(** C2 (as stated) fails: the duration is taken from the wall clock, which
    can be set back while the check runs. With a second reading one second
    before the first, a check that passes is recorded as PASSED with a
    duration of -1000 ms. *)
Lemma negative_duration_counterexample :
  exists result,
    Harness.call_value
      (Harness.run_test Fixture.clock_set_back "PC-ADM" "test_required_data"
         "DATABASE" Fixture.passing_check) = Some result /\
    Harness.status result = Harness.PASSED /\
    Harness.duration_ms result = (-1000)%float /\
    PrimFloat.leb 0 (Harness.duration_ms result) = false.
Proof. eexists. split; [reflexivity|]. by vm_compute. Qed.



(** C6 (amended): in the harness, [test_stock_consistency] on a satellite
    whose seed-product query and the master's both succeed returns no
    failure when at most 5 of the master's ids are absent on the satellite,
    logging their number at DEBUG level when there is at least one, and
    returns the single failure "Missing n seed products on pc" when more
    than 5 are absent; under [run_test] the check is FAILED exactly in that
    case and PASSED otherwise. The product pass of the continuous runner
    has no such tolerance: every product of the master that a satellite of
    the roster lacks is reported as a MISSING_PRODUCT finding. *)
Theorem stock_consistency_tolerance (w : Sim.World) (pc : string)
    (master_products local_products : list string) (st : Harness.Stamp) :
  pc <> "PC-PDV-01" ->
  Harness.db_query w "PC-PDV-01" Sim.seed_product_ids = Harness.Ok master_products ->
  Harness.db_query w pc Sim.seed_product_ids = Harness.Ok local_products ->
  let missing : gset string := list_to_set master_products ∖ list_to_set local_products in
  let n := size missing in
  let ok_entry :=
    Harness.info "SYNC" pc "✓ Stock consistency OK"
      [("seed_products",
        Harness.CInt (Z.of_nat (size (list_to_set local_products : gset string))))] in
  Harness.test_stock_consistency w pc =
    (if (n =? 0)%nat then
       Harness.Returns [ok_entry] (Harness.Value (Harness.PyList []))
     else if (n <=? 5)%nat then
       Harness.Returns
         [Harness.debug "SYNC" pc "Minor sync difference"
            [("missing", Harness.CInt (Z.of_nat n))];
          ok_entry]
         (Harness.Value (Harness.PyList []))
     else
       Harness.Returns []
         (Harness.Value
            (Harness.PyList ["Missing " +:+ Py.str_int (Z.of_nat n)
                               +:+ " seed products on " +:+ pc]))) /\
  (exists r,
     Harness.call_value
       (Harness.run_test st pc "test_stock_consistency" "SYNC"
          (Harness.test_stock_consistency w)) = Some r /\
     Harness.status r = (if (n <=? 5)%nat then Harness.PASSED else Harness.FAILED)) /\
  (forall w' peer pid m,
     In peer (map Sim.pc_id Sim.PC_CONFIG) -> peer <> "PC-PDV-01" ->
     PyDict.get pid (Runner.product_dict w' "PC-PDV-01") = Some m ->
     PyDict.get pid (Runner.product_dict w' peer) = None ->
     In (Runner.MISSING_PRODUCT peer pid
           ("Product " +:+ Sim.name m +:+ " missing on " +:+ peer))
        (Runner.product_issues w')).
Proof.
  intros Hne Hm Hl missing n ok_entry.
  match goal with |- ?A /\ _ => assert A as Hcheck end; [|split; [exact Hcheck|]].
  { unfold Harness.test_stock_consistency.
    apply String.eqb_neq in Hne. rewrite Hne, Hm, Hl. cbv zeta.
    fold missing. fold n. fold ok_entry.
    destruct (n =? 0)%nat eqn:E0; [done|].
    destruct (n <=? 5)%nat eqn:E5.
    - apply Nat.leb_le in E5.
      assert ((5 <? n)%nat = false) as -> by (apply Nat.ltb_ge; lia). done.
    - apply Nat.leb_gt in E5.
      assert ((5 <? n)%nat = true) as -> by (apply Nat.ltb_lt; lia). done. }
  split.
  - unfold Harness.run_test, Harness.bind, Harness.write. rewrite Hcheck.
    destruct (n =? 0)%nat eqn:E0.
    + apply Nat.eqb_eq in E0. rewrite E0. simpl. eauto.
    + destruct (n <=? 5)%nat; simpl; eauto.
  - intros w' peer pid m Hpeer Hne' Hmd Hld.
    apply in_map_iff in Hpeer as (cfg & <- & Hcfg).
    apply product_issues_In. exists cfg. split; [done|]. split; [done|]. left.
    apply missing_products_In. exists pid, m.
    split; [by apply get_Some_In|]. split; [|done].
    unfold PyDict.mem. by rewrite Hld.
Qed.

Lemma stock_consistency_tolerance_witness :
  Harness.test_stock_consistency Fixture.seed_lagging "PC-ESTQ" =
    Harness.Returns
      [Harness.debug "SYNC" "PC-ESTQ" "Minor sync difference"
         [("missing", Harness.CInt 1)];
       Harness.info "SYNC" "PC-ESTQ" "✓ Stock consistency OK"
         [("seed_products", Harness.CInt 2)]]
      (Harness.Value (Harness.PyList [])).
Proof.
  destruct (stock_consistency_tolerance Fixture.seed_lagging "PC-ESTQ"
              ["prod-001"; "prod-002"; "prod-003"] ["prod-001"; "prod-002"]
              Fixture.stamp) as (H & _).
  - discriminate.
  - reflexivity.
  - reflexivity.
  - rewrite H. vm_compute. reflexivity.
Defined.

(** ** The worker pool *)

Section PoolFacts.
Import Harness.
Variable max_workers : Z.

Lemma reachable_step_first p0 p1 p :
  step max_workers p0 p1 -> reachable max_workers p1 p -> reachable max_workers p0 p.
Proof.
  intros Hstep Hreach. induction Hreach as [|p p' _ IH Hs].
  - eapply reach_step; [apply reach_here|done].
  - eapply reach_step; [exact IH|done].
Qed.

(** Every step uses up one unit of the work left: a run has no more steps
    than [work_left] of its first state. *)
Lemma step_work_left p p' : step max_workers p p' -> work_left p = S (work_left p').
Proof.
  intros Hstep. unfold work_left.
  destruct Hstep as [p t q Hq Hcap|p l1 t l2 e es Hr Hp|p l1 t l2 rs Hr Hp He]; simpl.
  - rewrite Hq. simpl. rewrite map_app, list_sum_app. simpl. lia.
  - rewrite Hr, !map_app, !list_sum_app. simpl. rewrite Hp. simpl. lia.
  - rewrite Hr, !map_app, !list_sum_app. simpl. rewrite Hp. simpl. lia.
Qed.

(** The batches are neither lost nor duplicated. *)
Lemma step_count p p' :
  step max_workers p p' ->
  (length (queue p') + length (running p') + length (completed p')
   = length (queue p) + length (running p) + length (completed p))%nat.
Proof.
  intros [p0 t q Hq Hcap|p0 l1 t l2 e es Hr Hp|p0 l1 t l2 rs Hr Hp He]; simpl.
  - rewrite Hq, length_app. simpl. lia.
  - rewrite Hr, !length_app. simpl. lia.
  - rewrite Hr, !length_app. simpl. lia.
Qed.

Lemma reachable_count p0 p :
  reachable max_workers p0 p ->
  (length (queue p) + length (running p) + length (completed p)
   = length (queue p0) + length (running p0) + length (completed p0))%nat.
Proof.
  induction 1 as [|p p' _ IH Hs]; [done|]. by rewrite (step_count _ _ Hs).
Qed.

Lemma Forall_performed_mono (l l' made : list Effect) :
  (forall e, In e l -> In e l') ->
  Forall (fun e => In e l) made -> Forall (fun e => In e l') made.
Proof. rewrite !Forall_forall. intros H HF e He. apply H, HF, He. Qed.

(** A step moves a batch along, never back. *)
Lemma step_tracked t0 p p' :
  step max_workers p p' -> tracked t0 p -> tracked t0 p'.
Proof.
  intros Hstep Ht.
  destruct Hstep as [p t q Hq Hcap|p l1 t l2 e es Hr Hp|p l1 t l2 rs Hr Hp He].
  - destruct Ht as [Hin|[(made & rest & Hsplit & Hin & Hmade)|(rs & He & Hin & Hall)]].
    + rewrite Hq in Hin. destruct Hin as [<-|Hin]; [|by left].
      right; left. exists [], (pending t). simpl. split; [done|]. split; [|done].
      apply in_app_iff. right. left. by destruct t.
    + right; left. exists made, rest. simpl. split; [done|]. split; [|done].
      apply in_app_iff. by left.
    + right; right. exists rs. done.
  - assert (forall x, In x (performed p) -> In x (performed p ++ [e])) as Hmono
        by (intros x Hx; apply in_app_iff; by left).
    destruct Ht as [Hin|[(made & rest & Hsplit & Hin & Hmade)|(rs & He & Hin & Hall)]].
    + by left.
    + right; left. rewrite Hr in Hin. simpl.
      apply in_app_iff in Hin as [Hin|[Heq|Hin]].
      * exists made, rest. split; [done|]. split; [apply in_app_iff; by left|].
        by eapply Forall_performed_mono.
      * exists (made ++ [e]), es. subst t. simpl in *. subst rest.
        split; [by rewrite <- app_assoc|]. split; [apply in_app_iff; right; by left|].
        apply Forall_app. split; [by eapply Forall_performed_mono|].
        apply Forall_cons. split; [|done]. apply in_app_iff. right. by left.
      * exists made, rest. split; [done|].
        split; [apply in_app_iff; right; by right|].
        by eapply Forall_performed_mono.
    + right; right. exists rs. simpl. split; [done|]. split; [done|].
      by eapply Forall_performed_mono.
  - destruct Ht as [Hin|[(made & rest & Hsplit & Hin & Hmade)|(rs' & He' & Hin & Hall)]].
    + by left.
    + rewrite Hr in Hin. simpl.
      apply in_app_iff in Hin as [Hin|[Heq|Hin]].
      * right; left. exists made, rest. split; [done|].
        split; [apply in_app_iff; by left|done].
      * right; right. subst t. simpl in *. subst rest. exists rs.
        split; [done|]. split; [apply in_app_iff; right; by left|].
        rewrite Hsplit, app_nil_r. done.
      * right; left. exists made, rest. split; [done|].
        split; [apply in_app_iff; by right|done].
    + right; right. exists rs'. simpl. split; [done|].
      split; [apply in_app_iff; by left|done].
Qed.

Lemma reachable_tracked t0 p0 p :
  reachable max_workers p0 p -> In t0 (queue p0) -> tracked t0 p.
Proof.
  induction 1 as [|p p' _ IH Hs]; intros Hin; [by left|].
  eapply step_tracked; [exact Hs|auto].
Qed.

(** A batch that never returns keeps the run from returning. *)
Lemma tracked_hung_not_returned t0 p :
  tracked t0 p -> ending t0 = None -> ~ returned p.
Proof.
  intros [Hin|[(made & rest & _ & Hin & _)|(rs & He & _)]] Hnone [Hq Hr].
  - by rewrite Hq in Hin.
  - by rewrite Hr in Hin.
  - congruence.
Qed.

(** When nothing can happen any more and there was a thread for every
    batch, each batch that returns has completed. *)
Lemma quiescent_tracked_completed t0 p rs :
  quiescent max_workers p ->
  Z.of_nat (length (queue p) + length (running p)) <= max_workers ->
  tracked t0 p -> ending t0 = Some rs ->
  In (task_pc t0, rs) (completed p) /\
  Forall (fun e => In e (performed p)) (pending t0).
Proof.
  intros [Hq Hblocked] Hcap Ht He.
  destruct Ht as [Hin|[(made & rest & _ & Hin & _)|(rs' & He' & Hin & Hall)]].
  - destruct Hq as [Hq|Hq]; [by rewrite Hq in Hin|].
    destruct (queue p); [done|]. simpl in Hcap. lia.
  - rewrite List.Forall_forall in Hblocked. apply Hblocked in Hin as [_ Hnone].
    simpl in Hnone. congruence.
  - rewrite He in He'. injection He' as <-. done.
Qed.

(** In every state either something can happen or nothing ever will. *)
Lemma step_or_quiescent p : (exists p', step max_workers p p') \/ quiescent max_workers p.
Proof.
  assert ((exists l1 t l2, running p = l1 ++ t :: l2 /\
             (pending t <> [] \/ exists rs, ending t = Some rs)) \/
          Forall (fun t => pending t = [] /\ ending t = None) (running p)) as [Hrun|Hblocked].
  { induction (running p) as [|t l IH]; [right; constructor|].
    destruct (pending t) as [|e es] eqn:Hp.
    - destruct (ending t) as [rs|] eqn:He.
      + left. exists [], t, l. split; [done|]. right. eauto.
      + destruct IH as [(l1 & t' & l2 & -> & H)|IH].
        * left. exists (t :: l1), t', l2. done.
        * right. constructor; done.
    - left. exists [], t, l. split; [done|]. left. by rewrite Hp. }
  - left. destruct Hrun as (l1 & t & l2 & Hr & [Hp|[rs He]]).
    + destruct (pending t) as [|e es] eqn:Hpt; [done|].
      eexists. by eapply step_write.
    + destruct (pending t) as [|e es] eqn:Hpt.
      * eexists. by eapply step_finish.
      * eexists. by eapply step_write.
  - destruct (queue p) as [|t q] eqn:Hq.
    + right. split; [by left|done].
    + destruct (Z_lt_le_dec (Z.of_nat (length (running p))) max_workers) as [Hlt|Hge].
      * left. eexists. by eapply step_start.
      * right. split; [by right|done].
Qed.

(** Every run can be continued to a state in which nothing can happen. *)
Lemma eventually_quiescent p0 :
  exists p, reachable max_workers p0 p /\ quiescent max_workers p.
Proof.
  remember (work_left p0) as n eqn:Hn. revert p0 Hn.
  induction n as [|n IH]; intros p0 Hn.
  - destruct (step_or_quiescent p0) as [[p' Hs]|Hq].
    + apply step_work_left in Hs. lia.
    + exists p0. split; [apply reach_here|done].
  - destruct (step_or_quiescent p0) as [[p' Hs]|Hq].
    + destruct (IH p') as (p & Hreach & Hq).
      * apply step_work_left in Hs. lia.
      * exists p. split; [by eapply reachable_step_first|done].
    + exists p0. split; [apply reach_here|done].
Qed.

End PoolFacts.

(** ** Batches *)

Section BatchFacts.
Import Harness.

Local Abbreviation terminal r :=
  (status r = PASSED \/ status r = FAILED \/ status r = ERROR).

(** A registration made by the framework carries a terminal status. *)
Local Abbreviation registers_terminal e :=
  (match e with
   | Register r => terminal r
   | Log _ => True
   end).

Lemma run_test_terminal st pc test_name category (test_fn : TestFn) :
  Forall (fun e => registers_terminal e)
    (call_writes (run_test st pc test_name category test_fn)) /\
  (forall r, call_value (run_test st pc test_name category test_fn) = Some r ->
     terminal r /\
     In (Register r) (call_writes (run_test st pc test_name category test_fn))).
Proof.
  destruct (test_fn pc) as [logged o|logged] eqn:Hfn.
  - pose proof (run_test_returns st pc test_name category test_fn logged o Hfn) as H.
    destruct (classify pc test_name o) as [[[fs err] s] caught] eqn:Hc.
    destruct H as (before & final & ->). cbn [call_writes call_value].
    assert (s = PASSED \/ s = FAILED \/ s = ERROR) as Hs.
    { destruct o as [[[|f l]|]|msg|msg]; simpl in Hc; injection Hc as <- <- <- <-; auto. }
    split.
    + apply Forall_app. split.
      * apply List.Forall_forall. intros e He.
        apply in_map_iff in He as (entry & <- & _). done.
      * constructor; [exact Hs|]. constructor; [done|constructor].
    + intros r [= <-]. split; [exact Hs|].
      apply in_app_iff. right. by left.
  - rewrite (run_test_hangs st pc test_name category test_fn logged Hfn).
    cbn [call_writes call_value]. split; [|done].
    apply List.Forall_forall. intros e He.
    apply in_map_iff in He as (entry & <- & _). done.
Qed.

Lemma run_tests_terminal stamps pc tests : forall k,
  Forall (fun e => registers_terminal e) (call_writes (run_tests stamps k pc tests)) /\
  (forall rs, call_value (run_tests stamps k pc tests) = Some rs ->
     Forall (fun r => terminal r /\
                      In (Register r) (call_writes (run_tests stamps k pc tests))) rs).
Proof.
  induction tests as [|[[test_name category] test_fn] tests IH]; intros k.
  - simpl. split; [constructor|]. intros rs [= <-]. constructor.
  - cbn [run_tests]. unfold bind, ret.
    destruct (run_test_terminal (stamps k) pc test_name category test_fn) as [Hw Hv].
    destruct (run_test (stamps k) pc test_name category test_fn) as [ws r|ws];
      cbn [call_writes call_value] in *; [|done].
    destruct (IH (S k)) as [Hws Hvs].
    destruct (run_tests stamps (S k) pc tests) as [ws' rs|ws'];
      cbn [call_writes call_value] in *.
    + rewrite app_nil_r. split; [by apply Forall_app|].
      intros rs' [= <-]. constructor.
      * destruct (Hv r eq_refl) as [Ht Hin]. split; [done|].
        apply in_app_iff. by left.
      * specialize (Hvs rs eq_refl). eapply List.Forall_impl; [|exact Hvs].
        intros r' [Ht Hin]. split; [done|]. apply in_app_iff. by right.
    + split; [by apply Forall_app|done].
Qed.

(** A check that hangs makes the rest of its batch hang with it. *)
Lemma run_tests_hangs stamps pc tests test_name category (test_fn : TestFn) logged :
  In (test_name, category, test_fn) tests ->
  test_fn pc = Hangs logged ->
  forall k, call_value (run_tests stamps k pc tests) = None.
Proof.
  intros Hin Hfn. induction tests as [|[[n c] f] tests IH]; intros k; [done|].
  cbn [run_tests]. unfold bind, ret.
  destruct Hin as [[= -> -> ->]|Hin].
  - by rewrite (run_test_hangs _ _ _ _ _ _ Hfn).
  - destruct (run_test (stamps k) pc n c f); [|done].
    specialize (IH Hin (S k)). by destruct (run_tests stamps (S k) pc tests).
Qed.

Lemma run_pc_tests_terminal table stamps pc scenarios :
  Forall (fun e => registers_terminal e)
    (call_writes (run_pc_tests table stamps pc scenarios)) /\
  (forall rs, call_value (run_pc_tests table stamps pc scenarios) = Some rs ->
     Forall (fun r => terminal r /\
                      In (Register r)
                         (call_writes (run_pc_tests table stamps pc scenarios))) rs).
Proof.
  unfold run_pc_tests, bind, write, ret.
  match goal with |- context [run_tests stamps 0 pc ?ts] => set (tests := ts) end.
  destruct (run_tests_terminal stamps pc tests 0%nat) as [Hw Hv].
  destruct (run_tests stamps 0 pc tests) as [ws rs|ws]; cbn [call_writes call_value] in *.
  - split.
    + constructor; [done|]. apply Forall_app. split; [done|]. by repeat constructor.
    + intros rs' [= <-]. specialize (Hv rs eq_refl).
      eapply List.Forall_impl; [|exact Hv]. intros r [Ht Hin]. split; [done|].
      apply in_app_iff. right. apply in_app_iff. by left.
  - split; [by constructor|done].
Qed.

Lemma run_pc_tests_hangs table stamps pc scenarios scenario tests
    test_name category (test_fn : TestFn) logged :
  In scenario scenarios ->
  PyDict.get scenario table = Some tests ->
  In (test_name, category, test_fn) tests ->
  test_fn pc = Hangs logged ->
  call_value (run_pc_tests table stamps pc scenarios) = None.
Proof.
  intros Hsc Hget Hin Hfn. unfold run_pc_tests, bind, write, ret.
  match goal with |- context [run_tests stamps 0 pc ?ts] => set (all := ts) end.
  assert (In (test_name, category, test_fn) all) as Hall.
  { apply in_flat_map. exists scenario. split; [done|]. by rewrite Hget. }
  pose proof (run_tests_hangs stamps pc all _ _ _ _ Hall Hfn 0%nat) as H.
  by destruct (run_tests stamps 0 pc all).
Qed.

(** The state in which [run_parallel_tests] has submitted the batches. *)
Lemma run_parallel_tests_queue table stamps scenarios max_workers p0 pc :
  run_parallel_tests table stamps scenarios max_workers = Ok p0 ->
  In pc (map Sim.pc_id Sim.PC_CONFIG) ->
  0 < max_workers /\
  In (task_of pc (run_pc_tests table (stamps pc) pc scenarios)) (queue p0) /\
  length (queue p0) = length Sim.PC_CONFIG /\ running p0 = [] /\ completed p0 = [].
Proof.
  unfold run_parallel_tests. destruct (max_workers <=? 0) eqn:E; [done|].
  apply Z.leb_gt in E. intros [= <-] Hpc. cbn [queue running completed].
  split; [done|]. split; [|split; [reflexivity|done]].
  apply in_map_iff in Hpc as (cfg & <- & Hcfg).
  exact (in_map (fun c => task_of (Sim.pc_id c)
                            (run_pc_tests table (stamps (Sim.pc_id c))
                               (Sim.pc_id c) scenarios))
                Sim.PC_CONFIG cfg Hcfg).
Qed.

(** A batch that never returns keeps [run_parallel_tests] from returning. *)
Lemma hung_never_returns table stamps scenarios max_workers p0 pc :
  run_parallel_tests table stamps scenarios max_workers = Ok p0 ->
  In pc (map Sim.pc_id Sim.PC_CONFIG) ->
  call_value (run_pc_tests table (stamps pc) pc scenarios) = None ->
  forall p, reachable max_workers p0 p -> ~ returned p.
Proof.
  intros Hrun Hpc Hnone p Hreach.
  destruct (run_parallel_tests_queue _ _ _ _ _ _ Hrun Hpc) as (_ & Hin & _).
  eapply tracked_hung_not_returned; [by eapply reachable_tracked|done].
Qed.

End BatchFacts.

(** C5 (amended): [run_parallel_tests] has no timeout and [TestStatus] no
    timeout member. When a check of one node never returns, [run_test]
    yields no result for it and registers nothing, and the orchestrator
    never returns: in no state of the run have all batches completed. With
    a thread per node (the default) the run still comes to rest, and when
    it does every batch that returns has completed, with its writes
    performed and each of its results registered under one of the three
    terminal statuses. *)
Theorem hung_check_blocks_run (table : Harness.ScenarioTests)
    (stamps : string -> nat -> Harness.Stamp) (scenarios : list string)
    (max_workers : Z) (p0 : Harness.Pool) (hung scenario : string)
    (tests : list (string * string * Harness.TestFn))
    (test_name category : string) (test_fn : Harness.TestFn)
    (logged : list Harness.LogEntry) :
  Harness.run_parallel_tests table stamps scenarios max_workers = Harness.Ok p0 ->
  Z.of_nat (length Sim.PC_CONFIG) <= max_workers ->
  In hung (map Sim.pc_id Sim.PC_CONFIG) ->
  In scenario scenarios ->
  PyDict.get scenario table = Some tests ->
  In (test_name, category, test_fn) tests ->
  test_fn hung = Harness.Hangs logged ->
  (forall st,
     Harness.run_test st hung test_name category test_fn =
     Harness.Hangs
       (map Harness.Log
          (Harness.info "TEST" hung ("Starting: " +:+ test_name) [] :: logged))) /\
  (forall s : Harness.TestStatus,
     s = Harness.PENDING \/ s = Harness.RUNNING \/ s = Harness.PASSED \/
     s = Harness.FAILED \/ s = Harness.SKIPPED \/ s = Harness.ERROR) /\
  (forall p, Harness.reachable max_workers p0 p -> ~ Harness.returned p) /\
  (exists p, Harness.reachable max_workers p0 p /\ Harness.quiescent max_workers p) /\
  (forall p, Harness.reachable max_workers p0 p -> Harness.quiescent max_workers p ->
     forall pc rs,
       In pc (map Sim.pc_id Sim.PC_CONFIG) ->
       Harness.call_value (Harness.run_pc_tests table (stamps pc) pc scenarios)
         = Some rs ->
       In (pc, rs) (Harness.completed p) /\
       Forall (fun r =>
                 In (Harness.Register r) (Harness.performed p) /\
                 (Harness.status r = Harness.PASSED \/
                  Harness.status r = Harness.FAILED \/
                  Harness.status r = Harness.ERROR)) rs).
Proof.
  intros Hrun Hcap Hhung Hsc Hget Hin Hfn.
  split; [intros st; by apply run_test_hangs|].
  split; [intros []; auto 10|].
  split.
  { eapply hung_never_returns; [exact Hrun|exact Hhung|].
    by eapply run_pc_tests_hangs. }
  split; [apply eventually_quiescent|].
  intros p Hreach Hq pc rs Hpc Hrs.
  destruct (run_parallel_tests_queue _ _ _ _ _ _ Hrun Hpc) as (_ & Hin0 & Hlen & Hr0 & Hc0).
  pose proof (reachable_count _ _ _ Hreach) as Hcount.
  rewrite Hlen, Hr0, Hc0 in Hcount. simpl in Hcount.
  destruct (quiescent_tracked_completed max_workers
              (Harness.task_of pc (Harness.run_pc_tests table (stamps pc) pc scenarios))
              p rs Hq) as [Hdone Hperf].
  - simpl in Hcap. lia.
  - by eapply reachable_tracked.
  - done.
  - split; [exact Hdone|].
    destruct (run_pc_tests_terminal table (stamps pc) pc scenarios) as [_ Hterm].
    specialize (Hterm rs Hrs). simpl in Hperf.
    rewrite List.Forall_forall in Hperf.
    eapply List.Forall_impl; [|exact Hterm].
    intros r [Ht Hreg]. split; [by apply Hperf|done].
Qed.

Lemma hung_check_blocks_run_witness :
  exists p0,
    Harness.run_parallel_tests Fixture.hanging_table (fun _ _ => Fixture.stamp)
      ["database"] 10 = Harness.Ok p0 /\
    forall p, Harness.reachable 10 p0 p -> ~ Harness.returned p.
Proof.
  eexists. split; [reflexivity|].
  eapply (hung_check_blocks_run Fixture.hanging_table (fun _ _ => Fixture.stamp)
            ["database"] 10 _ "PC-GER" "database" _
            "test_database_integrity" "DATABASE" Fixture.hangs_on_ger []).
  - reflexivity.
  - simpl. lia.
  - simpl. tauto.
  - simpl. tauto.
  - reflexivity.
  - simpl. tauto.
  - reflexivity.
Defined.

(** C5 (as stated) fails: with ten threads and a check that hangs on
    [PC-GER], the batch of that node makes two log writes and then blocks,
    so that no result of any classification is recorded for the hung
    check, and in no state of the run has [run_parallel_tests] returned. *)
Lemma hung_check_counterexample :
  exists p0,
    Harness.run_parallel_tests Fixture.hanging_table (fun _ _ => Fixture.stamp)
      ["database"] 10 = Harness.Ok p0 /\
    Harness.run_pc_tests Fixture.hanging_table (fun _ => Fixture.stamp)
      "PC-GER" ["database"]
    = Harness.Hangs
        [Harness.Log (Harness.info "TEST" "PC-GER" "Starting test suite"
                        [("scenarios", Harness.CList ["database"])]);
         Harness.Log (Harness.info "TEST" "PC-GER"
                        "Starting: test_database_integrity" [])] /\
    forall p, Harness.reachable 10 p0 p -> ~ Harness.returned p.
Proof.
  eexists. split; [reflexivity|]. split; [reflexivity|].
  eapply (hung_never_returns Fixture.hanging_table (fun _ _ => Fixture.stamp)
            ["database"] 10 _ "PC-GER"); [reflexivity|simpl; tauto|reflexivity].
Qed.

(** * Further properties of the code *)

(** ** Health rules *)

Section HealthRuleFacts.
Import Runner.

(** What the connectivity, settings and log rules leave alone. *)
Local Abbreviation same_findings s s' :=
  (errors s' = errors s /\ employee_count s' = employee_count s /\
   product_count s' = product_count s /\ sale_count s' = sale_count s /\
   db_accessible s' = db_accessible s).

Lemma check_network_settings_findings w pc s :
  same_findings s (check_network_settings w pc s).
Proof. unfold check_network_settings. case_match; by repeat split. Qed.

Lemma check_log_findings pc log s : same_findings s (check_log pc log s).
Proof. unfold check_log. repeat case_match; by repeat split. Qed.

Lemma final_status_findings s : same_findings s (final_status s).
Proof. unfold final_status. repeat case_match; by repeat split. Qed.

(** The errors the two minimum rules produce for the counts [e] and [p]. *)
Local Abbreviation minimum_errors e p :=
  ((if e =? 0 then ["No employees in database"] else []) ++
   (if p =? 0 then ["No products in database"] else [])).

Lemma check_minimums_errors s :
  errors s = [] ->
  errors (check_products (check_employees s))
  = minimum_errors (employee_count s) (product_count s) /\
  employee_count (check_products (check_employees s)) = employee_count s /\
  product_count (check_products (check_employees s)) = product_count s /\
  sale_count (check_products (check_employees s)) = sale_count s /\
  db_accessible (check_products (check_employees s)) = db_accessible s.
Proof.
  intros He. unfold check_products, check_employees.
  destruct (employee_count s =? 0) eqn:E0; [|destruct (employee_count s <? 3)];
    simpl; destruct (product_count s =? 0) eqn:P0;
    try destruct (product_count s <? 10); simpl;
    rewrite ?E0, ?P0, ?He; by repeat split.
Qed.

(** The status the [try] block leaves behind: the counts read from the
    database, and the errors of the two minimum rules. *)
Lemma check_pc_try_findings w pc now :
  let s :=
    match check_pc_try w pc (new_status pc now) with
    | Done s => s
    | Raised s _ => s
    end in
  errors s = minimum_errors (db_count w pc "employees") (db_count w pc "products") /\
  employee_count s = db_count w pc "employees" /\
  product_count s = db_count w pc "products" /\
  sale_count s = db_count w pc "sales" /\
  db_accessible s = true.
Proof.
  unfold check_pc_try.
  set (s1 := set_counts _ _ _ (new_status pc now)).
  destruct (check_minimums_errors s1 eq_refl) as (He & Hc1 & Hc2 & Hc3 & Hc4).
  set (s3 := check_products (check_employees s1)) in *.
  destruct (check_network_settings_findings w pc s3) as (Hn & Hn1 & Hn2 & Hn3 & Hn4).
  set (s4 := check_network_settings w pc s3) in *.
  assert (employee_count s1 = db_count w pc "employees" /\
          product_count s1 = db_count w pc "products" /\
          sale_count s1 = db_count w pc "sales" /\ db_accessible s1 = true)
    as (H11 & H12 & H13 & H14) by done.
  rewrite H11, H12 in He.
  destruct (Sim.runtime_log (w pc)) as [|log|err]; simpl.
  - destruct (final_status_findings s4) as (Hf & Hf1 & Hf2 & Hf3 & Hf4).
    repeat split; congruence.
  - destruct (check_log_findings pc log s4) as (Hl & Hl1 & Hl2 & Hl3 & Hl4).
    destruct (final_status_findings (check_log pc log s4)) as (Hf & Hf1 & Hf2 & Hf3 & Hf4).
    repeat split; congruence.
  - repeat split; congruence.
Qed.

End HealthRuleFacts.

Section HealthVerdictFacts.
Import Runner.

Lemma check_pc_present_status w now pc hm d :
  Sim.db (w pc) = Some d ->
  snd (check_pc w now pc hm) =
    match check_pc_try w pc (new_status pc now) with
    | Done s => s
    | Raised s err =>
        set_status "ERROR"
          (errors_append ("Health check failed: " +:+ err) (set_db_accessible false s))
    end.
Proof. intros Hdb. unfold check_pc. by rewrite Hdb. Qed.

Lemma check_pc_try_done_final w pc s0 s :
  check_pc_try w pc s0 = Done s -> exists s', s = final_status s'.
Proof.
  unfold check_pc_try. destruct (Sim.runtime_log (w pc)); intros [= <-]; eauto.
Qed.

Lemma check_pc_try_raised_log w pc s0 s err :
  check_pc_try w pc s0 = Raised s err -> Sim.runtime_log (w pc) = Sim.LogUnreadable err.
Proof.
  unfold check_pc_try. destruct (Sim.runtime_log (w pc)); intros [= <- <-]; done.
Qed.

End HealthVerdictFacts.

(** X1: for a node whose dataset file exists, the counts in the status are
    the ones [db_count] reads, a count statement that fails counts as 0, and
    a zero employee count (or product count) puts "No employees in
    database" (or "No products in database") among the errors and makes
    the status "ERROR", on the normal path and when the check raises. *)
Theorem empty_table_is_error (w : Sim.World) (now pc : string)
    (hm : Runner.HealthMonitor) (d : Sim.Database) :
  Sim.db (w pc) = Some d ->
  let s := snd (Runner.check_pc w now pc hm) in
  (Runner.employee_count s = Runner.db_count w pc "employees" /\
   Runner.product_count s = Runner.db_count w pc "products" /\
   Runner.sale_count s = Runner.db_count w pc "sales") /\
  (forall table msg, Sim.table_count d table = Sim.SqlError msg ->
     Runner.db_count w pc table = 0) /\
  (Runner.db_count w pc "employees" = 0 ->
     In "No employees in database" (Runner.errors s) /\ Runner.status s = "ERROR") /\
  (Runner.db_count w pc "products" = 0 ->
     In "No products in database" (Runner.errors s) /\ Runner.status s = "ERROR").
Proof.
  intros Hdb s. subst s. rewrite (check_pc_present_status _ _ _ _ _ Hdb).
  pose proof (check_pc_try_findings w pc now) as (He & Hc1 & Hc2 & Hc3 & _).
  destruct (Runner.check_pc_try w pc (Runner.new_status pc now)) as [s|s err] eqn:Htry;
    cbn zeta in *.
  - split; [done|]. split.
    { intros table msg Ht. unfold Runner.db_count, Runner.db_query, Runner.count_rows.
      by rewrite Hdb, Ht. }
    apply check_pc_try_done_final in Htry as [s' ->].
    destruct (final_status_level s') as (Hfe & _ & Hfs).
    rewrite Hfs. rewrite Hfe in He. rewrite Hfe.
    split; intros H0; rewrite H0 in He; rewrite He; simpl.
    + split; [by left|done].
    + split; [apply in_app_iff; right; by left|].
      by destruct (Runner.db_count w pc "employees" =? 0).
  - simpl. split; [done|]. split.
    { intros table msg Ht. unfold Runner.db_count, Runner.db_query, Runner.count_rows.
      by rewrite Hdb, Ht. }
    split; intros H0; rewrite H0 in He; rewrite He; simpl; (split; [|done]).
    + by left.
    + apply in_app_iff. left. apply in_app_iff. right. by left.
Qed.

Lemma empty_table_is_error_witness :
  Runner.status
    (snd (Runner.check_pc Fixture.no_employees "t1" "PC-PDV-02" Runner.new_monitor))
  = "ERROR".
Proof.
  pose proof (empty_table_is_error Fixture.no_employees "t1" "PC-PDV-02"
                Runner.new_monitor _ eq_refl) as (_ & _ & H & _).
  apply H. reflexivity.
Defined.

(** X2: for a node whose dataset file exists and whose runtime log is
    absent or readable, the status is "ERROR" exactly when the employee
    count or the product count is 0; the errors are those of the two
    minimum rules, so that missing network settings, a missing master
    connection or error markers in the log never raise the level above
    "WARN". *)
Theorem error_iff_empty_table (w : Sim.World) (now pc : string)
    (hm : Runner.HealthMonitor) (d : Sim.Database) :
  Sim.db (w pc) = Some d ->
  (forall err, Sim.runtime_log (w pc) <> Sim.LogUnreadable err) ->
  let s := snd (Runner.check_pc w now pc hm) in
  Runner.errors s =
    (if Runner.db_count w pc "employees" =? 0 then ["No employees in database"] else [])
    ++ (if Runner.db_count w pc "products" =? 0 then ["No products in database"] else []) /\
  (Runner.status s = "ERROR" <->
     Runner.db_count w pc "employees" = 0 \/ Runner.db_count w pc "products" = 0) /\
  Runner.db_accessible s = true.
Proof.
  intros Hdb Hlog s. subst s. rewrite (check_pc_present_status _ _ _ _ _ Hdb).
  pose proof (check_pc_try_findings w pc now) as (He & _ & _ & _ & Hacc).
  destruct (Runner.check_pc_try w pc (Runner.new_status pc now)) as [s|s err] eqn:Htry;
    cbn zeta in *.
  - split; [done|]. split; [|done].
    apply check_pc_try_done_final in Htry as [s' ->].
    destruct (final_status_level s') as (Hfe & _ & Hfs).
    rewrite Hfs. rewrite Hfe in He. rewrite He.
    destruct (Runner.db_count w pc "employees" =? 0) eqn:E0;
      destruct (Runner.db_count w pc "products" =? 0) eqn:P0; simpl;
      rewrite ?Z.eqb_eq, ?Z.eqb_neq in *.
    1-3: split; [auto|done].
    split; [|intros [?|?]; done].
    destruct (Runner.warnings s'); done.
  - apply check_pc_try_raised_log in Htry. by apply Hlog in Htry.
Qed.

Lemma error_iff_empty_table_witness :
  Runner.status
    (snd (Runner.check_pc Fixture.lagging "t1" "PC-PDV-02" Runner.new_monitor))
  <> "ERROR".
Proof.
  pose proof (error_iff_empty_table Fixture.lagging "t1" "PC-PDV-02"
                Runner.new_monitor _ eq_refl) as (_ & H & _).
  - intros err. discriminate.
  - intros Hs. apply H in Hs as [Hs|Hs]; vm_compute in Hs; discriminate.
Defined.

(** X3: when the dataset file exists but reading the runtime log raises,
    the node is reported with status "ERROR" and [db_accessible = False],
    its last error is "Health check failed: " followed by the exception's
    message, and the counts already read are kept. *)
Theorem unreadable_log_is_db_failure (w : Sim.World) (now pc : string)
    (hm : Runner.HealthMonitor) (d : Sim.Database) (err : string) :
  Sim.db (w pc) = Some d ->
  Sim.runtime_log (w pc) = Sim.LogUnreadable err ->
  let s := snd (Runner.check_pc w now pc hm) in
  Runner.status s = "ERROR" /\ Runner.db_accessible s = false /\
  Runner.errors s =
    ((if Runner.db_count w pc "employees" =? 0 then ["No employees in database"] else [])
     ++ (if Runner.db_count w pc "products" =? 0 then ["No products in database"] else []))
    ++ ["Health check failed: " +:+ err] /\
  Runner.employee_count s = Runner.db_count w pc "employees" /\
  Runner.product_count s = Runner.db_count w pc "products" /\
  Runner.sale_count s = Runner.db_count w pc "sales".
Proof.
  intros Hdb Hlog s. subst s. rewrite (check_pc_present_status _ _ _ _ _ Hdb).
  pose proof (check_pc_try_findings w pc now) as (He & Hc1 & Hc2 & Hc3 & _).
  destruct (Runner.check_pc_try w pc (Runner.new_status pc now)) as [s|s err'] eqn:Htry;
    cbn zeta in *.
  - unfold Runner.check_pc_try in Htry. by rewrite Hlog in Htry.
  - apply check_pc_try_raised_log in Htry. rewrite Hlog in Htry.
    injection Htry as <-. simpl. rewrite He. done.
Qed.

Lemma unreadable_log_is_db_failure_witness :
  Runner.errors
    (snd (Runner.check_pc Fixture.unreadable_log "t1" "PC-PDV-02" Runner.new_monitor))
  = ["Health check failed: [Errno 13] Permission denied"].
Proof.
  pose proof (unreadable_log_is_db_failure Fixture.unreadable_log "t1" "PC-PDV-02"
                Runner.new_monitor _ _ eq_refl eq_refl) as (_ & _ & H & _).
  rewrite H. reflexivity.
Defined.

(** ** Connectivity *)

Section ConnectivityFacts.
Import Runner.

Local Abbreviation no_master := "No master connection in logs".

Lemma check_employees_conn s :
  network_connected (check_employees s) = network_connected s /\
  (In no_master (warnings (check_employees s)) <-> In no_master (warnings s)).
Proof.
  unfold check_employees. repeat case_match; simpl; (split; [done|]); try done.
  rewrite in_app_iff. simpl. split; [intros [?|[?|[]]]; done|auto].
Qed.

Lemma check_products_conn s :
  network_connected (check_products s) = network_connected s /\
  (In no_master (warnings (check_products s)) <-> In no_master (warnings s)).
Proof.
  unfold check_products. repeat case_match; simpl; (split; [done|]); try done.
  rewrite in_app_iff. simpl. split; [intros [?|[?|[]]]; done|auto].
Qed.

Lemma check_network_settings_conn w pc s :
  network_connected (check_network_settings w pc s) = network_connected s /\
  (In no_master (warnings (check_network_settings w pc s)) <-> In no_master (warnings s)).
Proof.
  unfold check_network_settings. case_match; simpl; (split; [done|]); try done.
  rewrite in_app_iff. simpl. split; [intros [?|[?|[]]]; done|auto].
Qed.

Lemma final_status_conn s :
  network_connected (final_status s) = network_connected s /\
  warnings (final_status s) = warnings s.
Proof. unfold final_status. by repeat case_match. Qed.

Lemma check_log_conn pc log s :
  let marked := Py.str_in "Conectado ao Master" log
                || Py.str_in "Autenticado com sucesso" log in
  network_connected (check_log pc log s) =
    (if marked then true
     else if String.eqb pc "PC-PDV-01" then network_connected s else false) /\
  (In no_master (warnings (check_log pc log s)) <->
     In no_master (warnings s) \/ (marked = false /\ pc <> "PC-PDV-01")).
Proof.
  unfold check_log.
  destruct (Py.str_in "Conectado ao Master" log || Py.str_in "Autenticado com sucesso" log);
    destruct (String.eqb pc "PC-PDV-01") eqn:E;
    rewrite ?String.eqb_eq, ?String.eqb_neq in E;
    destruct (Py.str_in "ERROR" log || Py.str_in "FATAL" log); simpl;
    (split; [done|]); rewrite ?in_app_iff; simpl; intuition; done.
Qed.

End ConnectivityFacts.

(** X4: for a node whose dataset file exists and whose runtime log is
    readable, [network_connected] is true when the log contains "Conectado
    ao Master" or "Autenticado com sucesso"; without either marker it is
    false and the warning "No master connection in logs" is issued, except
    on PC-PDV-01, which keeps [network_connected = True] and gets no such
    warning. *)
Theorem connection_rule (w : Sim.World) (now pc : string)
    (hm : Runner.HealthMonitor) (d : Sim.Database) (log_content : string) :
  Sim.db (w pc) = Some d ->
  Sim.runtime_log (w pc) = Sim.LogText log_content ->
  let s := snd (Runner.check_pc w now pc hm) in
  let marked := Py.str_in "Conectado ao Master" log_content
                || Py.str_in "Autenticado com sucesso" log_content in
  Runner.network_connected s = (marked || String.eqb pc "PC-PDV-01") /\
  (In "No master connection in logs" (Runner.warnings s) <->
     marked = false /\ pc <> "PC-PDV-01").
Proof.
  intros Hdb Hlog s marked. subst s.
  rewrite (check_pc_present_status _ _ _ _ _ Hdb).
  unfold Runner.check_pc_try. rewrite Hlog.
  set (s1 := Runner.set_counts _ _ _ (Runner.new_status pc now)).
  destruct (check_employees_conn s1) as [Hc1 Hw1].
  destruct (check_products_conn (Runner.check_employees s1)) as [Hc2 Hw2].
  destruct (check_network_settings_conn w pc
              (Runner.check_products (Runner.check_employees s1))) as [Hc3 Hw3].
  set (s4 := Runner.check_network_settings w pc _) in *.
  destruct (check_log_conn pc log_content s4) as [Hc4 Hw4].
  destruct (final_status_conn (Runner.check_log pc log_content s4)) as [Hc5 Hw5].
  rewrite Hc5, Hw5, Hc4, Hw4, Hw3, Hw2, Hw1, Hc3, Hc2, Hc1. fold marked. simpl.
  split.
  - destruct marked, (String.eqb pc "PC-PDV-01"); done.
  - intuition.
Qed.

Lemma connection_rule_witness :
  Runner.network_connected
    (snd (Runner.check_pc Fixture.connected "t1" "PC-ESTQ" Runner.new_monitor)) = false /\
  Runner.network_connected
    (snd (Runner.check_pc Fixture.connected "t1" "PC-PDV-02" Runner.new_monitor)) = true.
Proof.
  split.
  - pose proof (connection_rule Fixture.connected "t1" "PC-ESTQ" Runner.new_monitor
                  _ _ eq_refl eq_refl) as [H _].
    rewrite H. reflexivity.
  - pose proof (connection_rule Fixture.connected "t1" "PC-PDV-02" Runner.new_monitor
                  _ _ eq_refl eq_refl) as [H _].
    rewrite H. reflexivity.
Defined.

(** ** Cycles *)

Section CycleFacts.
Import Runner.

(** The history of a node, empty when it has none yet. *)
Local Abbreviation history_of pc hm :=
  (match PyDict.get pc (history hm) with Some h => h | None => [] end).

Lemma check_pc_status_indep w now pc hm hm' :
  snd (check_pc w now pc hm) = snd (check_pc w now pc hm').
Proof. unfold check_pc. by destruct (Sim.db (w pc)). Qed.

Lemma check_pc_other w now pc0 pc hm :
  pc0 <> pc ->
  PyDict.get pc (statuses (fst (check_pc w now pc0 hm))) = PyDict.get pc (statuses hm) /\
  PyDict.get pc (history (fst (check_pc w now pc0 hm))) = PyDict.get pc (history hm).
Proof.
  intros Hne. unfold check_pc. destruct (Sim.db (w pc0)); simpl; [|done].
  by rewrite !get_set_other.
Qed.

Lemma check_pc_self w now pc hm :
  let hm' := fst (check_pc w now pc hm) in
  let s := snd (check_pc w now pc hm) in
  match Sim.db (w pc) with
  | Some _ =>
      PyDict.get pc (statuses hm') = Some s /\
      PyDict.get pc (history hm') = Some (history_of pc hm ++ [s])
  | None => hm' = hm
  end.
Proof.
  unfold check_pc. destruct (Sim.db (w pc)); simpl; [|done].
  rewrite !get_set_same. by destruct (PyDict.get pc (history hm)).
Qed.

Lemma check_fold_other w clock pc pcs : forall hm,
  ~ In pc (map Sim.pc_id pcs) ->
  let hm' := fold_left (fun hm c => fst (check_pc w (clock (Sim.pc_id c)) (Sim.pc_id c) hm))
                       pcs hm in
  PyDict.get pc (statuses hm') = PyDict.get pc (statuses hm) /\
  PyDict.get pc (history hm') = PyDict.get pc (history hm).
Proof.
  induction pcs as [|c pcs IH]; intros hm Hnin; simpl; [done|].
  simpl in Hnin.
  destruct (IH (fst (check_pc w (clock (Sim.pc_id c)) (Sim.pc_id c) hm))) as [H1 H2];
    [tauto|].
  destruct (check_pc_other w (clock (Sim.pc_id c)) (Sim.pc_id c) pc hm) as [H3 H4];
    [tauto|].
  simpl in H1, H2. by rewrite H1, H2.
Qed.

(** What a pass over nodes with distinct ids does to the entries of [pc]. *)
Lemma check_fold_spec w clock pc pcs : forall hm,
  NoDup (map Sim.pc_id pcs) ->
  In pc (map Sim.pc_id pcs) ->
  let hm' := fold_left (fun hm c => fst (check_pc w (clock (Sim.pc_id c)) (Sim.pc_id c) hm))
                       pcs hm in
  let s := snd (check_pc w (clock pc) pc hm) in
  match Sim.db (w pc) with
  | Some _ =>
      PyDict.get pc (statuses hm') = Some s /\
      PyDict.get pc (history hm') = Some (history_of pc hm ++ [s])
  | None =>
      PyDict.get pc (statuses hm') = PyDict.get pc (statuses hm) /\
      PyDict.get pc (history hm') = PyDict.get pc (history hm)
  end.
Proof.
  induction pcs as [|c pcs IH]; intros hm Hnd Hin; [done|].
  simpl in Hnd, Hin. apply NoDup_cons in Hnd as [Hc Hnd]. cbn [fold_left].
  destruct Hin as [Heq|Hin].
  - subst pc.
    assert (~ In (Sim.pc_id c) (map Sim.pc_id pcs)) as Hnin
        by (intros H; apply Hc; by apply list_elem_of_In).
    destruct (check_fold_other w clock (Sim.pc_id c) pcs
                (fst (check_pc w (clock (Sim.pc_id c)) (Sim.pc_id c) hm)) Hnin) as [H1 H2].
    pose proof (check_pc_self w (clock (Sim.pc_id c)) (Sim.pc_id c) hm) as Hself.
    cbn zeta in *. destruct (Sim.db (w (Sim.pc_id c))).
    + rewrite H1, H2. exact Hself.
    + rewrite H1, H2, Hself. done.
  - assert (Sim.pc_id c <> pc) as Hne.
    { intros Heq. apply Hc. rewrite Heq. by apply list_elem_of_In. }
    specialize (IH (fst (check_pc w (clock (Sim.pc_id c)) (Sim.pc_id c) hm)) Hnd Hin).
    destruct (check_pc_other w (clock (Sim.pc_id c)) (Sim.pc_id c) pc hm Hne) as [H3 H4].
    cbn zeta in *.
    rewrite (check_pc_status_indep w (clock pc) pc _ hm) in IH.
    rewrite H3, H4 in IH. exact IH.
Qed.

End CycleFacts.

(** X5: one pass of [check_all] checks every node of the roster once: for
    a node whose dataset file exists, the current status of the node is the
    status of its check and that status is appended to the node's history;
    the entries of a node whose dataset file is missing, or that is not in
    the roster, are left as they were. *)
Theorem check_all_records (w : Sim.World) (clock : string -> string)
    (hm : Runner.HealthMonitor) (pc : string) :
  let hm' := Runner.check_all w clock hm in
  let s := snd (Runner.check_pc w (clock pc) pc hm) in
  (In pc (map Sim.pc_id Sim.PC_CONFIG) ->
   forall d, Sim.db (w pc) = Some d ->
     PyDict.get pc (Runner.statuses hm') = Some s /\
     PyDict.get pc (Runner.history hm') =
       Some (match PyDict.get pc (Runner.history hm) with
             | Some h => h
             | None => []
             end ++ [s])) /\
  (~ In pc (map Sim.pc_id Sim.PC_CONFIG) \/ Sim.db (w pc) = None ->
     PyDict.get pc (Runner.statuses hm') = PyDict.get pc (Runner.statuses hm) /\
     PyDict.get pc (Runner.history hm') = PyDict.get pc (Runner.history hm)).
Proof.
  cbn zeta. unfold Runner.check_all. split.
  - intros Hin d Hdb.
    pose proof (check_fold_spec w clock pc Sim.PC_CONFIG hm roster_ids_distinct Hin) as H.
    cbn zeta in H. by rewrite Hdb in H.
  - intros [Hnin|Hdb].
    + by apply check_fold_other.
    + destruct (in_dec string_dec pc (map Sim.pc_id Sim.PC_CONFIG)) as [Hin|Hnin];
        [|by apply check_fold_other].
      pose proof (check_fold_spec w clock pc Sim.PC_CONFIG hm roster_ids_distinct Hin) as H.
      cbn zeta in H. by rewrite Hdb in H.
Qed.

Lemma check_all_records_witness :
  exists s,
    PyDict.get "PC-GER"
      (Runner.history (Runner.check_all Fixture.connected (Fixture.clock "c1")
                         Runner.new_monitor)) = Some [s] /\
    Runner.timestamp s = "c1/PC-GER".
Proof.
  destruct (check_all_records Fixture.connected (Fixture.clock "c1") Runner.new_monitor
              "PC-GER") as [H _].
  destruct (H ltac:(simpl; tauto) _ eq_refl) as [_ Hh].
  eexists. split; [exact Hh|]. reflexivity.
Defined.

Section LoopFacts.
Import Runner.

Local Abbreviation history_len pc r :=
  (length (match PyDict.get pc (history (monitor r)) with Some h => h | None => [] end)).

Lemma run_cycle_fields w clock now r :
  cycle (run_cycle w clock now r) = cycle r + 1 /\
  duration (run_cycle w clock now r) = duration r /\
  interval (run_cycle w clock now r) = interval r /\
  running (run_cycle w clock now r) = running r.
Proof. done. Qed.

Lemma run_cycle_history w clock now r pc d :
  In pc (map Sim.pc_id Sim.PC_CONFIG) ->
  Sim.db (w pc) = Some d ->
  history_len pc (run_cycle w clock now r) = S (history_len pc r).
Proof.
  intros Hin Hdb. unfold run_cycle; simpl. unfold check_all.
  pose proof (check_fold_spec w clock pc Sim.PC_CONFIG (monitor r)
                roster_ids_distinct Hin) as H.
  cbn zeta in H. rewrite Hdb in H. destruct H as [_ ->].
  rewrite length_app. simpl. lia.
Qed.

Lemma last_of_one {A : Type} (t : A) u1 t0 u2 : [t] = u1 ++ t0 :: u2 -> u2 = [].
Proof. intros H. destruct u1 as [|a [|b u1]]; simpl in H; by simplify_eq. Qed.

End LoopFacts.

(** X6: the console loop of [run] runs one cycle for each loop test it
    passes ([used]): the cycle counter grows by their number, each of these
    tests found the elapsed time below the duration budget, and a node of
    the roster whose dataset file existed in each of these cycles has one
    more history entry per cycle. A further cycle is only run after a cycle
    during which no signal arrived and a sleep of non-negative length that
    returned without a signal. The loop is left in one of two ways: its test
    fails, because a signal has arrived or the next reading finds the budget
    used up; or [time.sleep] raises, which it always does after the first
    cycle when the interval is negative and no signal arrived during that
    cycle. *)
Theorem run_stops_on_budget_or_signal (start_time : float) (ticks : list Runner.Tick)
    (r : Runner.ContinuousTestRunner) (e : Runner.Exit) :
  Runner.run start_time ticks r = Some e ->
  exists used rest,
    ticks = used ++ rest /\
    Runner.cycle (Runner.exit_runner e) = Runner.cycle r + Z.of_nat (length used) /\
    Runner.duration (Runner.exit_runner e) = Runner.duration r /\
    Runner.interval (Runner.exit_runner e) = Runner.interval r /\
    Forall (fun t => Py.float_lt_int (PrimFloat.sub (Runner.tick_time t) start_time)
                                     (Runner.duration r) = true) used /\
    (used <> [] -> Runner.running r = true) /\
    (forall u1 t u2, used = u1 ++ t :: u2 -> u2 <> [] ->
       Runner.tick_signal t = false /\ Runner.tick_sleep t = Py.Slept false /\
       0 <= Runner.interval r) /\
    match e with
    | Runner.Stopped r' =>
        Runner.running r' = false \/
        exists t rest', rest = t :: rest' /\
          Py.float_lt_int (PrimFloat.sub (Runner.tick_time t) start_time)
                          (Runner.duration r) = false
    | Runner.Aborted error r' =>
        Runner.running r' = true /\
        exists u t, used = u ++ [t] /\ Runner.tick_signal t = false /\
          Py.sleep (Runner.interval r) (Runner.tick_sleep t) = Py.SleepFails error
    end /\
    (Runner.interval r < 0 -> forall t u, used = t :: u -> Runner.tick_signal t = false ->
       exists r', e = Runner.Aborted "sleep length must be non-negative" r') /\
    (forall pc,
       In pc (map Sim.pc_id Sim.PC_CONFIG) ->
       Forall (fun t => Sim.db (Runner.tick_world t pc) <> None) used ->
       length (match PyDict.get pc (Runner.history (Runner.monitor (Runner.exit_runner e))) with
               | Some h => h | None => [] end)
       = (length (match PyDict.get pc (Runner.history (Runner.monitor r)) with
                  | Some h => h | None => [] end) + length used)%nat).
Proof.
  revert r. induction ticks as [|t ticks IH]; intros r Hrun; cbn [Runner.run] in Hrun.
  { destruct (Runner.running r) eqn:Hr; [done|]. injection Hrun as <-.
    exists [], []. cbn [Runner.exit_runner length app].
    split; [done|]. split; [lia|]. split; [done|]. split; [done|].
    split; [constructor|]. split; [done|].
    split; [intros u1 t0 u2 H; by destruct u1|]. split; [by left|].
    split; [done|]. intros pc _ _. lia. }
  destruct (Runner.running r) eqn:Hr.
  2: { injection Hrun as <-. exists [], (t :: ticks).
       cbn [Runner.exit_runner length app].
       split; [done|]. split; [lia|]. split; [done|]. split; [done|].
       split; [constructor|]. split; [done|].
       split; [intros u1 t0 u2 H; by destruct u1|]. split; [by left|].
       split; [done|]. intros pc _ _. lia. }
  destruct (Py.float_lt_int (PrimFloat.sub (Runner.tick_time t) start_time)
                            (Runner.duration r)) eqn:Hq.
  2: { injection Hrun as <-. exists [], (t :: ticks).
       cbn [Runner.exit_runner length app].
       split; [done|]. split; [lia|]. split; [done|]. split; [done|].
       split; [constructor|]. split; [done|].
       split; [intros u1 t0 u2 H; by destruct u1|].
       split; [right; by exists t, ticks|].
       split; [done|]. intros pc _ _. lia. }
  set (r1 := Runner.run_cycle (Runner.tick_world t) (Runner.tick_clock t)
               (Runner.tick_now t) r) in *.
  assert (forall pc,
            In pc (map Sim.pc_id Sim.PC_CONFIG) ->
            Sim.db (Runner.tick_world t pc) <> None ->
            length (match PyDict.get pc (Runner.history (Runner.monitor r1)) with
                    | Some h => h | None => [] end)
            = S (length (match PyDict.get pc (Runner.history (Runner.monitor r)) with
                         | Some h => h | None => [] end))) as Hhist1.
  { intros pc Hpc Hdb.
    destruct (Sim.db (Runner.tick_world t pc)) as [d|] eqn:Hd; [|done].
    exact (run_cycle_history (Runner.tick_world t) (Runner.tick_clock t)
             (Runner.tick_now t) r pc d Hpc Hd). }
  destruct (Runner.tick_signal t) eqn:Hs.
  { (* a signal arrives during the cycle *)
    cbn [Runner._handle_signal Runner.running] in Hrun. injection Hrun as <-.
    exists [t], ticks. cbn [Runner.exit_runner length app].
    split; [done|]. split; [simpl; lia|]. split; [done|]. split; [done|].
    split; [by repeat constructor|]. split; [done|].
    split; [intros u1 t0 u2 H Hne; by apply last_of_one in H|].
    split; [by left|].
    split; [intros _ t0 u [= <- <-] Hs'; congruence|].
    intros pc Hpc Hdb. apply Forall_cons in Hdb as [Hdb _].
    cbn [Runner._handle_signal Runner.monitor]. rewrite (Hhist1 pc Hpc Hdb).
    simpl. lia. }
  assert (Runner.running r1 = true) as Hr1 by exact Hr.
  rewrite Hr1 in Hrun.
  assert (Runner.interval r1 = Runner.interval r) as Hi1 by done.
  rewrite Hi1 in Hrun.
  destruct (Py.sleep (Runner.interval r) (Runner.tick_sleep t)) as [signalled|error]
    eqn:Hsleep.
  2: { (* the sleep raises *)
       injection Hrun as <-. exists [t], ticks. cbn [Runner.exit_runner length app].
       split; [done|]. split; [simpl; lia|]. split; [done|]. split; [done|].
       split; [by repeat constructor|]. split; [done|].
       split; [intros u1 t0 u2 H Hne; by apply last_of_one in H|].
       split; [split; [done|]; by exists [], t|].
       split.
       - intros Hneg t0 u [= <- <-] _. exists r1.
         unfold Py.sleep in Hsleep. apply Z.ltb_lt in Hneg. rewrite Hneg in Hsleep.
         by injection Hsleep as <-.
       - intros pc Hpc Hdb. apply Forall_cons in Hdb as [Hdb _].
         rewrite (Hhist1 pc Hpc Hdb). simpl. lia. }
  (* the sleep returns *)
  assert (0 <= Runner.interval r /\ Runner.tick_sleep t = Py.Slept signalled)
    as [Hnonneg Hslept].
  { unfold Py.sleep in Hsleep. destruct (Runner.interval r <? 0) eqn:E; [done|].
    apply Z.ltb_ge in E. done. }
  set (r3 := if signalled then Runner._handle_signal r1 else r1) in *.
  destruct (IH r3 Hrun)
    as (used & rest & -> & Hcyc & Hdur & Hint & Hall & Hne & Hmid & Hend & Hneg & Hhist).
  assert (Runner.cycle r3 = Runner.cycle r + 1 /\
          Runner.duration r3 = Runner.duration r /\
          Runner.interval r3 = Runner.interval r /\
          Runner.monitor r3 = Runner.monitor r1 /\
          Runner.running r3 = negb signalled) as (Hc3 & Hd3 & Hi3 & Hm3 & Hr3).
  { subst r3. destruct signalled; simpl; by rewrite ?Hr. }
  rewrite Hd3 in Hall, Hend. rewrite Hi3 in Hmid, Hend.
  exists (t :: used), rest.
  split; [done|]. split; [rewrite Hcyc, Hc3; simpl length; lia|].
  split; [congruence|]. split; [congruence|].
  split; [by constructor|]. split; [done|].
  split.
  { intros u1 t0 u2 Heq Hu2. destruct u1 as [|t1 u1]; simpl in Heq.
    - injection Heq as <- <-. rewrite Hne in Hr3 by done.
      destruct signalled; [done|]. done.
    - injection Heq as <- ->. by eapply Hmid. }
  split.
  { destruct e as [r'|error r']; [exact Hend|].
    destruct Hend as (Hrun' & u & t0 & -> & Ht0 & Hsl). split; [done|].
    by exists (t :: u), t0. }
  split; [intros Hlt; lia|].
  intros pc Hpc Hdb. apply Forall_cons in Hdb as [Hdb1 Hdbs].
  rewrite (Hhist pc Hpc Hdbs), Hm3, (Hhist1 pc Hpc Hdb1). simpl length. lia.
Qed.

Lemma run_stops_on_budget_or_signal_witness :
  let tick at_ := {| Runner.tick_time := at_; Runner.tick_world := Fixture.connected;
                     Runner.tick_clock := Fixture.clock "c"; Runner.tick_now := "t";
                     Runner.tick_signal := false;
                     Runner.tick_sleep := Py.Slept false |} in
  (exists r' used rest,
     Runner.run 0%float [tick 0%float; tick 30%float; tick 60%float]
       (Runner.new_runner 30 60) = Some (Runner.Stopped r') /\
     [tick 0%float; tick 30%float; tick 60%float] = used ++ rest /\
     Runner.cycle r' = 0 + Z.of_nat (length used)) /\
  (exists r' used rest,
     Runner.run 0%float [tick 0%float; tick 30%float; tick 60%float]
       (Runner.new_runner (-1) 60)
     = Some (Runner.Aborted "sleep length must be non-negative" r') /\
     [tick 0%float; tick 30%float; tick 60%float] = used ++ rest /\
     Runner.cycle r' = 0 + Z.of_nat (length used) /\ Runner.running r' = true).
Proof.
  intros tick. split.
  - assert (exists r', Runner.run 0%float [tick 0%float; tick 30%float; tick 60%float]
                         (Runner.new_runner 30 60) = Some (Runner.Stopped r'))
      as [r' Hrun] by (eexists; reflexivity).
    destruct (run_stops_on_budget_or_signal _ _ _ _ Hrun)
      as (used & rest & Hsplit & Hcyc & _).
    exists r', used, rest. split; [exact Hrun|]. split; [exact Hsplit|exact Hcyc].
  - assert (exists r', Runner.run 0%float [tick 0%float; tick 30%float; tick 60%float]
                         (Runner.new_runner (-1) 60)
                       = Some (Runner.Aborted "sleep length must be non-negative" r'))
      as [r' Hrun] by (eexists; reflexivity).
    destruct (run_stops_on_budget_or_signal _ _ _ _ Hrun)
      as (used & rest & Hsplit & Hcyc & _ & _ & _ & _ & _ & [Hrunning _] & _).
    exists r', used, rest. split; [exact Hrun|]. split; [exact Hsplit|].
    split; [exact Hcyc|exact Hrunning].
Defined.

(** ** Health summary *)

Section SummaryFacts.
Import Runner.

Local Abbreviation leveled s := (status s = "OK" \/ status s = "WARN" \/ status s = "ERROR").

Lemma check_pc_leveled w now pc hm : leveled (snd (check_pc w now pc hm)).
Proof.
  unfold check_pc. destruct (Sim.db (w pc)); simpl; [|auto].
  destruct (check_pc_try w pc (new_status pc now)) as [s|s err] eqn:Htry; [|auto].
  apply check_pc_try_done_final in Htry as [s' ->].
  destruct (final_status_level s') as (_ & _ & ->).
  destruct (errors s'), (warnings s'); auto.
Qed.

Lemma set_Forall {V : Type} (P : V -> Prop) k v (d : list (string * V)) :
  P v -> Forall P (PyDict.values d) -> Forall P (PyDict.values (PyDict.set k v d)).
Proof.
  unfold PyDict.values. intros Hv. induction d as [|[k0 v0] d IH]; simpl; intros Hd.
  - by constructor.
  - apply Forall_cons in Hd as [H0 Hd]. destruct (String.eqb k0 k); simpl.
    + by constructor.
    + constructor; auto.
Qed.

Lemma check_pc_statuses_leveled w now pc hm :
  Forall (fun s => leveled s) (PyDict.values (statuses hm)) ->
  Forall (fun s => leveled s) (PyDict.values (statuses (fst (check_pc w now pc hm)))).
Proof.
  intros H. pose proof (check_pc_leveled w now pc hm) as Hs.
  unfold check_pc in *. destruct (Sim.db (w pc)); simpl in *; [|done].
  by apply set_Forall.
Qed.

Lemma levels_partition (l : list HealthStatus) :
  Forall (fun s => leveled s) l ->
  (length (List.filter (fun s => String.eqb (status s) "OK") l)
   + length (List.filter (fun s => String.eqb (status s) "WARN") l)
   + length (List.filter (fun s => String.eqb (status s) "ERROR") l)
   = length l)%nat.
Proof.
  induction 1 as [|s l Hs Hl IH]; [done|].
  simpl. destruct Hs as [-> | [-> | ->]]; simpl; lia.
Qed.

End SummaryFacts.

(** X7: for a monitor that has only been written by health checks,
    [get_summary] never raises, its three level counts add up to the number
    of nodes that have a current status, and the health percentage is "N/A"
    when no node has one. *)
Theorem health_summary_counts (checks : list (Sim.World * string * string)) :
  let hm := fold_left (fun hm c => fst (Runner.check_pc (fst (fst c)) (snd (fst c))
                                          (snd c) hm))
                      checks Runner.new_monitor in
  exists s, Runner.get_summary hm = Some s /\
    Runner.hs_total s = length (Runner.statuses hm) /\
    (Runner.hs_ok s + Runner.hs_warn s + Runner.hs_error s = Runner.hs_total s)%nat /\
    Runner.hs_alerts s = length (Runner.alerts hm) /\
    (Runner.hs_total s = 0%nat -> Runner.hs_health_pct s = "N/A").
Proof.
  intros hm.
  assert (Forall (fun s => Runner.status s = "OK" \/ Runner.status s = "WARN" \/
                           Runner.status s = "ERROR")
                 (PyDict.values (Runner.statuses hm))) as Hlev.
  { subst hm.
    assert (Forall (fun s => Runner.status s = "OK" \/ Runner.status s = "WARN" \/
                             Runner.status s = "ERROR")
                   (PyDict.values (Runner.statuses Runner.new_monitor))) as H0
        by constructor.
    revert H0. generalize Runner.new_monitor.
    induction checks as [|c checks IH]; intros hm0 H0; simpl; [done|].
    apply IH. by apply check_pc_statuses_leveled. }
  apply levels_partition in Hlev. unfold PyDict.values in Hlev. rewrite length_map in Hlev.
  unfold Runner.get_summary, Runner.count_level, PyDict.len, PyDict.values.
  destruct (Runner.statuses hm) as [|kv rest] eqn:Hst.
  - eexists. split; [reflexivity|]. simpl. done.
  - unfold Py.int_truediv.
    destruct (Z.of_nat (length (kv :: rest)) =? 0) eqn:E;
      [apply Z.eqb_eq in E; simpl in E; lia|].
    eexists. split; [reflexivity|]. cbn [Runner.hs_total Runner.hs_ok Runner.hs_warn
      Runner.hs_error Runner.hs_alerts Runner.hs_health_pct].
    split; [done|]. split; [exact Hlev|]. split; [done|]. simpl. lia.
Qed.

Lemma health_summary_counts_witness :
  exists s, Runner.get_summary Runner.new_monitor = Some s /\
    Runner.hs_health_pct s = "N/A".
Proof.
  destruct (health_summary_counts []) as (s & Hs & Ht & _ & _ & Hna).
  exists s. split; [exact Hs|]. apply Hna. rewrite Ht. reflexivity.
Defined.

(** ** Product findings at the edges *)

Section FindingEdgeFacts.
Import Runner.

Lemma of_rows_nil {V : Type} (key : V -> string) : PyDict.of_rows key [] = [].
Proof. done. Qed.

(** Each key contributes at most one element, carrying that key. *)
Lemma flat_map_keys_NoDup {V B : Type} (f : string * V -> list B) (g : B -> string)
    (d : list (string * V)) :
  NoDup (PyDict.keys d) ->
  (forall x, In x d -> f x = [] \/ exists y, f x = [y] /\ g y = fst x) ->
  NoDup (map g (flat_map f d)) /\
  (forall k, In k (map g (flat_map f d)) -> In k (PyDict.keys d)) /\
  (length (flat_map f d) <= length d)%nat.
Proof.
  unfold PyDict.keys. induction d as [|x d IH]; intros Hnd Hf; simpl.
  - split; [constructor|]. split; [done|lia].
  - apply NoDup_cons in Hnd as [Hx Hnd].
    destruct IH as (IH1 & IH2 & IH3); [done|intros; apply Hf; by right|].
    destruct (Hf x) as [->|(y & -> & Hy)]; [by left| |]; simpl.
    + split; [done|]. split; [auto|lia].
    + split.
      * constructor; [|done]. rewrite Hy. intros Hin. apply Hx.
        apply list_elem_of_In, IH2. by apply list_elem_of_In.
      * split; [|lia]. intros k [<-|Hk]; [by left|right; auto].
Qed.

End FindingEdgeFacts.

(** X8: when the master's products cannot be read (its dataset file is
    missing, the statement fails or the table is empty), the product pass
    reports no inconsistency at all, whatever the satellites hold. *)
Theorem master_unavailable_no_findings (w : Sim.World) (now : string)
    (v : Runner.SyncValidator) :
  Runner.db_query w "PC-PDV-01" Sim.products_by_id = [] ->
  snd (Runner.validate_products w now v) = [] /\
  Runner.inconsistencies (fst (Runner.validate_products w now v)) = [].
Proof.
  intros Hm. simpl. rewrite product_issues_flat. unfold Runner.product_dict.
  rewrite Hm. simpl. done.
Qed.

Lemma master_unavailable_no_findings_witness :
  snd (Runner.validate_products Fixture.no_employees "t1" Runner.new_validator) = [].
Proof.
  by destruct (master_unavailable_no_findings Fixture.no_employees "t1"
                 Runner.new_validator eq_refl).
Defined.

(** X9: a satellite of the roster whose products cannot be read is
    reported as missing every product of the master, one MISSING_PRODUCT
    per product in the master's order, and no PRICE_MISMATCH. *)
Theorem satellite_unavailable_all_missing (w : Sim.World) (peer : string) :
  In peer (map Sim.pc_id Sim.PC_CONFIG) -> peer <> "PC-PDV-01" ->
  Runner.db_query w peer Sim.products_by_id = [] ->
  List.filter (fun i => String.eqb (Runner.issue_pc i) peer) (Runner.product_issues w)
  = map (fun kv => Runner.MISSING_PRODUCT peer (fst kv)
                     ("Product " +:+ Sim.name (snd kv) +:+ " missing on " +:+ peer))
        (Runner.product_dict w "PC-PDV-01").
Proof.
  intros Hpeer Hne Hl. apply in_map_iff in Hpeer as (cfg & <- & Hcfg).
  rewrite product_issues_flat.
  rewrite (filter_findings w _ cfg); [|apply roster_ids_distinct|done].
  apply String.eqb_neq in Hne. rewrite Hne.
  assert (Runner.product_dict w (Sim.pc_id cfg) = []) as ->
      by (unfold Runner.product_dict; by rewrite Hl).
  generalize (Runner.product_dict w "PC-PDV-01"). intros md.
  assert (Runner.price_mismatches (Sim.pc_id cfg) md [] = []) as ->
      by (apply flat_map_none; by intros [pid m] _).
  rewrite app_nil_r. unfold Runner.missing_products.
  induction md as [|[pid m] md IH]; [done|]. simpl. f_equal. exact IH.
Qed.

Lemma satellite_unavailable_all_missing_witness :
  List.filter (fun i => String.eqb (Runner.issue_pc i) "PC-ESTQ")
              (Runner.product_issues
                 (fun pc => if String.eqb pc "PC-ESTQ" then Fixture.offline pc
                            else Fixture.lagging pc))
  = [Runner.MISSING_PRODUCT "PC-ESTQ" "A" "Product Oil filter missing on PC-ESTQ";
     Runner.MISSING_PRODUCT "PC-ESTQ" "B" "Product Brake pad missing on PC-ESTQ";
     Runner.MISSING_PRODUCT "PC-ESTQ" "C" "Product Spark plug missing on PC-ESTQ"].
Proof.
  rewrite satellite_unavailable_all_missing.
  - reflexivity.
  - simpl. tauto.
  - discriminate.
  - reflexivity.
Defined.

(** X10: among the findings about one node, no product appears twice: a
    product of the master is reported as missing on that node, or as
    mismatched, or not at all, so the findings about a node are never more
    than the master's products. *)
Theorem one_finding_per_product (w : Sim.World) (peer : string) :
  let about_peer :=
    List.filter (fun i => String.eqb (Runner.issue_pc i) peer) (Runner.product_issues w) in
  NoDup (map Runner.issue_product about_peer) /\
  (length about_peer <= length (Runner.product_dict w "PC-PDV-01"))%nat.
Proof.
  intros about_peer. subst about_peer. rewrite product_issues_flat.
  destruct (in_dec string_dec peer (map Sim.pc_id Sim.PC_CONFIG)) as [Hin|Hnin].
  2: { rewrite filter_none; [split; [constructor|simpl; lia]|].
       intros i Hi. apply in_flat_map in Hi as (pc & Hpc & Hi).
       apply findings_pc in Hi. rewrite Hi. apply String.eqb_neq.
       intros <-. apply Hnin. by apply in_map. }
  apply in_map_iff in Hin as (cfg & <- & Hcfg).
  rewrite (filter_findings w _ cfg); [|apply roster_ids_distinct|done].
  destruct (String.eqb (Sim.pc_id cfg) "PC-PDV-01"); [split; [constructor|simpl; lia]|].
  set (md := Runner.product_dict w "PC-PDV-01").
  set (ld := Runner.product_dict w (Sim.pc_id cfg)).
  assert (NoDup (PyDict.keys md)) as Hnd by apply of_rows_NoDup.
  destruct (flat_map_keys_NoDup
              (fun '(prod_id, master_prod) =>
                 if PyDict.mem prod_id ld then []
                 else [Runner.MISSING_PRODUCT (Sim.pc_id cfg) prod_id
                         ("Product " +:+ Sim.name master_prod +:+ " missing on "
                            +:+ Sim.pc_id cfg)])
              Runner.issue_product md Hnd)
    as (Hm1 & Hm2 & _).
  { intros [pid m] _. simpl. destruct (PyDict.mem pid ld); eauto. }
  destruct (flat_map_keys_NoDup
              (fun '(prod_id, master_prod) =>
                 match PyDict.get prod_id ld with
                 | Some local_prod =>
                     if Runner.price_differs (Sim.sale_price master_prod)
                                             (Sim.sale_price local_prod)
                     then [Runner.PRICE_MISMATCH (Sim.pc_id cfg) prod_id
                             (Sim.sale_price master_prod) (Sim.sale_price local_prod)]
                     else []
                 | None => []
                 end)
              Runner.issue_product md Hnd)
    as (Hp1 & Hp2 & _).
  { intros [pid m] _. simpl.
    destruct (PyDict.get pid ld); [destruct (Runner.price_differs _ _)|]; eauto. }
  fold (Runner.missing_products (Sim.pc_id cfg) md ld) in Hm1, Hm2.
  fold (Runner.price_mismatches (Sim.pc_id cfg) md ld) in Hp1, Hp2.
  assert (NoDup (map Runner.issue_product
                   (Runner.missing_products (Sim.pc_id cfg) md ld
                    ++ Runner.price_mismatches (Sim.pc_id cfg) md ld))) as Hall.
  { rewrite map_app. apply NoDup_app. split; [done|]. split; [|done].
    intros pid Hmiss Hmis. apply list_elem_of_In in Hmiss, Hmis.
    apply in_map_iff in Hmiss as (i & <- & Hi).
    apply in_map_iff in Hmis as (i' & Heq & Hi').
    apply missing_products_In in Hi as (p1 & m1 & _ & Hmem & ->).
    apply price_mismatches_In in Hi' as (p2 & m2 & l2 & _ & Hget & _ & ->).
    simpl in Heq. subst p2. unfold PyDict.mem in Hmem. by rewrite Hget in Hmem. }
  split; [exact Hall|].
  rewrite <- (length_map Runner.issue_product).
  replace (length md) with (length (PyDict.keys md)) by apply length_map.
  apply NoDup_incl_length; [by apply NoDup_ListNoDup|].
  intros pid Hpid. rewrite map_app in Hpid. apply in_app_iff in Hpid as [H|H]; auto.
Qed.

(** X11: [validate_employees] reports a satellite of the roster exactly
    when some employee id of the master is absent on it, and never the
    master. The reported count is the number of absent ids; the ids listed
    are absent ones, without repetition, and there are min(5, count) of
    them, in whatever order Python lists the set. *)
Theorem validate_employees_reports (listing : gset string -> list string)
    (w : Sim.World) (employees : string -> Sim.Sql (list string)) :
  (forall s, listing s ≡ₚ elements s) ->
  let ids_of pc : gset string :=
    list_to_set (Runner.db_query w pc (fun _ => employees pc)) in
  let issues := Runner.validate_employees listing w employees in
  (forall pc n ids,
     In (Runner.MISSING_EMPLOYEES pc n ids) issues ->
     In pc (map Sim.pc_id Sim.PC_CONFIG) /\ pc <> "PC-PDV-01" /\
     n = size (ids_of "PC-PDV-01" ∖ ids_of pc) /\ (0 < n)%nat /\
     length ids = Nat.min 5 n /\ NoDup ids /\
     (forall id, In id ids -> id ∈ ids_of "PC-PDV-01" /\ id ∉ ids_of pc)) /\
  (forall pc id,
     In pc (map Sim.pc_id Sim.PC_CONFIG) -> pc <> "PC-PDV-01" ->
     id ∈ ids_of "PC-PDV-01" -> id ∉ ids_of pc ->
     exists n ids, In (Runner.MISSING_EMPLOYEES pc n ids) issues).
Proof.
  intros Hperm ids_of issues. subst issues. unfold Runner.validate_employees.
  fold (ids_of "PC-PDV-01"). split.
  - intros pc n ids Hin. apply in_flat_map in Hin as (cfg & Hcfg & Hin).
    destruct (String.eqb (Sim.pc_id cfg) "PC-PDV-01") eqn:E; [done|].
    apply String.eqb_neq in E. fold (ids_of (Sim.pc_id cfg)) in Hin.
    set (missing := ids_of "PC-PDV-01" ∖ ids_of (Sim.pc_id cfg)) in *.
    destruct (size missing =? 0)%nat eqn:E0; [done|]. apply Nat.eqb_neq in E0.
    destruct Hin as [[= <- <- <-]|[]].
    assert (length (listing missing) = size missing) as Hlen.
    { rewrite (Permutation_length (Hperm missing)). done. }
    assert (NoDup (listing missing)) as Hnd.
    { rewrite (Hperm missing). apply NoDup_elements. }
    split; [by apply in_map|]. split; [done|]. split; [done|]. split; [lia|].
    split; [by rewrite length_firstn, Hlen|]. split.
    + apply NoDup_ListNoDup. apply NoDup_ListNoDup in Hnd.
      rewrite <- (firstn_skipn 5 (listing missing)) in Hnd.
      by apply List.NoDup_app_remove_r in Hnd.
    + intros id Hid.
      assert (In id (listing missing)) as Hid'.
      { rewrite <- (firstn_skipn 5 (listing missing)). apply in_app_iff. by left. }
      clear Hid. rename Hid' into Hid. apply list_elem_of_In in Hid.
      rewrite (Hperm missing) in Hid. apply elem_of_elements in Hid.
      by apply elem_of_difference in Hid.
  - intros pc id Hpc Hne Hm Hl. apply in_map_iff in Hpc as (cfg & <- & Hcfg).
    set (missing := ids_of "PC-PDV-01" ∖ ids_of (Sim.pc_id cfg)).
    exists (size missing), (firstn 5 (listing missing)).
    apply in_flat_map. exists cfg. split; [done|].
    apply String.eqb_neq in Hne. rewrite Hne. fold (ids_of (Sim.pc_id cfg)). fold missing.
    destruct (size missing =? 0)%nat eqn:E0; [|by left].
    apply Nat.eqb_eq, size_empty_iff in E0.
    assert (id ∈ missing) as Hid by (by apply elem_of_difference).
    rewrite E0 in Hid. by apply elem_of_empty in Hid.
Qed.

Lemma validate_employees_reports_witness :
  exists ids,
    Runner.validate_employees elements Fixture.connected Fixture.employee_ids
    = [Runner.MISSING_EMPLOYEES "PC-PDV-02" 6 ids] /\ length ids = 5%nat.
Proof.
  destruct (validate_employees_reports elements Fixture.connected Fixture.employee_ids)
    as [H _]; [done|].
  eexists. split; [vm_compute; reflexivity|].
  match goal with
  | |- length ?l = _ =>
      destruct (H "PC-PDV-02" 6%nat l) as (_ & _ & _ & _ & Hlen & _);
        [vm_compute; by left|exact Hlen]
  end.
Defined.

(** ** Logger and registry *)

Section LoggerFacts.
Import Harness.

(** The entries among a list of writes. *)
Local Abbreviation entries_of writes :=
  (flat_map (fun e => match e with Log entry => [entry] | Register _ => [] end) writes).

Local Abbreviation is_error entry :=
  (String.eqb (level entry) "ERROR" || String.eqb (level entry) "FATAL").

Lemma exec_logger writes : forall g,
  let lg := logger (exec writes g) in
  _entries lg = _entries (logger g) ++ entries_of writes /\
  _error_count lg =
    _error_count (logger g)
    + Z.of_nat (length (List.filter (fun e => is_error e) (entries_of writes))) /\
  _warn_count lg =
    _warn_count (logger g)
    + Z.of_nat (length (List.filter (fun e => String.eqb (level e) "WARN")
                                    (entries_of writes))).
Proof.
  induction writes as [|e writes IH]; intros g; cbn zeta.
  - simpl. rewrite app_nil_r. repeat split; lia.
  - change (exec (e :: writes) g) with (exec writes (perform g e)).
    destruct (IH (perform g e)) as (H1 & H2 & H3). cbn zeta in *.
    rewrite H1, H2, H3. destruct e as [entry|result]; simpl.
    + rewrite <- app_assoc. split; [done|].
      destruct (String.eqb (level entry) "ERROR") eqn:E1; simpl.
      { assert (String.eqb (level entry) "WARN" = false) as ->.
        { apply String.eqb_eq in E1. by rewrite E1. }
        simpl. lia. }
      destruct (String.eqb (level entry) "FATAL") eqn:E2; simpl.
      { assert (String.eqb (level entry) "WARN" = false) as ->.
        { apply String.eqb_eq in E2. by rewrite E2. }
        simpl. lia. }
      destruct (String.eqb (level entry) "WARN"); simpl; lia.
    + split; [done|lia].
Qed.

End LoggerFacts.

(** X12: the logger keeps every entry in the order of the calls, and its
    two counters are exact: after any sequence of writes to a fresh logger,
    [_error_count] is the number of entries of level ERROR or FATAL and
    [_warn_count] the number of entries of level WARN; registrations leave
    the logger untouched. *)
Theorem logger_counters_exact (writes : list Harness.Effect)
    (reg : Harness.TestRegistry) :
  let lg := Harness.logger
              (Harness.exec writes
                 {| Harness.logger := Harness.new_logger;
                    Harness.test_registry := reg |}) in
  let logged :=
    flat_map (fun e => match e with
                       | Harness.Log entry => [entry]
                       | Harness.Register _ => []
                       end) writes in
  Harness._entries lg = logged /\
  Harness.total_entries (Harness.logger_get_summary lg) = length logged /\
  Harness.error_count (Harness.logger_get_summary lg) =
    Z.of_nat (length (List.filter
                        (fun e => String.eqb (Harness.level e) "ERROR"
                                  || String.eqb (Harness.level e) "FATAL") logged)) /\
  Harness.warn_count (Harness.logger_get_summary lg) =
    Z.of_nat (length (List.filter
                        (fun e => String.eqb (Harness.level e) "WARN") logged)).
Proof.
  cbn zeta.
  destruct (exec_logger writes
              {| Harness.logger := Harness.new_logger; Harness.test_registry := reg |})
    as (H1 & H2 & H3).
  cbn zeta in *. simpl in H1, H2, H3. unfold Harness.logger_get_summary. simpl.
  rewrite H1, H2, H3. done.
Qed.

Section RegistryFacts.
Import Harness.

Lemma set_set_same {V : Type} k (v1 v2 : V) d :
  PyDict.set k v2 (PyDict.set k v1 d) = PyDict.set k v2 d.
Proof.
  induction d as [|[k0 v0] d IH]; simpl.
  - by rewrite String.eqb_refl.
  - destruct (String.eqb k0 k) eqn:E; simpl; rewrite E; [done|]. by rewrite IH.
Qed.

Lemma set_len {V : Type} k (v : V) d :
  length (PyDict.set k v d) = if PyDict.mem k d then length d else S (length d).
Proof.
  unfold PyDict.mem. induction d as [|[k0 v0] d IH]; simpl; [done|].
  destruct (String.eqb k0 k); simpl; [done|]. rewrite IH.
  by destruct (PyDict.get k d).
Qed.

End RegistryFacts.

(** X13: the registry is keyed by test id: registering a result stores it
    under its id and leaves the results of other ids alone; the number of
    results grows by one for a new id and stays the same for a known one,
    whose earlier result is replaced in place, so that registering twice
    under one id is the same as registering the second result only. *)
Theorem register_overwrites (r1 r2 : Harness.TestResult) (reg : Harness.TestRegistry) :
  PyDict.get (Harness.test_id r1) (Harness._results (Harness.register r1 reg)) = Some r1 /\
  (forall id, id <> Harness.test_id r1 ->
     PyDict.get id (Harness._results (Harness.register r1 reg))
     = PyDict.get id (Harness._results reg)) /\
  PyDict.len (Harness._results (Harness.register r1 reg)) =
    (if PyDict.mem (Harness.test_id r1) (Harness._results reg)
     then PyDict.len (Harness._results reg)
     else S (PyDict.len (Harness._results reg))) /\
  (Harness.test_id r1 = Harness.test_id r2 ->
     Harness.register r2 (Harness.register r1 reg) = Harness.register r2 reg /\
     PyDict.keys (Harness._results (Harness.register r2 (Harness.register r1 reg)))
     = PyDict.keys (Harness._results (Harness.register r1 reg))).
Proof.
  split; [apply register_get|]. split.
  { intros id Hne. unfold Harness.register; simpl. by apply get_set_other. }
  split; [apply set_len|].
  intros Hid. unfold Harness.register; simpl. rewrite <- Hid. split.
  - by rewrite set_set_same.
  - apply keys_set_present. unfold PyDict.mem. by rewrite get_set_same.
Qed.

Lemma register_overwrites_witness :
  Harness.register (Fixture.result "r0" Harness.FAILED)
    (Harness.register (Fixture.result "r0" Harness.PASSED) (Harness.new_registry 0%float))
  = Harness.register (Fixture.result "r0" Harness.FAILED) (Harness.new_registry 0%float).
Proof.
  destruct (register_overwrites (Fixture.result "r0" Harness.PASSED)
              (Fixture.result "r0" Harness.FAILED) (Harness.new_registry 0%float))
    as (_ & _ & _ & H).
  by destruct (H eq_refl).
Defined.

(** ** Summary and exit code *)

Section ReportFacts.
Import Harness.

Local Abbreviation terminal r :=
  (status r = PASSED \/ status r = FAILED \/ status r = ERROR).

Lemma status_counts (l : list TestResult) :
  (length (List.filter (fun r => status_eqb (status r) PASSED) l)
   + length (List.filter (fun r => status_eqb (status r) FAILED) l)
   + length (List.filter (fun r => status_eqb (status r) ERROR) l)
   <= length l)%nat /\
  (Forall (fun r => terminal r) l ->
   (length (List.filter (fun r => status_eqb (status r) PASSED) l)
    + length (List.filter (fun r => status_eqb (status r) FAILED) l)
    + length (List.filter (fun r => status_eqb (status r) ERROR) l)
    = length l)%nat).
Proof.
  induction l as [|r l [IH1 IH2]]; [done|]. split.
  - simpl. destruct (status r); simpl; lia.
  - intros H. apply Forall_cons in H as [Hr Hl]. specialize (IH2 Hl).
    simpl. destruct Hr as [-> | [-> | ->]]; simpl; lia.
Qed.

Lemma failed_filter_nil (l : list TestResult) :
  List.filter (fun r => status_eqb (status r) FAILED || status_eqb (status r) ERROR) l = []
  <-> length (List.filter (fun r => status_eqb (status r) FAILED) l) = 0%nat /\
      length (List.filter (fun r => status_eqb (status r) ERROR) l) = 0%nat.
Proof.
  induction l as [|r l IH]; [done|].
  simpl. destruct (status r); simpl; rewrite ?IH; split; try done; intros [? ?]; done.
Qed.

Lemma get_summary_fields now reg :
  exists s, get_summary now reg = Some s /\
    total s = PyDict.len (_results reg) /\
    passed s = count_status PASSED reg /\
    failed s = count_status FAILED reg /\
    errors s = count_status ERROR reg /\
    results s = PyDict.values (_results reg) /\
    duration_s s = PrimFloat.sub now (_start_time reg).
Proof.
  unfold get_summary. destruct (PyDict.len (_results reg)) as [|n] eqn:Hn.
  - simpl. eexists. split; [reflexivity|]. done.
  - change (0 <? S n)%nat with true. cbv iota. unfold percent_1f, Py.int_truediv.
    destruct (Z.of_nat (S n) =? 0) eqn:E; [apply Z.eqb_eq in E; lia|].
    eexists. split; [reflexivity|]. done.
Qed.

(** Everything in the registry was put there by a registration. *)
Lemma exec_registry_values (P : TestResult -> Prop) writes : forall g,
  Forall P (PyDict.values (_results (test_registry g))) ->
  Forall (fun e => match e with Register r => P r | Log _ => True end) writes ->
  Forall P (PyDict.values (_results (test_registry (exec writes g)))).
Proof.
  induction writes as [|e writes IH]; intros g Hg Hw; [done|].
  apply Forall_cons in Hw as [He Hw].
  change (exec (e :: writes) g) with (exec writes (perform g e)).
  apply IH; [|done]. destruct e as [entry|r]; simpl; [done|].
  by apply set_Forall.
Qed.

End ReportFacts.

(** X14: [get_summary] never raises; the results it lists are the
    registered ones and [total] is their number; [passed + failed + errors]
    never exceeds [total] and equals it when every registered result is
    PASSED, FAILED or ERROR, which is the case for a registry that was empty
    before a batch [run_pc_tests] wrote to it. *)
Theorem summary_counts_add_up (now : float) (reg : Harness.TestRegistry) :
  exists s, Harness.get_summary now reg = Some s /\
    Harness.results s = PyDict.values (Harness._results reg) /\
    Harness.total s = length (Harness.results s) /\
    (Harness.passed s + Harness.failed s + Harness.errors s <= Harness.total s)%nat /\
    (Forall (fun r => Harness.status r = Harness.PASSED \/
                      Harness.status r = Harness.FAILED \/
                      Harness.status r = Harness.ERROR) (Harness.results s) ->
     (Harness.passed s + Harness.failed s + Harness.errors s = Harness.total s)%nat) /\
    (forall table stamps pc scenarios (g : Harness.Globals),
       Harness._results (Harness.test_registry g) = [] ->
       reg = Harness.test_registry
               (Harness.exec
                  (Harness.call_writes (Harness.run_pc_tests table stamps pc scenarios))
                  g) ->
       (Harness.passed s + Harness.failed s + Harness.errors s = Harness.total s)%nat).
Proof.
  destruct (get_summary_fields now reg) as (s & Hs & Ht & Hp & Hf & He & Hr & _).
  exists s. split; [done|]. split; [done|].
  destruct (status_counts (PyDict.values (Harness._results reg))) as [Hle Heq].
  unfold Harness.count_status in *. unfold PyDict.len, PyDict.values in *.
  rewrite length_map in Hle, Heq.
  rewrite Hr, Ht, Hp, Hf, He. split; [by rewrite length_map|]. split; [exact Hle|].
  split; [exact Heq|].
  intros table stamps pc scenarios g Hempty ->. apply Heq.
  apply (exec_registry_values _ _ g).
  - unfold PyDict.values. rewrite Hempty. constructor.
  - apply run_pc_tests_terminal.
Qed.

Lemma summary_counts_add_up_witness :
  exists s,
    Harness.get_summary 60%float
      (Harness.test_registry
         (Harness.exec
            (Harness.call_writes
               (Harness.run_pc_tests Fixture.data_table (fun _ => Fixture.stamp)
                  "PC-GER" ["database"; "network"]))
            {| Harness.logger := Harness.new_logger;
               Harness.test_registry := Harness.new_registry 0%float |})) = Some s /\
    (Harness.passed s + Harness.failed s + Harness.errors s = Harness.total s)%nat.
Proof.
  destruct (summary_counts_add_up 60%float
              (Harness.test_registry
                 (Harness.exec
                    (Harness.call_writes
                       (Harness.run_pc_tests Fixture.data_table (fun _ => Fixture.stamp)
                          "PC-GER" ["database"; "network"]))
                    {| Harness.logger := Harness.new_logger;
                       Harness.test_registry := Harness.new_registry 0%float |})))
    as (s & Hs & _ & _ & _ & _ & Hbatch).
  exists s. split; [exact Hs|].
  apply (Hbatch Fixture.data_table (fun _ => Fixture.stamp) "PC-GER"
           ["database"; "network"]
           {| Harness.logger := Harness.new_logger;
              Harness.test_registry := Harness.new_registry 0%float |});
    reflexivity.
Defined.

(** X15: the exit code computed at the end of [main] is 0 exactly when the
    list of failed tests that [print_summary] prints is empty, that is when
    no registered result is FAILED or ERROR, and 1 otherwise; results that
    are SKIPPED, PENDING or RUNNING do not affect it. *)
Theorem exit_code_zero_iff (now : float) (reg : Harness.TestRegistry) (s : Harness.Summary) :
  Harness.get_summary now reg = Some s ->
  (Harness.exit_code s = 0 <-> Harness.failed_tests reg = []) /\
  (Harness.exit_code s = 1 <->
     exists r, In r (PyDict.values (Harness._results reg)) /\
       (Harness.status r = Harness.FAILED \/ Harness.status r = Harness.ERROR)).
Proof.
  intros Hs. destruct (get_summary_fields now reg) as (s' & Hs' & _ & _ & Hf & He & _).
  rewrite Hs in Hs'. injection Hs' as <-.
  unfold Harness.exit_code, Harness.failed_tests. rewrite Hf, He.
  unfold Harness.count_status.
  pose proof (failed_filter_nil (PyDict.values (Harness._results reg))) as Hnil.
  set (fs := List.filter _ _) in *.
  assert (fs = [] \/ exists r, In r (PyDict.values (Harness._results reg)) /\
            (Harness.status r = Harness.FAILED \/ Harness.status r = Harness.ERROR))
    as Hcases.
  { destruct fs as [|r fs'] eqn:Hfs; [by left|]. right. exists r.
    assert (In r fs) as Hin by (rewrite Hfs; by left).
    subst fs. apply List.filter_In in Hin as [Hin Hst]. split; [done|].
    destruct (Harness.status r); simpl in Hst; auto; done. }
  assert ((exists r, In r (PyDict.values (Harness._results reg)) /\
             (Harness.status r = Harness.FAILED \/ Harness.status r = Harness.ERROR))
          -> fs <> []) as Hne.
  { intros (r & Hin & Hst) Hfs.
    assert (In r fs) as Hr.
    { subst fs. apply List.filter_In. split; [done|]. by destruct Hst as [-> | ->]. }
    by rewrite Hfs in Hr. }
  destruct (length (List.filter (fun r => Harness.status_eqb (Harness.status r)
                                            Harness.FAILED) _) =? 0)%nat eqn:E1;
    destruct (length (List.filter (fun r => Harness.status_eqb (Harness.status r)
                                              Harness.ERROR) _) =? 0)%nat eqn:E2;
    simpl.
  - apply Nat.eqb_eq in E1, E2.
    assert (fs = []) as Hfs by (by apply Hnil). split; [done|].
    split; [done|]. intros H. by apply Hne in H.
  - apply Nat.eqb_neq in E2.
    assert (fs <> []) as Hfs by (intros H; apply Hnil in H; destruct H; lia).
    split; [split; [done|intros H; by apply Hfs in H]|].
    split; [intros _; destruct Hcases; [contradiction|done]|done].
  - apply Nat.eqb_neq in E1.
    assert (fs <> []) as Hfs by (intros H; apply Hnil in H; destruct H; lia).
    split; [split; [done|intros H; by apply Hfs in H]|].
    split; [intros _; destruct Hcases; [contradiction|done]|done].
  - apply Nat.eqb_neq in E1.
    assert (fs <> []) as Hfs by (intros H; apply Hnil in H; destruct H; lia).
    split; [split; [done|intros H; by apply Hfs in H]|].
    split; [intros _; destruct Hcases; [contradiction|done]|done].
Qed.

Lemma exit_code_zero_iff_witness :
  exists s, Harness.get_summary 60%float Fixture.ten_results = Some s /\
    Harness.exit_code s = 1.
Proof.
  assert (exists s, Harness.get_summary 60%float Fixture.ten_results = Some s) as [s Hs]
      by (eexists; reflexivity).
  exists s. split; [exact Hs|].
  destruct (exit_code_zero_iff _ _ _ Hs) as [_ H]. apply H.
  exists (Fixture.result "r1" Harness.FAILED). split; [|by left].
  vm_compute. tauto.
Defined.

(** ** Batches in order *)

Section OrderFacts.
Import Harness.

Lemma run_tests_in_order stamps pc tests : forall k,
  (forall n c fn, In (n, c, fn) tests -> exists logged o, fn pc = Returns logged o) ->
  exists rs,
    call_value (run_tests stamps k pc tests) = Some rs /\
    map (fun r => (test_name r, test_category r)) rs = map fst tests /\
    Forall (fun r => pc_id r = pc) rs /\
    (forall i r, nth_error rs i = Some r ->
       test_id r = pc +:+ "_" +:+ test_name r +:+ "_" +:+ uid (stamps (k + i)%nat) /\
       duration_ms r
       = PrimFloat.mul (PrimFloat.sub (finish (stamps (k + i)%nat))
                                      (start (stamps (k + i)%nat))) 1000).
Proof.
  induction tests as [|[[n c] fn] tests IH]; intros k Hret.
  - exists []. simpl. split; [done|]. split; [done|]. split; [constructor|].
    intros i r H. by destruct i.
  - destruct (Hret n c fn) as (logged & o & Hfn); [by left|].
    pose proof (run_test_returns (stamps k) pc n c fn logged o Hfn) as Hrun.
    destruct (classify pc n o) as [[[fs err] st] caught].
    destruct Hrun as (before & final & Hrun).
    destruct (IH (S k)) as (rs & Hrs & Hnames & Hpc & Hids);
      [intros n' c' fn' Hin; apply (Hret n' c' fn'); by right|].
    cbn [run_tests]. unfold bind, ret. rewrite Hrun.
    destruct (run_tests stamps (S k) pc tests) as [ws rs'|ws]; [|done].
    injection Hrs as ->. eexists. split; [reflexivity|].
    split; [simpl; by rewrite Hnames|]. split; [by constructor|].
    intros i r Hi. destruct i as [|i]; simpl in Hi.
    + injection Hi as <-. simpl. by rewrite Nat.add_0_r.
    + rewrite <- Nat.add_succ_comm. by apply Hids.
Qed.

End OrderFacts.

(** X16: when every check of the selected scenarios comes back on the
    node, [run_pc_tests] returns one result per check, in the order of the
    scenario list and, within a scenario, in the declared order; a scenario
    name that is not in the table contributes nothing. Each result carries
    the node id, the check's name and category, and the id and duration
    made from the readings of its own run. *)
Theorem batch_results_in_order (table : Harness.ScenarioTests)
    (stamps : nat -> Harness.Stamp) (pc : string) (scenarios : list string) :
  let tests :=
    flat_map (fun scenario =>
                match PyDict.get scenario table with
                | Some ts => ts
                | None => []
                end) scenarios in
  (forall n c fn, In (n, c, fn) tests -> exists logged o, fn pc = Harness.Returns logged o) ->
  exists rs,
    Harness.call_value (Harness.run_pc_tests table stamps pc scenarios) = Some rs /\
    map (fun r => (Harness.test_name r, Harness.test_category r)) rs = map fst tests /\
    Forall (fun r => Harness.pc_id r = pc) rs /\
    (forall i r, nth_error rs i = Some r ->
       Harness.test_id r =
         pc +:+ "_" +:+ Harness.test_name r +:+ "_" +:+ Harness.uid (stamps i) /\
       Harness.duration_ms r =
         PrimFloat.mul (PrimFloat.sub (Harness.finish (stamps i))
                                      (Harness.start (stamps i))) 1000).
Proof.
  intros tests Hret.
  destruct (run_tests_in_order stamps pc tests 0%nat Hret) as (rs & Hrs & H).
  exists rs. split; [|exact H].
  unfold Harness.run_pc_tests, Harness.bind, Harness.write, Harness.ret.
  fold tests. by destruct (Harness.run_tests stamps 0 pc tests) as [ws rs'|ws].
Qed.

Lemma batch_results_in_order_witness :
  exists rs,
    Harness.call_value
      (Harness.run_pc_tests Fixture.hanging_table (fun _ => Fixture.stamp) "PC-ADM"
         ["unknown"; "database"]) = Some rs /\
    map (fun r => (Harness.test_name r, Harness.test_category r)) rs
    = [("test_database_integrity", "DATABASE")].
Proof.
  destruct (batch_results_in_order Fixture.hanging_table (fun _ => Fixture.stamp)
              "PC-ADM" ["unknown"; "database"]) as (rs & Hrs & Hnames & _).
  - intros n c fn [[= <- <- <-]|[]]. eexists _, _. reflexivity.
  - exists rs. split; [exact Hrs|exact Hnames].
Defined.

(** ** The checks of the harness *)

Section CheckFacts.
Import Harness.

(** A check that raises without logging is an ERROR for [run_test]. *)
Lemma run_test_raised st pc test_name category (test_fn : TestFn) logged msg :
  test_fn pc = Returns logged (RaisedException msg) ->
  exists r, call_value (run_test st pc test_name category test_fn) = Some r /\
    status r = ERROR /\ failures r = [] /\ error_msg r = Some msg.
Proof.
  intros Hfn.
  pose proof (run_test_returns st pc test_name category test_fn logged _ Hfn) as H.
  cbn [classify] in H. destruct H as (before & final & ->). eauto.
Qed.

Lemma db_query_missing {A : Type} (w : Sim.World) pc (q : Sim.Database -> Sim.Sql A) :
  Sim.db (w pc) = None ->
  db_query w pc q = Raise ("Database not found: " +:+ Sim.get_db_path pc).
Proof. intros H. unfold db_query, db_connect. by rewrite H. Qed.

Lemma db_query_present {A : Type} (w : Sim.World) pc d (q : Sim.Database -> Sim.Sql A) :
  Sim.db (w pc) = Some d ->
  db_query w pc q = match q d with Sim.Rows r => Ok r | Sim.SqlError msg => Raise msg end.
Proof. intros H. unfold db_query, db_connect. by rewrite H. Qed.

(** The roster entry of a node, and who is the master in it. *)
Lemma pc_info_roster pc :
  In pc (map Sim.pc_id Sim.PC_CONFIG) ->
  exists cfg, pc_info pc = Some cfg /\ Sim.pc_id cfg = pc /\
    String.eqb (Sim.pc_role cfg) "MASTER" = String.eqb pc "PC-PDV-01".
Proof.
  simpl. intros H.
  repeat (destruct H as [<-|H]; [eexists; split; [reflexivity|split; reflexivity]|]).
  done.
Qed.

Lemma pc_info_unknown pc :
  ~ In pc (map Sim.pc_id Sim.PC_CONFIG) -> pc_info pc = None.
Proof.
  intros H. unfold pc_info.
  destruct (List.find _ _) as [cfg|] eqn:E; [|done].
  apply List.find_some in E as [Hin Heq]. apply String.eqb_eq in Heq.
  exfalso. apply H. rewrite <- Heq. by apply in_map.
Qed.

End CheckFacts.

(** X17: on a node whose dataset file is missing the harness's database
    checks do not fail, they raise: [test_required_data] and
    [test_network_config] raise "Database not found: <path of the node's
    giro.db>" before logging anything, [test_stock_consistency] and
    [test_product_sync_master_to_satellite] raise as well, and [run_test]
    records each as ERROR with the message in [error] and no failure
    message. *)
Theorem missing_database_is_error (w : Sim.World) (st : Harness.Stamp)
    (pc test_name category : string) :
  Sim.db (w pc) = None ->
  (forall fn, In fn [Harness.test_required_data w; Harness.test_network_config w] ->
     fn pc = Harness.Returns []
               (Harness.RaisedException
                  ("Database not found: /tmp/giro-sim/" +:+ pc +:+ "/data/GIRO/giro.db"))) /\
  (forall fn,
     In fn [Harness.test_required_data w; Harness.test_network_config w;
            Harness.test_stock_consistency w;
            Harness.test_product_sync_master_to_satellite w] ->
     exists r msg,
       Harness.call_value (Harness.run_test st pc test_name category fn) = Some r /\
       Harness.status r = Harness.ERROR /\ Harness.failures r = [] /\
       Harness.error_msg r = Some msg).
Proof.
  intros Hdb.
  assert (Harness.test_required_data w pc = Harness.Returns []
            (Harness.RaisedException ("Database not found: " +:+ Sim.get_db_path pc)))
    as H1.
  { unfold Harness.test_required_data, Harness.db_count.
    by rewrite db_query_missing. }
  assert (Harness.test_network_config w pc = Harness.Returns []
            (Harness.RaisedException ("Database not found: " +:+ Sim.get_db_path pc)))
    as H2.
  { unfold Harness.test_network_config. by rewrite db_query_missing. }
  assert (exists msg, Harness.test_stock_consistency w pc
                      = Harness.Returns [] (Harness.RaisedException msg)) as [m3 H3].
  { unfold Harness.test_stock_consistency.
    destruct (String.eqb pc "PC-PDV-01"); [rewrite db_query_missing by done; eauto|].
    destruct (Harness.db_query w "PC-PDV-01" Sim.seed_product_ids); [|eauto].
    rewrite db_query_missing by done. eauto. }
  assert (exists msg, Harness.test_product_sync_master_to_satellite w pc
                      = Harness.Returns [] (Harness.RaisedException msg)) as [m4 H4].
  { unfold Harness.test_product_sync_master_to_satellite, Harness.db_count.
    destruct (String.eqb pc "PC-PDV-01"); [rewrite db_query_missing by done; eauto|].
    destruct (Harness.db_query w "PC-PDV-01" _); [|eauto].
    rewrite db_query_missing by done. eauto. }
  split.
  - intros fn [<-|[<-|[]]]; done.
  - intros fn [<-|[<-|[<-|[<-|[]]]]];
      match goal with
      | H : ?f pc = Harness.Returns [] (Harness.RaisedException ?m) |-
          context [Harness.run_test _ _ _ _ ?f] =>
          destruct (run_test_raised st pc test_name category f [] m H)
            as (r & Hr & Hs & Hf & He); exists r, m; done
      end.
Qed.

Lemma missing_database_is_error_witness :
  exists r,
    Harness.call_value
      (Harness.run_test Fixture.stamp "PC-GER" "test_required_data" "DATABASE"
         (Harness.test_required_data Fixture.offline)) = Some r /\
    Harness.status r = Harness.ERROR.
Proof.
  destruct (missing_database_is_error Fixture.offline Fixture.stamp "PC-GER"
              "test_required_data" "DATABASE" eq_refl) as [_ H].
  destruct (H (Harness.test_required_data Fixture.offline)) as (r & msg & Hr & Hs & _);
    [by left|].
  exists r. split; [exact Hr|exact Hs].
Defined.

(** X18: when the four statements of [test_required_data] succeed, the
    check returns its failures without raising: none exactly when the node
    has at least 3 employees, 5 categories, 10 products and 2 network
    settings, and otherwise one message per minimum that is not met; the
    success entry is logged only when there is no failure. *)
Theorem required_data_verdict (w : Sim.World) (pc : string) (d : Sim.Database)
    (e c p : Z) (net : list (string * string)) :
  Sim.db (w pc) = Some d ->
  Sim.table_count d "employees" = Sim.Rows e ->
  Sim.table_count d "categories" = Sim.Rows c ->
  Sim.table_count d "products" = Sim.Rows p ->
  Sim.network_settings d = Sim.Rows net ->
  exists logged failures,
    Harness.test_required_data w pc
    = Harness.Returns logged (Harness.Value (Harness.PyList failures)) /\
    (failures = [] <-> 3 <= e /\ 5 <= c /\ 10 <= p /\ (2 <= length net)%nat) /\
    length failures =
      ((if (e <? 3)%Z then 1 else 0) + (if (c <? 5)%Z then 1 else 0)
       + (if (p <? 10)%Z then 1 else 0) + (if (length net <? 2)%nat then 1 else 0))%nat /\
    (failures = [] ->
       logged = [Harness.info "DATABASE" pc "✓ Required data present"
                   [("employees", Harness.CInt e); ("products", Harness.CInt p)]]) /\
    (failures <> [] -> logged = []).
Proof.
  intros Hdb He Hc Hp Hn. unfold Harness.test_required_data, Harness.db_count.
  rewrite !(db_query_present _ _ _ _ Hdb), He, Hc, Hp, Hn.
  eexists _, _. split; [reflexivity|].
  destruct (e <? 3) eqn:E1; destruct (c <? 5) eqn:E2; destruct (p <? 10) eqn:E3;
    destruct (length net <? 2)%nat eqn:E4;
    rewrite ?Z.ltb_lt, ?Z.ltb_ge, ?Nat.ltb_lt, ?Nat.ltb_ge in *; simpl;
    (split; [split; [done|intros (? & ? & ? & ?); lia]|]) ||
    (split; [split; [lia|done]|]);
    (split; [reflexivity|]); split; done.
Qed.

Lemma required_data_verdict_witness :
  Harness.test_required_data Fixture.fleet "PC-GER"
  = Harness.Returns
      [Harness.info "DATABASE" "PC-GER" "✓ Required data present"
         [("employees", Harness.CInt 5); ("products", Harness.CInt 12)]]
      (Harness.Value (Harness.PyList [])).
Proof.
  destruct (required_data_verdict Fixture.fleet "PC-GER" _ 5 6 12
              [("network.role", "SATELLITE"); ("network.master_ip", "192.168.0.10")]
              eq_refl eq_refl eq_refl eq_refl eq_refl)
    as (logged & failures & Hrun & Hiff & _ & Hlog & _).
  assert (failures = []) as Hf by (apply Hiff; simpl; lia).
  rewrite Hrun, (Hlog Hf), Hf. reflexivity.
Defined.

(** X19: a node that passes [test_required_data] and has no runtime log is
    healthy for the continuous runner: its health status is "OK", with no
    error and no warning. *)
Theorem required_data_implies_healthy (w : Sim.World) (now pc : string)
    (hm : Runner.HealthMonitor) (logged : list Harness.LogEntry) :
  Harness.test_required_data w pc
    = Harness.Returns logged (Harness.Value (Harness.PyList [])) ->
  Sim.runtime_log (w pc) = Sim.LogAbsent ->
  let s := snd (Runner.check_pc w now pc hm) in
  Runner.status s = "OK" /\ Runner.errors s = [] /\ Runner.warnings s = [] /\
  Runner.db_accessible s = true.
Proof.
  intros Hpass Hlog. unfold Harness.test_required_data, Harness.db_count in Hpass.
  destruct (Sim.db (w pc)) as [d|] eqn:Hdb;
    [|by rewrite db_query_missing in Hpass].
  rewrite !(db_query_present _ _ _ _ Hdb) in Hpass.
  destruct (Sim.table_count d "employees") as [e|] eqn:He; [|done].
  destruct (Sim.table_count d "categories") as [c|] eqn:Hc; [|done].
  destruct (Sim.table_count d "products") as [p|] eqn:Hp; [|done].
  destruct (Sim.network_settings d) as [net|] eqn:Hn; [|done].
  destruct (e <? 3) eqn:E1; [done|]. destruct (c <? 5) eqn:E2; [done|].
  destruct (p <? 10) eqn:E3; [done|]. destruct (length net <? 2)%nat eqn:E4; [done|].
  apply Z.ltb_ge in E1, E3. apply Nat.ltb_ge in E4.
  cbn zeta. unfold Runner.check_pc. rewrite Hdb. cbn [snd].
  unfold Runner.check_pc_try. rewrite Hlog.
  assert (Runner.db_count w pc "employees" = e) as ->
      by (unfold Runner.db_count, Runner.db_query, Runner.count_rows; by rewrite Hdb, He).
  assert (Runner.db_count w pc "products" = p) as ->
      by (unfold Runner.db_count, Runner.db_query, Runner.count_rows; by rewrite Hdb, Hp).
  unfold Runner.check_employees, Runner.check_products, Runner.check_network_settings.
  cbn [Runner.employee_count Runner.product_count Runner.set_counts].
  assert ((e =? 0) = false) as -> by (apply Z.eqb_neq; lia).
  assert ((e <? 3) = false) as -> by (apply Z.ltb_ge; lia).
  cbn [Runner.employee_count Runner.product_count Runner.set_counts].
  assert ((p =? 0) = false) as -> by (apply Z.eqb_neq; lia).
  assert ((p <? 10) = false) as -> by (apply Z.ltb_ge; lia).
  unfold Runner.db_query. rewrite Hdb, Hn.
  destruct net as [|row net]; [simpl in E4; lia|]. done.
Qed.

Lemma required_data_implies_healthy_witness :
  Runner.status (snd (Runner.check_pc Fixture.fleet "t1" "PC-GER" Runner.new_monitor))
  = "OK".
Proof.
  apply (required_data_implies_healthy Fixture.fleet "t1" "PC-GER" Runner.new_monitor
           [Harness.info "DATABASE" "PC-GER" "✓ Required data present"
              [("employees", Harness.CInt 5); ("products", Harness.CInt 12)]]);
    reflexivity.
Defined.

Ltac levels :=
  repeat first [apply List.Forall_nil | apply List.Forall_cons; [simpl; auto|]].

(** X20: when its settings statement succeeds, [test_network_config] on a
    node of the roster returns at most one failure and none exactly when
    the value stored under "network.role" is "MASTER" on PC-PDV-01, or
    "SATELLITE" or "CLIENT" on any other node (the last row wins when the
    key is repeated); it logs at DEBUG and INFO level only. For a node id
    outside the roster it raises. *)
Theorem network_config_verdict (w : Sim.World) (pc : string) (d : Sim.Database)
    (settings : list (string * string)) :
  Sim.db (w pc) = Some d ->
  Sim.network_settings d = Sim.Rows settings ->
  let role :=
    PyDict.get "network.role"
      (fold_left (fun dict s => PyDict.set (fst s) (snd s) dict) settings []) in
  (In pc (map Sim.pc_id Sim.PC_CONFIG) ->
   exists logged failures,
     Harness.test_network_config w pc
     = Harness.Returns logged (Harness.Value (Harness.PyList failures)) /\
     (length failures <= 1)%nat /\
     (failures = [] <->
        (pc = "PC-PDV-01" /\ role = Some "MASTER") \/
        (pc <> "PC-PDV-01" /\ (role = Some "SATELLITE" \/ role = Some "CLIENT"))) /\
     Forall (fun e => Harness.level e = "DEBUG" \/ Harness.level e = "INFO") logged) /\
  (~ In pc (map Sim.pc_id Sim.PC_CONFIG) ->
   Harness.test_network_config w pc
   = Harness.Returns [] (Harness.RaisedException "'NoneType' object is not subscriptable")).
Proof.
  intros Hdb Hn. cbn zeta. unfold Harness.test_network_config.
  rewrite (db_query_present _ _ _ _ Hdb), Hn. cbn zeta.
  generalize (PyDict.get "network.master_ip"
    (fold_left (fun dict s => PyDict.set (fst s) (snd s) dict) settings [])).
  generalize (PyDict.get "network.role"
    (fold_left (fun dict s => PyDict.set (fst s) (snd s) dict) settings [])).
  intros role ip. split.
  - intros Hin. destruct (pc_info_roster pc Hin) as (cfg & -> & _ & ->).
    destruct (String.eqb pc "PC-PDV-01") eqn:E.
    + apply String.eqb_eq in E.
      destruct role as [r|]; [destruct (String.eqb r "MASTER") eqn:Er|].
      * apply String.eqb_eq in Er. subst r.
        eexists _, _. split; [reflexivity|]. split; [simpl; lia|].
        split; [|levels].
        split; [intros _; by left|done].
      * apply String.eqb_neq in Er.
        eexists _, _. split; [reflexivity|]. split; [simpl; lia|].
        split; [|levels].
        split; [done|]. intros [[_ [= ?]]|[? _]]; done.
      * eexists _, _. split; [reflexivity|]. split; [simpl; lia|].
        split; [|levels].
        split; [done|]. intros [[_ ?]|[? _]]; done.
    + apply String.eqb_neq in E.
      destruct role as [r|];
        [destruct (String.eqb r "SATELLITE") eqn:Es;
         [|destruct (String.eqb r "CLIENT") eqn:Ec]|];
        cbn [orb].
      * apply String.eqb_eq in Es. subst r.
        destruct ip as [[|? ?]|];
          (eexists _, _; split; [reflexivity|]; split; [simpl; lia|];
           split; [|levels];
           split; [intros _; right; auto|done]).
      * apply String.eqb_eq in Ec. subst r.
        destruct ip as [[|? ?]|];
          (eexists _, _; split; [reflexivity|]; split; [simpl; lia|];
           split; [|levels];
           split; [intros _; right; auto|done]).
      * apply String.eqb_neq in Es, Ec.
        destruct ip as [[|? ?]|];
          (eexists _, _; split; [reflexivity|]; split; [simpl; lia|];
           split; [|levels];
           split; [done|]; intros [[? _]|[_ [[= ?]|[= ?]]]]; done).
      * destruct ip as [[|? ?]|];
          (eexists _, _; split; [reflexivity|]; split; [simpl; lia|];
           split; [|levels];
           split; [done|]; intros [[? _]|[_ [?|?]]]; done).
  - intros Hnin. by rewrite pc_info_unknown.
Qed.

Lemma network_config_verdict_witness :
  exists logged,
    Harness.test_network_config Fixture.fleet "PC-PDV-01"
    = Harness.Returns logged (Harness.Value (Harness.PyList [])).
Proof.
  destruct (network_config_verdict Fixture.fleet "PC-PDV-01" _ _ eq_refl eq_refl)
    as [H _].
  destruct (H ltac:(simpl; tauto)) as (logged & failures & Hrun & _ & Hiff & _).
  assert (failures = []) as -> by (apply Hiff; left; split; reflexivity).
  by exists logged.
Defined.

(** X21: on a node of the roster whose dataset file exists and whose
    runtime log is readable, the harness check [test_master_connectivity]
    passes exactly when the runner's [check_pc] reports
    [network_connected = True]. The two disagree when a satellite has no
    runtime log: the harness check fails with "Runtime log not found" while
    the runner still reports the node as connected. *)
Theorem connectivity_agreement (w : Sim.World) (now pc : string)
    (hm : Runner.HealthMonitor) (d : Sim.Database) :
  In pc (map Sim.pc_id Sim.PC_CONFIG) ->
  Sim.db (w pc) = Some d ->
  let s := snd (Runner.check_pc w now pc hm) in
  (forall log_content, Sim.runtime_log (w pc) = Sim.LogText log_content ->
     ((exists logged, Harness.test_master_connectivity w pc
        = Harness.Returns logged (Harness.Value (Harness.PyList [])))
      <-> Runner.network_connected s = true)) /\
  (Sim.runtime_log (w pc) = Sim.LogAbsent -> pc <> "PC-PDV-01" ->
     Harness.test_master_connectivity w pc
       = Harness.Returns [] (Harness.Value (Harness.PyList ["Runtime log not found"])) /\
     Runner.network_connected s = true).
Proof.
  intros Hin Hdb s. subst s.
  rewrite (check_pc_present_status _ _ _ _ _ Hdb).
  unfold Runner.check_pc_try, Harness.test_master_connectivity.
  destruct (pc_info_roster pc Hin) as (cfg & -> & _ & ->).
  set (s1 := Runner.set_counts _ _ _ (Runner.new_status pc now)).
  destruct (check_employees_conn s1) as [Hc1 _].
  destruct (check_products_conn (Runner.check_employees s1)) as [Hc2 _].
  destruct (check_network_settings_conn w pc
              (Runner.check_products (Runner.check_employees s1))) as [Hc3 _].
  set (s4 := Runner.check_network_settings w pc _) in *.
  assert (Runner.network_connected s4 = true) as H4 by (by rewrite Hc3, Hc2, Hc1).
  split.
  - intros log_content ->.
    destruct (check_log_conn pc log_content s4) as [Hc4 _].
    destruct (final_status_conn (Runner.check_log pc log_content s4)) as [Hc5 _].
    rewrite Hc5, Hc4, H4.
    destruct (String.eqb pc "PC-PDV-01");
      destruct (Py.str_in "Conectado ao Master" log_content
                || Py.str_in "Autenticado com sucesso" log_content);
      split; try done; eauto.
    intros [logged [=]].
  - intros -> Hpc. apply String.eqb_neq in Hpc. rewrite Hpc. split; [done|].
    destruct (final_status_conn s4) as [Hc5 _]. by rewrite Hc5.
Qed.

Lemma connectivity_agreement_witness :
  Runner.network_connected
    (snd (Runner.check_pc Fixture.fleet "t1" "PC-PDV-02" Runner.new_monitor)) = true /\
  Runner.network_connected
    (snd (Runner.check_pc Fixture.fleet "t1" "PC-GER" Runner.new_monitor)) = true.
Proof.
  split.
  - destruct (connectivity_agreement Fixture.fleet "t1" "PC-PDV-02" Runner.new_monitor
                _ ltac:(simpl; tauto) eq_refl) as [H _].
    apply (H _ eq_refl). eexists. reflexivity.
  - destruct (connectivity_agreement Fixture.fleet "t1" "PC-GER" Runner.new_monitor
                _ ltac:(simpl; tauto) eq_refl) as [_ H].
    apply H; [reflexivity|done].
Defined.

(** X22: on a satellite, [test_product_sync_master_to_satellite] compares
    its product count with the master's: when the pending-operations count
    can be read, the check returns no failure exactly when the two counts
    differ by at most 5, and it logs a WARN entry exactly when more than
    100 operations are pending (which never adds a failure). When the
    pending-operations statement fails the check raises, whatever the two
    product counts are. *)
Theorem product_sync_verdict (w : Sim.World) (pc : string)
    (dm d : Sim.Database) (master_count local_count : Z) :
  pc <> "PC-PDV-01" ->
  Sim.db (w "PC-PDV-01") = Some dm ->
  Sim.table_count dm "products" = Sim.Rows master_count ->
  Sim.db (w pc) = Some d ->
  Sim.table_count d "products" = Sim.Rows local_count ->
  (forall pending, Sim.table_count d "sync_pending" = Sim.Rows pending ->
     exists logged failures,
       Harness.test_product_sync_master_to_satellite w pc
       = Harness.Returns logged (Harness.Value (Harness.PyList failures)) /\
       (failures = [] <-> Z.abs (master_count - local_count) <= 5) /\
       (length failures <= 1)%nat /\
       (Exists (fun e => Harness.level e = "WARN") logged <-> 100 < pending)) /\
  (forall msg, Sim.table_count d "sync_pending" = Sim.SqlError msg ->
     exists logged,
       Harness.test_product_sync_master_to_satellite w pc
       = Harness.Returns logged (Harness.RaisedException msg)).
Proof.
  intros Hpc Hdm Hm Hd Hl. unfold Harness.test_product_sync_master_to_satellite.
  apply String.eqb_neq in Hpc. rewrite Hpc. unfold Harness.db_count.
  rewrite (db_query_present _ _ _ _ Hdm), Hm.
  rewrite !(db_query_present _ _ _ _ Hd), Hl.
  split.
  - intros pending ->.
    destruct (5 <? Z.abs (master_count - local_count)) eqn:E;
      [apply Z.ltb_lt in E|apply Z.ltb_ge in E];
      (destruct (100 <? pending) eqn:P; [apply Z.ltb_lt in P|apply Z.ltb_ge in P]);
      eexists _, _; (split; [reflexivity|]); simpl;
      (split; [split; [done || (intros; lia)|done || (intros; lia)]|]);
      (split; [lia|]); rewrite ?Exists_cons, ?Exists_nil; simpl;
      split; try lia; intuition; done.
  - intros msg ->. destruct (5 <? Z.abs (master_count - local_count)); eauto.
Qed.

Lemma product_sync_verdict_witness :
  exists logged failures,
    Harness.test_product_sync_master_to_satellite Fixture.fleet "PC-ESTQ"
    = Harness.Returns logged (Harness.Value (Harness.PyList failures)) /\
    failures <> [].
Proof.
  destruct (product_sync_verdict Fixture.fleet "PC-ESTQ" _ _ 12 20
              ltac:(done) eq_refl eq_refl eq_refl eq_refl) as [H _].
  destruct (H 0 eq_refl) as (logged & failures & Hrun & Hiff & _).
  exists logged, failures. split; [done|].
  intros Hf. apply Hiff in Hf. simpl in Hf. lia.
Defined.

Section CompletionFacts.
Import Harness.

(** Batches that return stay batches that return. *)
Lemma step_returning max_workers p p' :
  step max_workers p p' ->
  Forall (fun t => ending t <> None) (queue p ++ running p) ->
  Forall (fun t => ending t <> None) (queue p' ++ running p').
Proof.
  intros [p0 t q Hq Hcap|p0 l1 t l2 e es Hr Hp|p0 l1 t l2 rs Hr Hp He]; simpl.
  - rewrite Hq. rewrite !Forall_app, !Forall_cons, Forall_nil. tauto.
  - rewrite Hr. rewrite !Forall_app, !Forall_cons. simpl. tauto.
  - rewrite Hr. rewrite !Forall_app, !Forall_cons. tauto.
Qed.

Lemma reachable_returning max_workers p0 p :
  reachable max_workers p0 p ->
  Forall (fun t => ending t <> None) (queue p0 ++ running p0) ->
  Forall (fun t => ending t <> None) (queue p ++ running p).
Proof.
  induction 1 as [|p p' _ IH Hs]; [done|]. intros H0.
  eapply step_returning; [exact Hs|auto].
Qed.

Lemma run_pc_tests_returns table stamps pc scenarios :
  (forall n c fn,
     In (n, c, fn)
        (flat_map (fun scenario =>
                     match PyDict.get scenario table with
                     | Some ts => ts
                     | None => []
                     end) scenarios) ->
     exists logged o, fn pc = Returns logged o) ->
  exists rs, call_value (run_pc_tests table stamps pc scenarios) = Some rs.
Proof.
  intros Hret.
  destruct (run_tests_in_order stamps pc _ 0%nat Hret) as (rs & Hrs & _).
  exists rs. unfold run_pc_tests, bind, write, ret.
  by destruct (run_tests stamps 0 pc _) as [ws rs'|ws].
Qed.

Lemma run_parallel_tests_initial table stamps scenarios max_workers p0 :
  run_parallel_tests table stamps scenarios max_workers = Ok p0 ->
  0 < max_workers /\
  queue p0 = map (fun pc => task_of (Sim.pc_id pc)
                              (run_pc_tests table (stamps (Sim.pc_id pc))
                                 (Sim.pc_id pc) scenarios)) Sim.PC_CONFIG /\
  running p0 = [] /\ completed p0 = [].
Proof.
  unfold run_parallel_tests. destruct (max_workers <=? 0) eqn:E; [done|].
  apply Z.leb_gt in E. intros [= <-]. split; [done|]. split; [reflexivity|done].
Qed.

End CompletionFacts.

(** X23: when every check of the selected scenarios comes back on every
    node of the roster and [max_workers] is positive, [run_parallel_tests]
    always returns: every step uses up one unit of a finite measure, a
    state in which the run has returned can be reached, and every state in
    which nothing can happen any more is one where the run has returned,
    with one completed future per node holding that node's results and all
    the writes of its batch performed. *)
Theorem parallel_run_completes (table : Harness.ScenarioTests)
    (stamps : string -> nat -> Harness.Stamp) (scenarios : list string)
    (max_workers : Z) (p0 : Harness.Pool) :
  Harness.run_parallel_tests table stamps scenarios max_workers = Harness.Ok p0 ->
  (forall pc n c fn,
     In pc (map Sim.pc_id Sim.PC_CONFIG) ->
     In (n, c, fn)
        (flat_map (fun scenario =>
                     match PyDict.get scenario table with
                     | Some ts => ts
                     | None => []
                     end) scenarios) ->
     exists logged o, fn pc = Harness.Returns logged o) ->
  (exists p, Harness.reachable max_workers p0 p /\ Harness.returned p) /\
  (forall p p', Harness.reachable max_workers p0 p -> Harness.step max_workers p p' ->
     (Harness.work_left p' < Harness.work_left p)%nat) /\
  (forall p, Harness.reachable max_workers p0 p -> Harness.quiescent max_workers p ->
     Harness.returned p /\
     length (Harness.completed p) = length Sim.PC_CONFIG /\
     forall pc, In pc (map Sim.pc_id Sim.PC_CONFIG) ->
       exists rs,
         Harness.call_value (Harness.run_pc_tests table (stamps pc) pc scenarios)
           = Some rs /\
         In (pc, rs) (Harness.completed p) /\
         Forall (fun e => In e (Harness.performed p))
           (Harness.call_writes (Harness.run_pc_tests table (stamps pc) pc scenarios))).
Proof.
  intros Hrun Hret.
  destruct (run_parallel_tests_initial _ _ _ _ _ Hrun) as (Hpos & Hq0 & Hr0 & Hc0).
  assert (Forall (fun t => Harness.ending t <> None)
            (Harness.queue p0 ++ Harness.running p0)) as Hinv.
  { rewrite Hq0, Hr0, app_nil_r.
    apply List.Forall_forall. intros t Ht.
    apply in_map_iff in Ht as (cfg & <- & Hcfg). cbn [Harness.task_of Harness.ending].
    destruct (run_pc_tests_returns table (stamps (Sim.pc_id cfg)) (Sim.pc_id cfg) scenarios)
      as [rs Hrs]; [|by rewrite Hrs].
    intros n c fn Hin. apply (Hret (Sim.pc_id cfg) n c fn); [|done].
    by apply in_map. }
  assert (forall p, Harness.reachable max_workers p0 p ->
                    Harness.quiescent max_workers p -> Harness.returned p) as Hdone.
  { intros p Hreach [Hq Hblocked].
    pose proof (reachable_returning _ _ _ Hreach Hinv) as Hp.
    apply Forall_app in Hp as [_ Hp].
    assert (Harness.running p = []) as Hr.
    { destruct (Harness.running p) as [|t l]; [done|].
      apply Forall_cons in Hblocked as [[_ Hnone] _].
      apply Forall_cons in Hp as [Hsome _]. done. }
    split; [|done]. rewrite Hr in Hq. simpl in Hq.
    destruct Hq as [Hq|Hq]; [done|lia]. }
  split; [|split].
  - destruct (eventually_quiescent max_workers p0) as (p & Hreach & Hq).
    exists p. split; [done|]. by apply Hdone.
  - intros p p' _ Hs. rewrite (step_work_left _ _ _ Hs). lia.
  - intros p Hreach Hq. pose proof (Hdone p Hreach Hq) as [Hqueue Hrunning].
    split; [done|]. split.
    + pose proof (reachable_count _ _ _ Hreach) as Hc.
      rewrite Hqueue, Hrunning, Hq0, Hr0, Hc0, length_map in Hc. simpl in Hc.
      rewrite Hc. reflexivity.
    + intros pc Hpc.
      destruct (run_parallel_tests_queue _ _ _ _ _ _ Hrun Hpc) as (_ & Hin & _).
      pose proof (reachable_tracked _ _ _ _ Hreach Hin) as Ht.
      destruct Ht as [Hin'|[(made & rest & _ & Hin' & _)|(rs & He & Hin' & Hall)]].
      * by rewrite Hqueue in Hin'.
      * by rewrite Hrunning in Hin'.
      * exists rs. done.
Qed.

Lemma parallel_run_completes_witness :
  exists p0 p,
    Harness.run_parallel_tests Fixture.data_table (fun _ _ => Fixture.stamp)
      ["database"; "network"] 3 = Harness.Ok p0 /\
    Harness.reachable 3 p0 p /\ Harness.returned p.
Proof.
  eexists.
  destruct (parallel_run_completes Fixture.data_table (fun _ _ => Fixture.stamp)
              ["database"; "network"] 3 _ eq_refl) as [[p Hp] _].
  - intros pc n c fn Hpc [[= <- <- <-]|[[= <- <- <-]|[]]];
      simpl in Hpc;
      repeat (destruct Hpc as [<-|Hpc]; [eexists _, _; vm_compute; reflexivity|]);
      destruct Hpc.
  - exists p. split; [reflexivity|exact Hp].
Defined.
